(** * Spectral heat current post-processing: a shallow embedding of
      [SHC_calculate/SHC_generate.py] (class [SHCPostProc]).

    Python floats are modelled by the real numbers of the Standard Library
    (exact arithmetic: rounding, infinities and NaN are outside the model;
    the square root of a negative real is 0 where numpy returns NaN; the
    statements that rest on a decision taken on a computed float, or on
    integer arithmetic that can wrap around, say so in a hypothesis),
    complex numbers by pairs of reals, numpy arrays by lists (a matrix is the
    list of its rows), and Python exceptions by an error result that keeps
    the state reached.  Atom indices are natural numbers (numpy's wrap-around
    of negative indices is not modelled).  The object is taken as the
    constructor leaves it; attributes that are [None] until [postProcess]
    assigns them are empty lists.  Printing, the timer and the optional
    pickle backup ([backupPrefix], [None] by default) are not part of the
    model.  A trace of events records what a run has done (header, reads,
    transforms, spectral values, folds), so that statements about what has
    or has not been computed can be made.  The constructor and the
    numerical part of the script at the end of the file are modelled after
    [postProcess], each with the assumptions stated there. *)

From Stdlib Require Import String Ascii Reals List ZArith Lia Lra Bool PeanoNat.
Import ListNotations.

Open Scope R_scope.

(** ** Exceptions and results *)

Inductive exn : Set :=
| ValueError | AttributeError | IndexError | ZeroDivisionError
| SystemExit | AssertionError.

Inductive res (A : Type) : Type :=
| Ok (a : A)
| Raise (e : exn).
Arguments Ok {A} a.
Arguments Raise {A} e.

Definition rbind {A B : Type} (m : res A) (k : A -> res B) : res B :=
  match m with
  | Ok a => k a
  | Raise e => Raise e
  end.

Declare Scope res_scope.
Delimit Scope res_scope with res.
Notation "'let?' x ':=' m 'in' k" := (rbind m (fun x => k))
  (at level 10, x name, m at level 100, k at level 200) : res_scope.
Notation "'let?' ' p ':=' m 'in' k" := (rbind m (fun x => match x with p => k end))
  (at level 10, p pattern, m at level 100, k at level 200) : res_scope.
Open Scope res_scope.

(** ** Complex numbers (numpy [complex128]) *)

Record C : Set := mkC { Cre : R; Cim : R }.

Definition C0 : C := mkC 0 0.
Definition Cadd (a b : C) : C := mkC (Cre a + Cre b) (Cim a + Cim b).
Definition Cmul (a b : C) : C :=
  mkC (Cre a * Cre b - Cim a * Cim b) (Cre a * Cim b + Cim a * Cre b).
Definition Cconj (a : C) : C := mkC (Cre a) (- Cim a).
Definition Cscale (r : R) (a : C) : C := mkC (r * Cre a) (r * Cim a).
Definition Csum (l : list C) : C := fold_right Cadd C0 l.
Definition Rsum (l : list R) : R := fold_right Rplus 0 l.

(** ** Lists as arrays *)

Fixpoint mapi_from {A B : Type} (i : nat) (f : nat -> A -> B) (l : list A) : list B :=
  match l with
  | [] => []
  | x :: l' => f i x :: mapi_from (S i) f l'
  end.
Definition mapi {A B : Type} (f : nat -> A -> B) (l : list A) : list B :=
  mapi_from 0 f l.

(** [a[i] = v] on an index inside the array. *)
Fixpoint upd {A : Type} (i : nat) (v : A) (l : list A) : list A :=
  match l, i with
  | [], _ => []
  | _ :: l', O => v :: l'
  | x :: l', S i' => x :: upd i' v l'
  end.

Fixpoint map2 {A B D : Type} (f : A -> B -> D) (a : list A) (b : list B) : list D :=
  match a, b with
  | x :: a', y :: b' => f x y :: map2 f a' b'
  | _, _ => []
  end.

Definition rmatrix := list (list R).
Definition cmatrix := list (list C).

(** ** The numpy operations the program calls *)

Module np.

(** [np.zeros(n)] and [np.zeros((r, c), dtype=complex128)]. *)
Definition zeros (n : nat) : list R := repeat 0 n.
Definition czeros (r c : nat) : cmatrix := repeat (repeat C0 c) r.

(** [np.fft.rfftfreq(n, d)]: [val = 1.0/(n*d)], [arange(0, n//2+1) * val];
    the Python division raises when [n*d] is zero. *)
Definition rfftfreq (n : nat) (d : R) : res (list R) :=
  if Req_dec_T (INR n * d) 0 then Raise ZeroDivisionError
  else
    let val := 1 / (INR n * d) in
    Ok (map (fun i => INR i * val) (seq 0 (n / 2 + 1))).

(** [np.reshape(a, (rows, cols), order='F')]: element [(r, t)] is
    [a[r + rows*t]]; the sizes must agree. *)
Definition reshape_F (a : list R) (rows cols : nat) : res rmatrix :=
  if (length a =? rows * cols)%nat then
    Ok (map (fun r => map (fun t => nth (r + rows * t) a 0) (seq 0 cols)) (seq 0 rows))
  else Raise ValueError.

(** One bin of the real-input discrete Fourier transform. *)
Definition rfft_bin (x : list R) (k : nat) : C :=
  let n := length x in
  Csum (mapi (fun t xt =>
                let th := 2 * PI * INR k * INR t / INR n in
                mkC (xt * cos th) (- (xt * sin th))) x).

(** [np.fft.rfft(x)] of one row: bins [0 .. n//2]. *)
Definition rfft_row (x : list R) : list C :=
  map (rfft_bin x) (seq 0 (length x / 2 + 1)).

(** [np.fft.rfft(a, axis=1)]; numpy refuses a transform of zero points. *)
Definition rfft (a : rmatrix) : res cmatrix :=
  if existsb (fun row => (length row =? 0)%nat) a then Raise ValueError
  else Ok (map rfft_row a).

(** [m[idx, :]] with an integer index array: each index must name a row. *)
Fixpoint take_rows {A : Type} (m : list (list A)) (idx : list nat) : res (list (list A)) :=
  match idx with
  | [] => Ok []
  | i :: idx' =>
      match nth_error m i with
      | None => Raise IndexError
      | Some row => let? rest := take_rows m idx' in Ok (row :: rest)
      end
  end.

(** Number of rows that the slice [c::3] selects among [n] rows. *)
Definition stride3_count (c n : nat) : nat := (n + 2 - c) / 3.

(** [m[c::3, :] = rows]: row [c + 3*j] of [m] becomes [rows[j]]; the shapes
    must agree (both sides come from the same chunk length, so the
    broadcasting of a length-one axis does not arise). *)
Definition assign_stride3 {A : Type} (c : nat) (m rows : list (list A)) (ncols : nat)
  : res (list (list A)) :=
  if ((length rows =? stride3_count c (length m))%nat
      && forallb (fun r => (length r =? ncols)%nat) rows)%bool
  then Ok (mapi (fun a old => if (a mod 3 =? c)%nat then nth (a / 3) rows old else old) m)
  else Raise ValueError.

(** [m[c::3, :] = 0]. *)
Definition zero_stride3 {A : Type} (zero : A) (c : nat) (m : list (list A)) : list (list A) :=
  mapi (fun a old => if (a mod 3 =? c)%nat then map (fun _ => zero) old else old) m.

(** [m[:, k]]. *)
Definition column {A : Type} (d : A) (m : list (list A)) (k : nat) : list A :=
  map (fun row => nth k row d) m.

(** [np.dot] of two vectors (no conjugation); the lengths must agree. *)
Definition cdot (u v : list C) : res C :=
  if (length u =? length v)%nat then Ok (Csum (map2 Cmul u v)) else Raise ValueError.

(** [np.dot] of a real matrix and a complex vector. *)
Definition matvec (k : rmatrix) (v : list C) : res (list C) :=
  if forallb (fun row => (length row =? length v)%nat) k
  then Ok (map (fun row => Csum (map2 (fun x z => Cscale x z) row v)) k)
  else Raise ValueError.

(** Elementwise binary operation on 1-D arrays with numpy's broadcasting
    rule: equal lengths, or one operand of length one. *)
Definition broadcast2 (f : R -> R -> R) (a b : list R) : res (list R) :=
  if (length a =? length b)%nat then Ok (map2 f a b)
  else match a, b with
       | [x], _ => Ok (map (f x) b)
       | _, [y] => Ok (map (fun x => f x y) a)
       | _, _ => Raise ValueError
       end.

(** Entry [p] of the full discrete convolution of [a] and [v]. *)
Definition conv_at (a v : list R) (p : nat) : R :=
  Rsum (mapi (fun m vm => if (m <=? p)%nat
                          then match nth_error a (p - m) with
                               | Some x => vm * x
                               | None => 0
                               end
                          else 0) v).

(** [np.convolve(a, v, mode='same')]: the centred part of the full
    convolution, of length [max(len a, len v)]; an empty operand is refused. *)
Definition convolve_same (a v : list R) : res (list R) :=
  match a, v with
  | [], _ | _, [] => Raise ValueError
  | _, _ =>
      let off := ((Nat.min (length a) (length v) - 1) / 2)%nat in
      Ok (map (fun i => conv_at a v (i + off)) (seq 0 (Nat.max (length a) (length v))))
  end.

(** [np.arange(0, g)] for an integer-valued [g]. *)
Definition arange (g : Z) : list R :=
  map (fun j => INR j) (seq 0 (Z.to_nat g)).

End np.

(** ** The post-processing object

    [SHCConfig] holds the attributes that [postProcess] only reads;
    [SHCPostProc] adds the attributes that it assigns. *)

Record SHCConfig : Type := {
  dt_md : R;
  sampleTimestep : R;
  scaleFactor : R;
  widthWin : R;
  in_plane : bool;
  out_of_plane : bool;
  ids_L : list nat;
  ids_R : list nat;
  NL : nat;
  NR : nat;
  inds_interface : list Z
}.

#[projections(primitive)]
Record SHCPostProc : Type := {
  cfg : SHCConfig;
  NChunks : Z;
  chunkSize : nat;
  Kij : rmatrix;
  velsL : cmatrix;
  velsR : cmatrix;
  SHC_smooth : list R;
  SHC_smooth2 : list R;
  SHC_average : list R;
  SHC_error : option (list R);
  oms_fft : list R
}.

Definition set_NChunks (v : Z) (s : SHCPostProc) : SHCPostProc :=
  {| cfg := cfg s; NChunks := v; chunkSize := chunkSize s; Kij := Kij s;
     velsL := velsL s; velsR := velsR s; SHC_smooth := SHC_smooth s;
     SHC_smooth2 := SHC_smooth2 s; SHC_average := SHC_average s;
     SHC_error := SHC_error s; oms_fft := oms_fft s |}.
Definition set_chunkSize (v : nat) (s : SHCPostProc) : SHCPostProc :=
  {| cfg := cfg s; NChunks := NChunks s; chunkSize := v; Kij := Kij s;
     velsL := velsL s; velsR := velsR s; SHC_smooth := SHC_smooth s;
     SHC_smooth2 := SHC_smooth2 s; SHC_average := SHC_average s;
     SHC_error := SHC_error s; oms_fft := oms_fft s |}.
Definition set_Kij (v : rmatrix) (s : SHCPostProc) : SHCPostProc :=
  {| cfg := cfg s; NChunks := NChunks s; chunkSize := chunkSize s; Kij := v;
     velsL := velsL s; velsR := velsR s; SHC_smooth := SHC_smooth s;
     SHC_smooth2 := SHC_smooth2 s; SHC_average := SHC_average s;
     SHC_error := SHC_error s; oms_fft := oms_fft s |}.
Definition set_velsL (v : cmatrix) (s : SHCPostProc) : SHCPostProc :=
  {| cfg := cfg s; NChunks := NChunks s; chunkSize := chunkSize s; Kij := Kij s;
     velsL := v; velsR := velsR s; SHC_smooth := SHC_smooth s;
     SHC_smooth2 := SHC_smooth2 s; SHC_average := SHC_average s;
     SHC_error := SHC_error s; oms_fft := oms_fft s |}.
Definition set_velsR (v : cmatrix) (s : SHCPostProc) : SHCPostProc :=
  {| cfg := cfg s; NChunks := NChunks s; chunkSize := chunkSize s; Kij := Kij s;
     velsL := velsL s; velsR := v; SHC_smooth := SHC_smooth s;
     SHC_smooth2 := SHC_smooth2 s; SHC_average := SHC_average s;
     SHC_error := SHC_error s; oms_fft := oms_fft s |}.
Definition set_SHC_smooth (v : list R) (s : SHCPostProc) : SHCPostProc :=
  {| cfg := cfg s; NChunks := NChunks s; chunkSize := chunkSize s; Kij := Kij s;
     velsL := velsL s; velsR := velsR s; SHC_smooth := v;
     SHC_smooth2 := SHC_smooth2 s; SHC_average := SHC_average s;
     SHC_error := SHC_error s; oms_fft := oms_fft s |}.
Definition set_SHC_smooth2 (v : list R) (s : SHCPostProc) : SHCPostProc :=
  {| cfg := cfg s; NChunks := NChunks s; chunkSize := chunkSize s; Kij := Kij s;
     velsL := velsL s; velsR := velsR s; SHC_smooth := SHC_smooth s;
     SHC_smooth2 := v; SHC_average := SHC_average s;
     SHC_error := SHC_error s; oms_fft := oms_fft s |}.
Definition set_SHC_average (v : list R) (s : SHCPostProc) : SHCPostProc :=
  {| cfg := cfg s; NChunks := NChunks s; chunkSize := chunkSize s; Kij := Kij s;
     velsL := velsL s; velsR := velsR s; SHC_smooth := SHC_smooth s;
     SHC_smooth2 := SHC_smooth2 s; SHC_average := v;
     SHC_error := SHC_error s; oms_fft := oms_fft s |}.
Definition set_SHC_error (v : option (list R)) (s : SHCPostProc) : SHCPostProc :=
  {| cfg := cfg s; NChunks := NChunks s; chunkSize := chunkSize s; Kij := Kij s;
     velsL := velsL s; velsR := velsR s; SHC_smooth := SHC_smooth s;
     SHC_smooth2 := SHC_smooth2 s; SHC_average := SHC_average s;
     SHC_error := v; oms_fft := oms_fft s |}.
Definition set_oms_fft (v : list R) (s : SHCPostProc) : SHCPostProc :=
  {| cfg := cfg s; NChunks := NChunks s; chunkSize := chunkSize s; Kij := Kij s;
     velsL := velsL s; velsR := velsR s; SHC_smooth := SHC_smooth s;
     SHC_smooth2 := SHC_smooth2 s; SHC_average := SHC_average s;
     SHC_error := SHC_error s; oms_fft := v |}.

(** ** The compact velocity file

    The header as its tokens parse (atom count, dump stride, atom ids) and
    the flat sequence of velocity samples that follows it. *)

Record velfile : Type := {
  hdr_Natoms : Z;
  hdr_stride : Z;
  hdr_ids : list Z;
  samples : list R
}.

(** ** The run: object state, file position and an event trace *)

Inductive event : Set :=
| EvHeader              (* the header of the velocity file has been read *)
| EvRead (got : nat)    (* one chunk read, returning [got] samples *)
| EvFFT                 (* the Fourier transform of a chunk has been taken *)
| EvSHC                 (* the spectral values of a chunk have been computed *)
| EvFold.               (* the running averages have been updated *)

#[projections(primitive)]
Record world : Type := {
  self : SHCPostProc;
  fid : list R;
  trace : list event
}.

(** State and exception monad: an exception keeps the state reached. *)
Definition M (A : Type) : Type := world -> world * res A.

Definition ret {A : Type} (a : A) : M A := fun w => (w, Ok a).
Definition bind {A B : Type} (m : M A) (k : A -> M B) : M B :=
  fun w => match m w with
           | (w', Ok a) => k a w'
           | (w', Raise e) => (w', Raise e)
           end.
Definition lift {A : Type} (r : res A) : M A := fun w => (w, r).
Definition get_self : M SHCPostProc := fun w => (w, Ok (self w)).
Definition modify (f : SHCPostProc -> SHCPostProc) : M unit :=
  fun w => ({| self := f (self w); fid := fid w; trace := trace w |}, Ok tt).
Definition emit (e : event) : M unit :=
  fun w => ({| self := self w; fid := fid w; trace := trace w ++ [e] |}, Ok tt).

Declare Scope monad_scope.
Delimit Scope monad_scope with monad.
Notation "x <- m ;; k" := (bind m (fun x => k))
  (at level 61, m at next level, right associativity) : monad_scope.
Notation "m ;; k" := (bind m (fun _ => k))
  (at level 61, right associativity) : monad_scope.
Open Scope monad_scope.

(** [np.fromfile(fid, count=n, sep=" ")]: up to [n] values, fewer at the end
    of the file; the file position moves past what was read. *)
Definition fromfile (n : nat) : M (list R) :=
  fun w => ({| self := self w; fid := skipn n (fid w);
               trace := trace w ++ [EvRead (length (firstn n (fid w)))] |},
            Ok (firstn n (fid w))).

(** ** [SHCPostProc._smoothen] *)

Definition gauss_window (gwin : Z) : list R :=
  if (gwin =? 1)%Z then [1]
  else
    let n := map (fun a => 2 * a / (IZR gwin - 1) - 1) (np.arange gwin) in
    let n := map (fun x => 3 * x) n in
    let gauss := map (fun x => exp (- (x * x) / 2)) n in
    map (fun g => g / Rsum gauss) gauss.

Definition window_size (df widthWin : R) : Z :=
  let gwin := Zceil (widthWin / df) in
  if (gwin mod 2 =? 0)%Z then (gwin + 1)%Z else gwin.

Definition _smoothen (func : list R) (df widthWin : R) : res (list R) :=
  np.convolve_same func (gauss_window (window_size df widthWin)).

(** ** [SHCPostProc._differ_direction] *)

Definition _differ_direction (s : SHCPostProc) : res SHCPostProc :=
  if (in_plane (cfg s) && negb (out_of_plane (cfg s)))%bool then
    let s := set_Kij (np.zero_stride3 0 2 (Kij s)) s in
    let s := set_velsL (np.zero_stride3 C0 2 (velsL s)) s in
    let s := set_velsR (np.zero_stride3 C0 2 (velsR s)) s in
    Ok s
  else if (out_of_plane (cfg s) && negb (in_plane (cfg s)))%bool then
    let s := set_Kij (np.zero_stride3 0 0 (Kij s)) s in
    let s := set_Kij (np.zero_stride3 0 1 (Kij s)) s in
    let s := set_velsL (np.zero_stride3 C0 0 (velsL s)) s in
    let s := set_velsL (np.zero_stride3 C0 1 (velsL s)) s in
    let s := set_velsR (np.zero_stride3 C0 0 (velsR s)) s in
    let s := set_velsR (np.zero_stride3 C0 1 (velsR s)) s in
    Ok s
  else Raise AttributeError.

(** ** [SHCPostProc.postProcess] *)

(** Header: atom count, dump stride and atom ids are checked against the
    object (lines 303-326). *)
Fixpoint check_ids (js : list nat) (inds indArray : list Z) : res unit :=
  match js with
  | [] => Ok tt
  | j :: js' =>
      match nth_error inds j, nth_error indArray j with
      | Some a, Some b =>
          if (a + 1 =? b)%Z then check_ids js' inds indArray else Raise SystemExit
      | _, _ => Raise IndexError
      end
  end.

Definition read_header (f : velfile) : M unit :=
  emit EvHeader ;;
  s <- get_self ;;
  let Natoms := hdr_Natoms f in
  if negb (Natoms =? Z.of_nat (NL (cfg s) + NR (cfg s)))%Z then lift (Raise ValueError)
  else if Req_dec_T (IZR (hdr_stride f) * dt_md (cfg s)) (sampleTimestep (cfg s)) then
    let indArray := firstn (Z.to_nat Natoms) (hdr_ids f) in
    lift (check_ids (seq 0 (Z.to_nat Natoms)) (inds_interface (cfg s)) indArray)
  else lift (Raise SystemExit).

(** The angular frequency grid [np.fft.rfftfreq(chunkSize, d) * 2 * np.pi]. *)
Definition freq_grid (n : nat) (d : R) : res (list R) :=
  let? f := np.rfftfreq n d in Ok (map (fun x => x * 2 * PI) f).

(** Lines 390-398, one assignment: [vels[c::3, :] = velFFT[3 * ids + c, :]]. *)
Definition assign_axis (c : nat) (vels velFFT : cmatrix) (ids : list nat) (Nfreqs : nat)
  : res cmatrix :=
  let? rows := np.take_rows velFFT (map (fun i => 3 * i + c)%nat ids) in
  np.assign_stride3 c vels rows Nfreqs.

Definition assign_velsL (c : nat) (velFFT : cmatrix) (Nfreqs : nat) : M unit :=
  s <- get_self ;;
  v <- lift (assign_axis c (velsL s) velFFT (ids_L (cfg s)) Nfreqs) ;;
  modify (set_velsL v).

Definition assign_velsR (c : nat) (velFFT : cmatrix) (Nfreqs : nat) : M unit :=
  s <- get_self ;;
  v <- lift (assign_axis c (velsR s) velFFT (ids_R (cfg s)) Nfreqs) ;;
  modify (set_velsR v).

(** Lines 379-398: de-interleave, transform, scale, and split into the
    left and right velocity matrices. *)
Definition transform_chunk (velArray : list R) (NDOF Nfreqs : nat) : M unit :=
  s <- get_self ;;
  velArray <- lift (np.reshape_F velArray NDOF (chunkSize s)) ;;
  velFFT <- lift (np.rfft velArray) ;;
  let velFFT := map (map (Cscale (sampleTimestep (cfg s)))) velFFT in
  emit EvFFT ;;
  modify (set_velsL (np.czeros (3 * NL (cfg s)) Nfreqs)) ;;
  modify (set_velsR (np.czeros (3 * NR (cfg s)) Nfreqs)) ;;
  assign_velsL 0 velFFT Nfreqs ;;
  assign_velsL 1 velFFT Nfreqs ;;
  assign_velsL 2 velFFT Nfreqs ;;
  assign_velsR 0 velFFT Nfreqs ;;
  assign_velsR 1 velFFT Nfreqs ;;
  assign_velsR 2 velFFT Nfreqs.

(** Lines 400-403. *)
Definition project_chunk : M unit :=
  s <- get_self ;;
  if (in_plane (cfg s) || out_of_plane (cfg s))%bool then
    s' <- lift (_differ_direction s) ;;
    modify (fun _ => s')
  else ret tt.

(** Lines 406-420: the spectral heat current of one chunk. *)
Definition SHC_bin (s : SHCPostProc) (ki : nat) : res R :=
  let? kv := np.matvec (Kij s) (map Cconj (np.column C0 (velsR s) ki)) in
  let? d := np.cdot (np.column C0 (velsL s) ki) kv in
  Ok (-2 * Cim d / nth ki (oms_fft s) 0).

Fixpoint SHC_loop (s : SHCPostProc) (kis : list nat) (SHC : list R) : res (list R) :=
  match kis with
  | [] => Ok SHC
  | ki :: kis' =>
      let? v := SHC_bin s ki in
      SHC_loop s kis' (upd ki v SHC)
  end.

Definition chunk_SHC (s : SHCPostProc) (Nfreqs : nat) : res (list R) :=
  let SHC := np.zeros Nfreqs in
  let? SHC := SHC_loop s (seq 1 (Nfreqs - 1)) SHC in
  let SHC := map (fun x => x / (INR (chunkSize s) * sampleTimestep (cfg s))) SHC in
  let SHC := map (fun x => x * scaleFactor (cfg s)) SHC in
  Ok SHC.

(** Lines 428-429. *)
Definition grid_spacing (oms : list R) : res R :=
  match oms with
  | w0 :: w1 :: _ => Ok ((w1 - w0) / (2 * PI))
  | _ => Raise IndexError
  end.

(** The running mean update [(k * m + x) / (k + 1.0)] (lines 433-437). *)
Definition running_mean (k : nat) (m x : list R) : res (list R) :=
  let? t := np.broadcast2 Rplus (map (fun y => INR k * y) m) x in
  Ok (map (fun y => y / (INR k + 1)) t).

Definition square (x : list R) : list R := map (fun y => y ^ 2) x.

Definition fold_chunk (k : nat) (SHC SHC_orig : list R) : M unit :=
  s <- get_self ;;
  m <- lift (running_mean k (SHC_smooth s) SHC) ;;
  modify (set_SHC_smooth m) ;;
  m2 <- lift (running_mean k (SHC_smooth2 s) (square SHC)) ;;
  modify (set_SHC_smooth2 m2) ;;
  a <- lift (running_mean k (SHC_average s) SHC_orig) ;;
  modify (set_SHC_average a) ;;
  emit EvFold.

Definition seed_chunk (SHC SHC_orig : list R) : M unit :=
  modify (set_SHC_smooth SHC) ;;
  modify (set_SHC_smooth2 (square SHC)) ;;
  modify (set_SHC_average SHC_orig) ;;
  modify (set_NChunks 1).

(** The locals of the loop and what an iteration asks for next. *)
Record locals : Set := { Nfreqs : nat; exitFlag : bool }.
Inductive flow : Set := Next | Break.

(** Lines 358-376: the read and the end-of-file checks. *)
Definition read_chunk (NDOF k : nat) (loc : locals) : M (flow * locals * list R) :=
  s <- get_self ;;
  velArray <- fromfile (chunkSize s * NDOF) ;;
  if (length velArray =? 0)%nat then
    modify (set_NChunks (Z.of_nat k - 1)) ;;
    ret (Break, loc, velArray)
  else if negb (length velArray =? chunkSize s * NDOF)%nat then
    (if (NDOF =? 0)%nat then lift (Raise ZeroDivisionError) else ret tt) ;;
    modify (set_chunkSize (length velArray / NDOF)) ;;
    if (0 <? k)%nat then
      modify (set_NChunks (Z.of_nat k - 1)) ;;
      ret (Break, loc, velArray)
    else
      s <- get_self ;;
      oms <- lift (freq_grid (chunkSize s) (sampleTimestep (cfg s))) ;;
      modify (set_oms_fft oms) ;;
      ret (Next, {| Nfreqs := length oms; exitFlag := true |}, velArray)
  else ret (Next, loc, velArray).

(** Lines 379-429: the raw and the smoothed curve of one chunk. *)
Definition chunk_curves (velArray : list R) (NDOF Nf : nat) : M (list R * list R) :=
  transform_chunk velArray NDOF Nf ;;
  project_chunk ;;
  s <- get_self ;;
  SHC <- lift (chunk_SHC s Nf) ;;
  emit EvSHC ;;
  let SHC_orig := SHC in
  df <- lift (grid_spacing (oms_fft s)) ;;
  SHC <- lift (_smoothen SHC df (widthWin (cfg s))) ;;
  ret (SHC, SHC_orig).

(** Lines 379-451: one chunk through transform, estimate, smooth, fold. *)
Definition process_chunk (NDOF k : nat) (loc : locals) (velArray : list R) : M flow :=
  c <- chunk_curves velArray NDOF (Nfreqs loc) ;;
  let SHC := fst c in
  let SHC_orig := snd c in
  if negb (exitFlag loc) then
    fold_chunk k SHC SHC_orig ;; ret Next
  else if (exitFlag loc && (k =? 0)%nat)%bool then
    seed_chunk SHC SHC_orig ;; ret Break
  else lift (Raise AssertionError).

Definition loop_body (NDOF k : nat) (loc : locals) : M (flow * locals) :=
  r <- read_chunk NDOF k loc ;;
  match r with
  | (Break, loc', _) => ret (Break, loc')
  | (Next, loc', velArray) =>
      f <- process_chunk NDOF k loc' velArray ;;
      ret (f, loc')
  end.

(** [for k in np.arange(self.NChunks)]: [n] iterations remain, the next
    one has index [k]. *)
Fixpoint chunk_loop (n : nat) (NDOF k : nat) (loc : locals) : M unit :=
  match n with
  | O => ret tt
  | S n' =>
      r <- loop_body NDOF k loc ;;
      match r with
      | (Break, _) => ret tt
      | (Next, loc') => chunk_loop n' NDOF (S k) loc'
      end
  end.

(** Lines 455-463: the between-chunk error estimate. *)
Definition error_estimate (N : Z) (smooth smooth2 : list R) : res (option (list R)) :=
  if (1 <? N)%Z then
    let? d := np.broadcast2 Rminus smooth2 (square smooth) in
    let samplevar := map (fun v => (IZR N / (IZR N - 1)) * v) d in
    Ok (Some (map (fun v => sqrt v / sqrt (IZR N)) samplevar))
  else Ok None.

Definition finalize : M unit :=
  s <- get_self ;;
  e <- lift (error_estimate (NChunks s) (SHC_smooth s) (SHC_smooth2 s)) ;;
  modify (set_SHC_error e).

Definition postProcess_body (f : velfile) : M unit :=
  read_header f ;;
  s <- get_self ;;
  let NDOF := (3 * (NL (cfg s) + NR (cfg s)))%nat in
  oms <- lift (freq_grid (chunkSize s) (sampleTimestep (cfg s))) ;;
  modify (set_oms_fft oms) ;;
  let Nfreqs := length oms in
  modify (set_SHC_smooth (np.zeros Nfreqs)) ;;
  modify (set_SHC_smooth2 (np.zeros Nfreqs)) ;;
  modify (set_SHC_average (np.zeros Nfreqs)) ;;
  chunk_loop (Z.to_nat (NChunks s)) NDOF 0 {| Nfreqs := Nfreqs; exitFlag := false |} ;;
  finalize.

(** A run of [postProcess] on the object [s] and the file [f]: the final
    state and whether the call returned or raised. *)
Definition postProcess (s : SHCPostProc) (f : velfile) : world * res unit :=
  postProcess_body f {| self := s; fid := samples f; trace := [] |}.

(** * Closed forms, predicates and scenarios that the statements use *)

(** The grid that [freq_grid] returns when it returns: bin [i] is
    [i * (1/(n*d)) * 2 * pi], for [i = 0 .. n/2]. *)
Definition grid (n : nat) (d : R) : list R :=
  map (fun x => x * 2 * PI) (map (fun i => INR i * (1 / (INR n * d))) (seq 0 (n / 2 + 1))).

(** The matrix after one of the assignments of lines 390-398. *)
Definition put_axis (c : nat) (velFFT : cmatrix) (ids : list nat) (vels : cmatrix) : cmatrix :=
  mapi (fun a old => if (a mod 3 =? c)%nat
                     then nth (a / 3) (map (fun i => nth (3 * i + c) velFFT []) ids) old
                     else old) vels.

(** Row [a] of a side's velocity matrix is row [3*ids[a/3] + a mod 3] of
    the transformed chunk: atom by atom, x, y, z. *)
Definition side_rows (velFFT : cmatrix) (ids : list nat) : cmatrix :=
  map (fun a => nth (3 * nth (a / 3) ids 0%nat + a mod 3) velFFT [])
      (seq 0 (3 * length ids)).

(** A matrix of [r] rows and [c] columns. *)
Definition shape {A : Type} (m : list (list A)) (r c : nat) : Prop :=
  length m = r /\ Forall (fun row => length row = c) m.

(** The transformed chunk: de-interleave (row [r], time [t] is sample
    [r + NDOF*t]), transform each row, scale by the sample time step. *)
Definition fft_rows (velArray : list R) (NDOF L : nat) (dt : R) : cmatrix :=
  map (map (Cscale dt))
      (map np.rfft_row
           (map (fun r => map (fun t => nth (r + NDOF * t) velArray 0) (seq 0 L))
                (seq 0 NDOF))).

(** The rows that [_differ_direction] zeroes, on any of the three matrices:
    every third row from row 2 in plane, from rows 0 and 1 out of plane,
    none without a projection. *)
Definition proj {A : Type} (c : SHCConfig) (zero : A) (m : list (list A)) : list (list A) :=
  if (in_plane c && negb (out_of_plane c))%bool then np.zero_stride3 zero 2 m
  else if (out_of_plane c && negb (in_plane c))%bool
       then np.zero_stride3 zero 1 (np.zero_stride3 zero 0 m)
       else m.

(** The object after [_differ_direction], when it returns. *)
Definition projected (s : SHCPostProc) : SHCPostProc :=
  set_velsR (proj (cfg s) C0 (velsR s))
    (set_velsL (proj (cfg s) C0 (velsL s))
       (set_Kij (proj (cfg s) 0 (Kij s)) s)).

(** The object after lines 379-398, when they succeed. *)
Definition transformed (s : SHCPostProc) (velArray : list R) (NDOF : nat) : SHCPostProc :=
  let F := fft_rows velArray NDOF (chunkSize s) (sampleTimestep (cfg s)) in
  set_velsR (side_rows F (ids_R (cfg s))) (set_velsL (side_rows F (ids_L (cfg s))) s).

(** The index arrays as [_loadFC] and the header check leave them: [NL] and
    [NR] are their lengths and every index names an atom of the file. *)
Definition ids_ok (c : SHCConfig) : Prop :=
  NL c = length (ids_L c) /\ NR c = length (ids_R c) /\
  Forall (fun i => (i < NL c + NR c)%nat) (ids_L c) /\
  Forall (fun i => (i < NL c + NR c)%nat) (ids_R c).

(** [V_L[:,i]^t . K . conj(V_R[:,i])] written as the double sum over the
    left rows [a] and the right rows [b]. *)
Definition bilinear (VL : cmatrix) (K : rmatrix) (VR : cmatrix) (i : nat) : C :=
  Csum (map (fun a =>
               Cmul (nth i (nth a VL []) C0)
                    (Csum (map (fun b => Cscale (nth b (nth a K []) 0)
                                                (Cconj (nth i (nth b VR []) C0)))
                               (seq 0 (length VR)))))
            (seq 0 (length VL))).

(** The value that line 412 stores in bin [ki]. *)
Definition bin_value (s : SHCPostProc) (ki : nat) : R :=
  -2 * Cim (bilinear (velsL s) (Kij s) (velsR s) ki) / nth ki (oms_fft s) 0.

(** The shapes that the two [np.dot] of line 412 need. *)
Definition mats_ok (s : SHCPostProc) : Prop :=
  length (Kij s) = length (velsL s) /\
  Forall (fun row => length row = length (velsR s)) (Kij s).

(** The normalised, unit-converted curve of a chunk, bin by bin. *)
Definition raw_curve (s : SHCPostProc) (Nf : nat) : list R :=
  map (fun i => (if (i =? 0)%nat then 0 else bin_value s i)
                / (INR (chunkSize s) * sampleTimestep (cfg s)) * scaleFactor (cfg s))
      (seq 0 Nf).

(** The kernel and the number of its samples, for a grid spacing and a
    window width. *)
Definition kernel (df widthWin : R) : list R := gauss_window (window_size df widthWin).
Definition window_len (df widthWin : R) : nat := length (kernel df widthWin).

(** What [np.convolve(func, gauss, mode='same')] returns on non-empty
    arrays. *)
Definition smooth_curve (func gauss : list R) : list R :=
  let off := ((Nat.min (length func) (length gauss) - 1) / 2)%nat in
  map (fun i => np.conv_at func gauss (i + off))
      (seq 0 (Nat.max (length func) (length gauss))).

(** What a chunk needs in order to be processed: consistent index arrays
    and force constants (as [_loadFC] checks them), at least two time steps,
    positive sample interval and window width, at most one projection, and
    the grid of the current chunk length. *)
Record chunk_ready (s : SHCPostProc) (NDOF Nf : nat) : Prop := {
  rd_ids : ids_ok (cfg s);
  rd_NDOF : NDOF = (3 * (NL (cfg s) + NR (cfg s)))%nat;
  rd_K : shape (Kij s) (3 * NL (cfg s)) (3 * NR (cfg s));
  rd_L : (2 <= chunkSize s)%nat;
  rd_dt : 0 < sampleTimestep (cfg s);
  rd_win : 0 < widthWin (cfg s);
  rd_dir : (in_plane (cfg s) && out_of_plane (cfg s))%bool = false;
  rd_oms : oms_fft s = grid (chunkSize s) (sampleTimestep (cfg s));
  rd_Nf : Nf = (chunkSize s / 2 + 1)%nat
}.

(** The object, the grid spacing and the two curves of a chunk whose
    samples are [velArray], processed from the object [s]. *)
Definition chunk_state (s : SHCPostProc) (velArray : list R) (NDOF : nat) : SHCPostProc :=
  projected (transformed s velArray NDOF).
Definition chunk_df (s : SHCPostProc) : R :=
  1 / (INR (chunkSize s) * sampleTimestep (cfg s)).
Definition chunk_raw (s : SHCPostProc) (velArray : list R) (NDOF : nat) : list R :=
  raw_curve (chunk_state s velArray NDOF) (chunkSize s / 2 + 1).
Definition chunk_smooth (s : SHCPostProc) (velArray : list R) (NDOF : nat) : list R :=
  smooth_curve (chunk_raw s velArray NDOF) (kernel (chunk_df s) (widthWin (cfg s))).

(** What [running_mean] returns on arrays of one length. *)
Definition mean_step (k : nat) (m x : list R) : list R :=
  map (fun y => y / (INR k + 1)) (map2 Rplus (map (fun y => INR k * y) m) x).

(** The object after lines 433-437. *)
Definition folded (k : nat) (s : SHCPostProc) (SHC SHC_orig : list R) : SHCPostProc :=
  set_SHC_average (mean_step k (SHC_average s) SHC_orig)
    (set_SHC_smooth2 (mean_step k (SHC_smooth2 s) (square SHC))
       (set_SHC_smooth (mean_step k (SHC_smooth s) SHC) s)).

(** The world after a read of [n] samples that leaves the object [s]. *)
Definition after_read (n : nat) (s : SHCPostProc) (w : world) : world :=
  {| self := s; fid := skipn n (fid w);
     trace := trace w ++ [EvRead (length (firstn n (fid w)))] |}.

(** What the loop keeps from one full chunk to the next: a chunk can be
    processed, there is something to read, and the running arrays and the
    smoothed curve have the length of the grid. *)
Record loop_inv (s : SHCPostProc) (NDOF Nf : nat) : Prop := {
  li_ready : chunk_ready s NDOF Nf;
  li_NDOF : (0 < NDOF)%nat;
  li_smooth : length (SHC_smooth s) = Nf;
  li_smooth2 : length (SHC_smooth2 s) = Nf;
  li_average : length (SHC_average s) = Nf;
  li_window : (window_len (chunk_df s) (widthWin (cfg s)) <= Nf)%nat
}.

(** The world after one iteration on a full chunk, at index [k]. *)
Definition step_full (NDOF k : nat) (w : world) : world :=
  let n := (chunkSize (self w) * NDOF)%nat in
  let va := firstn n (fid w) in
  {| self := folded k (chunk_state (self w) va NDOF)
                    (chunk_smooth (self w) va NDOF) (chunk_raw (self w) va NDOF);
     fid := skipn n (fid w);
     trace := trace w ++ [EvRead n; EvFFT; EvSHC; EvFold] |}.

(** [j] iterations on full chunks, the first with index [k]. *)
Fixpoint run_full (NDOF j k : nat) (w : world) : world :=
  match j with
  | O => w
  | S j' => run_full NDOF j' (S k) (step_full NDOF k w)
  end.

(** The header passes the three checks of lines 305-324. *)
Definition header_ok (s : SHCPostProc) (f : velfile) : Prop :=
  hdr_Natoms f = Z.of_nat (NL (cfg s) + NR (cfg s)) /\
  IZR (hdr_stride f) * dt_md (cfg s) = sampleTimestep (cfg s) /\
  check_ids (seq 0 (Z.to_nat (hdr_Natoms f))) (inds_interface (cfg s))
            (firstn (Z.to_nat (hdr_Natoms f)) (hdr_ids f)) = Ok tt.

(** Line 331 and the locals with which the loop starts. *)
Definition NDOF_of (s : SHCPostProc) : nat := (3 * (NL (cfg s) + NR (cfg s)))%nat.

Definition loc0 (s : SHCPostProc) : locals :=
  {| Nfreqs := (chunkSize s / 2 + 1)%nat; exitFlag := false |}.

(** The state with which the loop over chunks starts. *)
Definition started (s : SHCPostProc) (f : velfile) : world :=
  let Nf := (chunkSize s / 2 + 1)%nat in
  {| self := set_SHC_average (np.zeros Nf)
               (set_SHC_smooth2 (np.zeros Nf)
                  (set_SHC_smooth (np.zeros Nf)
                     (set_oms_fft (grid (chunkSize s) (sampleTimestep (cfg s))) s)));
     fid := samples f;
     trace := [EvHeader] |}.

(** What [error_estimate] returns on arrays of one length. *)
Definition error_value (N : Z) (smooth smooth2 : list R) : option (list R) :=
  if (1 <? N)%Z then
    Some (map (fun v => sqrt v / sqrt (IZR N))
              (map (fun v => (IZR N / (IZR N - 1)) * v)
                   (map2 Rminus smooth2 (square smooth))))
  else None.

(** The world after lines 455-463. *)
Definition finalized (w : world) : world :=
  {| self := set_SHC_error
               (error_value (NChunks (self w)) (SHC_smooth (self w)) (SHC_smooth2 (self w)))
               (self w);
     fid := fid w; trace := trace w |}.

(** What a run needs of the object it is started on. *)
Record run_ready (s : SHCPostProc) : Prop := {
  rr_ids : ids_ok (cfg s);
  rr_atoms : (0 < NL (cfg s) + NR (cfg s))%nat;
  rr_K : shape (Kij s) (3 * NL (cfg s)) (3 * NR (cfg s));
  rr_L : (2 <= chunkSize s)%nat;
  rr_dt : 0 < sampleTimestep (cfg s);
  rr_win : 0 < widthWin (cfg s);
  rr_dir : (in_plane (cfg s) && out_of_plane (cfg s))%bool = false
}.

(** The smoothing kernel is no longer than the frequency grid. *)
Definition window_fits (s : SHCPostProc) : Prop :=
  (window_len (chunk_df s) (widthWin (cfg s)) <= chunkSize s / 2 + 1)%nat.

(** The object after the read that met the end of the file at index [k]:
    the chunk count becomes [k - 1]; a partial chunk also changes the
    chunk size. *)
Definition end_state (NDOF k : nat) (w : world) : SHCPostProc :=
  match fid w with
  | [] => set_NChunks (Z.of_nat k - 1) (self w)
  | _ :: _ =>
      set_NChunks (Z.of_nat k - 1) (set_chunkSize (length (fid w) / NDOF) (self w))
  end.

(** The world after that read. *)
Definition ended (NDOF k : nat) (w : world) : world :=
  after_read (chunkSize (self w) * NDOF) (end_state NDOF k w) w.

(** The world after [j] full chunks of a run on [s] and [f]. *)
Definition after_chunks (s : SHCPostProc) (f : velfile) (j : nat) : world :=
  run_full (NDOF_of s) j 0 (started s f).

(** The chunk length that a short first read leaves (line 367). *)
Definition short_len (s : SHCPostProc) (f : velfile) : nat :=
  (length (samples f) / NDOF_of s)%nat.

(** The object once the short first read has changed the chunk size and
    rebuilt the grid. *)
Definition short_state (s : SHCPostProc) (f : velfile) : SHCPostProc :=
  set_oms_fft (grid (short_len s f) (sampleTimestep (cfg s)))
    (set_chunkSize (short_len s f) (self (started s f))).

(** The object after lines 445-448. *)
Definition seeded (s : SHCPostProc) (SHC SHC_orig : list R) : SHCPostProc :=
  set_NChunks 1
    (set_SHC_average SHC_orig (set_SHC_smooth2 (square SHC) (set_SHC_smooth SHC s))).

(** The world at the end of a run whose first read was short. *)
Definition short_final (s : SHCPostProc) (f : velfile) : world :=
  let s1 := short_state s f in
  let va := samples f in
  let N := NDOF_of s in
  {| self := set_SHC_error None
               (seeded (chunk_state s1 va N) (chunk_smooth s1 va N) (chunk_raw s1 va N));
     fid := [];
     trace := [EvHeader; EvRead (length va); EvFFT; EvSHC] |}.

(** ** The scenario of the design notes: two atoms on each side, identity
    force constants, chunks of eight time steps *)

Module Scenario.

(** The attributes, for the two projection flags and a window width. *)
Definition config (ip op : bool) (win : R) : SHCConfig :=
  {| dt_md := 1; sampleTimestep := 1; scaleFactor := 1; widthWin := win;
     in_plane := ip; out_of_plane := op;
     ids_L := [0; 1]%nat; ids_R := [2; 3]%nat; NL := 2; NR := 2;
     inds_interface := [0; 1; 2; 3]%Z |}.

Definition identity (n : nat) : rmatrix :=
  map (fun a => map (fun b => if (a =? b)%nat then 1 else 0) (seq 0 n)) (seq 0 n).

(** The object as the constructor leaves it, for [N] requested chunks. *)
Definition object (ip op : bool) (win : R) (N : Z) : SHCPostProc :=
  {| cfg := config ip op win; NChunks := N; chunkSize := 8; Kij := identity 6;
     velsL := []; velsR := []; SHC_smooth := []; SHC_smooth2 := []; SHC_average := [];
     SHC_error := None; oms_fft := [] |}.

(** No projection and a window of one sample: the width, 1/16, is half
    the grid spacing, 1/8. *)
Definition obj (N : Z) : SHCPostProc := object false false (1 / 16) N.

(** A velocity file of four atoms with the given samples. *)
Definition file (l : list R) : velfile :=
  {| hdr_Natoms := 4; hdr_stride := 1; hdr_ids := [1; 2; 3; 4]%Z; samples := l |}.

End Scenario.

(** Events that count a chunk as folded in. *)
Definition is_fold (e : event) : bool :=
  match e with EvFold => true | _ => false end.

(** The number of chunks that a run folded into the running averages. *)
Definition chunks_folded (w : world) : nat := length (filter is_fold (trace w)).

(** Both projections are requested. *)
Definition both_flags (c : SHCConfig) : bool := (in_plane c && out_of_plane c)%bool.

(** Events that stand for spectral values: computed, or folded in. *)
Definition is_spectral (e : event) : bool :=
  match e with EvSHC | EvFold => true | _ => false end.

(** A step keeps the relation [P] between the world before and after it,
    whether it returns or raises. *)
Definition framed (P : world -> world -> Prop) {A : Type} (m : M A) : Prop :=
  forall w, P w (fst (m w)).

(** The configuration is kept, and the force constants are either kept or
    replaced by their projection. *)
Definition Kframe (w w' : world) : Prop :=
  cfg (self w') = cfg (self w) /\
  (Kij (self w') = Kij (self w) \/
   Kij (self w') = proj (cfg (self w)) 0 (Kij (self w))).

(** The configuration is kept and the trace only grows; when both
    projections are requested it grows by no spectral event. *)
Definition quiet (w w' : world) : Prop :=
  cfg (self w') = cfg (self w) /\
  exists l, trace w' = trace w ++ l /\
            (both_flags (cfg (self w)) = true ->
             Forall (fun e => is_spectral e = false) l).

(** The iterations of the loop seen from the running averages: the curves
    [cs] (smoothed, raw) of successive chunks are folded in at the counts
    [k], [k+1], ... *)
Fixpoint fold_chunks (k : nat) (cs : list (list R * list R)) : M unit :=
  match cs with
  | [] => ret tt
  | c :: cs' => fold_chunk k (fst c) (snd c) ;; fold_chunks (S k) cs'
  end.

(** The running mean after the curves [xs], from the mean [m] at count [k]. *)
Fixpoint iter_mean (k : nat) (m : list R) (xs : list (list R)) : list R :=
  match xs with
  | [] => m
  | x :: xs' => iter_mean (S k) (mean_step k m x) xs'
  end.

(** The curves (smoothed, raw) of the [j] full chunks that [run_full] goes
    through. *)
Fixpoint run_curves (NDOF j k : nat) (w : world) : list (list R * list R) :=
  match j with
  | O => []
  | S j' =>
      let va := firstn (chunkSize (self w) * NDOF) (fid w) in
      (chunk_smooth (self w) va NDOF, chunk_raw (self w) va NDOF)
        :: run_curves NDOF j' (S k) (step_full NDOF k w)
  end.

(** The mean computed directly: bin [i] is the sum of the bins [i] of the
    curves, divided by their number. *)
Definition batch_mean (n : nat) (xs : list (list R)) : list R :=
  map (fun i => Rsum (map (fun x => nth i x 0) xs) / INR (length xs)) (seq 0 n).

(** Two chunks on a grid of two bins. *)
Definition two_bin_world : world :=
  {| self := set_SHC_average (np.zeros 2)
               (set_SHC_smooth2 (np.zeros 2)
                  (set_SHC_smooth (np.zeros 2) (Scenario.obj 2)));
     fid := []; trace := [] |}.

(** A single left atom and a single right atom, chunks of four time steps,
    a window of three samples; the chunk holds a unit pulse of the left
    atom's x velocity at time 0 and one of the right atom's at time 1. *)
Definition small_config : SHCConfig :=
  {| dt_md := 1; sampleTimestep := 1; scaleFactor := 1; widthWin := 1 / 2;
     in_plane := false; out_of_plane := false;
     ids_L := [0]%nat; ids_R := [1]%nat; NL := 1; NR := 1;
     inds_interface := [0; 1]%Z |}.

Definition small_K : rmatrix := [[1; 0; 0]; [0; 0; 0]; [0; 0; 0]].

Definition small_obj : SHCPostProc :=
  {| cfg := small_config; NChunks := 1; chunkSize := 4; Kij := small_K;
     velsL := []; velsR := []; SHC_smooth := []; SHC_smooth2 := []; SHC_average := [];
     SHC_error := None; oms_fft := [] |}.

Definition small_chunk : list R := upd 9 1 (upd 0 1 (repeat 0 24)).

Definition small_file : velfile :=
  {| hdr_Natoms := 2; hdr_stride := 1; hdr_ids := [1; 2]%Z; samples := small_chunk |}.

(** ** Decisions and rounding

    The program takes a few decisions on computed floats: the number of
    kernel samples ([np.ceil] of [widthWin / df]), the chunk size ([int] of
    a quotient), and two comparisons of products.  Double arithmetic
    reaches each of these values in at most six operations, each exact up
    to a relative error of [2^-53].  A value on which the decision is the
    same all over the relative margin [2^-40] around it is decided by
    doubles as it is by the reals, and the statements whose conclusion is
    such a decision, or rests on one, take this as a hypothesis. *)

Definition margin : R := / 1099511627776.

Definition ceil_stable (r : R) : Prop :=
  Zceil (r * (1 - margin)) = Zceil (r * (1 + margin)).

(** The number of kernel samples for the grid spacing [df] and the width
    [widthWin] does not depend on rounding. *)
Definition window_stable (df widthWin : R) : Prop := ceil_stable (widthWin / df).

(** [a] and [b] are further apart than rounding can bring them together. *)
Definition apart (a b : R) : Prop := margin * Rabs b < Rabs (a - b).

(** Integers of numpy wrap around, at 32 or at 64 bits according to the
    array they come from.  No entry of [l] wraps when one is added to it. *)
Definition no_wrap (l : list Z) : Prop :=
  Forall (fun a => (- 2 ^ 31 <= a < 2 ^ 31 - 1)%Z) l.

(** No row index [3 * i + c] of lines 390-398 wraps. *)
Definition rows_no_wrap (ids : list nat) : Prop :=
  Forall (fun i => (Z.of_nat i < 2 ^ 29)%Z) ids.
(** ** Projections, exchanged sides *)

(** The rows that [_differ_direction] zeroes when exactly one projection is
    requested: the z rows in plane, the x and y rows out of plane. *)
Definition dropped (c : SHCConfig) (a : nat) : bool :=
  if in_plane c then (a mod 3 =? 2)%nat else negb (a mod 3 =? 2)%nat.

(** The same configuration with the two projection flags replaced. *)
Definition set_flags (ip op : bool) (c : SHCConfig) : SHCConfig :=
  {| dt_md := dt_md c; sampleTimestep := sampleTimestep c; scaleFactor := scaleFactor c;
     widthWin := widthWin c; in_plane := ip; out_of_plane := op;
     ids_L := ids_L c; ids_R := ids_R c; NL := NL c; NR := NR c;
     inds_interface := inds_interface c |}.

Definition with_flags (ip op : bool) (w : world) : world :=
  {| self := {| cfg := set_flags ip op (cfg (self w)); NChunks := NChunks (self w);
                chunkSize := chunkSize (self w); Kij := Kij (self w);
                velsL := velsL (self w); velsR := velsR (self w);
                SHC_smooth := SHC_smooth (self w); SHC_smooth2 := SHC_smooth2 (self w);
                SHC_average := SHC_average (self w); SHC_error := SHC_error (self w);
                oms_fft := oms_fft (self w) |};
     fid := fid w; trace := trace w |}.

(** The force constants couple no in-plane coordinate (x, y) with an
    out-of-plane one (z). *)
Definition no_cross_coupling (K : rmatrix) : Prop :=
  forall a b, (a mod 3 =? 2)%nat <> (b mod 3 =? 2)%nat -> nth b (nth a K []) 0 = 0.

(** The transpose of a matrix of [ncols] columns, and the object with the
    two sides exchanged: the velocity matrices swapped and the force
    constants transposed. *)
Definition transpose (ncols : nat) (K : rmatrix) : rmatrix :=
  map (fun b => map (fun row => nth b row 0) K) (seq 0 ncols).

Definition swap_sides (s : SHCPostProc) : SHCPostProc :=
  set_velsR (velsL s)
    (set_velsL (velsR s) (set_Kij (transpose (length (velsR s)) (Kij s)) s)).



(** An object of four atoms whose left side names the atom 7. *)
Definition stray_object : SHCPostProc :=
  {| cfg := {| dt_md := 1; sampleTimestep := 1; scaleFactor := 1; widthWin := 1 / 16;
               in_plane := false; out_of_plane := false;
               ids_L := [0; 7]%nat; ids_R := [2; 3]%nat; NL := 2; NR := 2;
               inds_interface := [0; 1; 2; 3]%Z |};
     NChunks := 1; chunkSize := 8; Kij := Scenario.identity 6;
     velsL := []; velsR := []; SHC_smooth := []; SHC_smooth2 := []; SHC_average := [];
     SHC_error := None; oms_fft := [] |}.

(** ** The constructor: [SHCPostProc.__init__], [_loadFC], [_compactVels]

    The constructor looks at files, loads arrays and starts external
    programs.  The files are modelled by the paths that name a file and by
    the arrays that the [.npy] files hold; the program [compactify_vels] and
    the force constant calculator behind [_calcFC] (the module
    [force_calculate], which is not part of this file) by arbitrary
    functions of the model's parameter [programs].  Values have the types
    that the class docstring gives them: numbers are reals (with true
    division, integers and floats behave alike), [NChunks] is an integer,
    file names are strings or [None], and an existing [.npy] file holds an
    array of the kind that [_loadFC] expects of it.  A list of the external
    actions records what a call has done. *)

Module Init.

(** The exceptions of [postProcess], and the two that [np.load] on a
    missing file and the start of a program add. *)
Inductive error : Set :=
| Builtin (e : exn)
| FileNotFoundError
| OSError.

Inductive result (A : Type) : Type :=
| Done (a : A)
| Fail (e : error).
Arguments Done {A} a.
Arguments Fail {A} e.

(** A two-dimensional array as a [.npy] file stores it: [np.size(a, 0)],
    [np.size(a, 1)] and the rows. *)
Record ndarray2 : Type := { size0 : nat; size1 : nat; rows : rmatrix }.

Record filesystem : Type := {
  isfile : string -> bool;              (* os.path.isfile *)
  matrix_at : string -> ndarray2;       (* the content of a file of force constants *)
  indices_at : string -> list nat;      (* the content of a file of side indices *)
  integers_at : string -> list Z        (* the content of a file of interface indices *)
}.

(** What [_loadFC] and [_calcFC] assign. *)
Record forces : Type := {
  Kij : ndarray2;
  ids_L : list nat;
  ids_R : list nat;
  NL : nat;
  NR : nat;
  inds_interface : list Z
}.

(** The attributes that lines 82-102 assign and that keywords may replace. *)
Record attrs : Type := {
  compactVelocityFile : string;
  KijFilePrefix : string;
  dt_md : R;
  dn : R;
  steps : R;
  NChunks : Z;
  scaleFactor : R;
  LAMMPSDumpFile : option string;
  LAMMPSInFile : option string;
  widthWin : R;
  hstep : R;
  reCalcVels : bool;
  reCalcFC : bool;
  backupPrefix : option string;
  in_plane : bool;
  out_of_plane : bool
}.

(** The object that the constructor returns: the attributes above, the two
    that lines 130 and 137 derive, and the force constants. *)
Record instance : Type := {
  base : attrs;
  chunkSize : Z;
  sampleTimestep : R;
  fc : forces
}.

(** The external programs.  [compactify_vels src dst] changes the files in
    some way, or cannot be started ([None]); its exit status is not looked
    at.  [fcCalc prefix infile hstep] stands for the whole of [_calcFC]. *)
Record programs : Type := {
  compactify_vels : string -> string -> filesystem -> option filesystem;
  fcCalc : string -> string -> R -> filesystem -> filesystem * result forces
}.

Inductive action : Set :=
| RunCompactify (src dst : string)
| RunFcCalc (prefix infile : string)
| LoadNpy (path : string).

Definition is_compactify (a : action) : bool :=
  match a with RunCompactify _ _ => true | _ => false end.

Record sys : Type := { files : filesystem; actions : list action }.

Definition IM (A : Type) : Type := sys -> sys * result A.

Definition iret {A : Type} (a : A) : IM A := fun y => (y, Done a).
Definition ibind {A B : Type} (m : IM A) (k : A -> IM B) : IM B :=
  fun y => match m y with
           | (y', Done a) => k a y'
           | (y', Fail e) => (y', Fail e)
           end.
Definition raise {A : Type} (e : error) : IM A := fun y => (y, Fail e).
Definition ilift {A : Type} (r : result A) : IM A := fun y => (y, r).
Definition get_files : IM filesystem := fun y => (y, Done (files y)).

Declare Scope init_scope.
Delimit Scope init_scope with init.
Notation "x <- m ;; k" := (ibind m (fun x => k))
  (at level 61, m at next level, right associativity) : init_scope.
Notation "m ;; k" := (ibind m (fun _ => k))
  (at level 61, right associativity) : init_scope.
Local Open Scope init_scope.

(** [np.load(path)]: the array of the file, [FileNotFoundError] when there
    is none. *)
Definition np_load {A : Type} (content : filesystem -> string -> A) (path : string) : IM A :=
  fun y => ({| files := files y; actions := actions y ++ [LoadNpy path] |},
            if isfile (files y) path then Done (content (files y) path) else Fail FileNotFoundError).

(** The names that [hasattr] finds on the object while the keywords are
    applied: the attributes assigned in lines 82-119, the methods, and the
    special names that the class defines or that every instance has from
    [object] (the names of the versions of Python up to 3.13, taken
    together: [__getstate__] came with 3.11, the last two with 3.13). *)
Definition instance_attributes : list string :=
  ["compactVelocityFile"; "KijFilePrefix"; "dt_md"; "dn"; "steps"; "NChunks";
   "scaleFactor"; "LAMMPSDumpFile"; "LAMMPSInFile"; "widthWin"; "hstep";
   "reCalcVels"; "reCalcFC"; "backupPrefix"; "in_plane"; "out_of_plane";
   "Kij"; "ids_L"; "ids_R"; "NL"; "NR"; "inds_interface"; "velsL"; "velsR";
   "SHC_smooth"; "SHC_smooth2"; "SHC_average"; "SHC_error"; "oms_fft"]%string.

Definition methods : list string :=
  ["_tic"; "_toc"; "_calcFC"; "_loadFC"; "_compactVels"; "_smoothen";
   "_differ_direction"; "postProcess"]%string.

Definition special_names : list string :=
  ["__class__"; "__delattr__"; "__dict__"; "__dir__"; "__doc__"; "__enter__"; "__eq__";
   "__exit__"; "__format__"; "__ge__"; "__getattribute__"; "__getstate__"; "__gt__";
   "__hash__"; "__init__"; "__init_subclass__"; "__le__"; "__lt__"; "__module__";
   "__ne__"; "__new__"; "__reduce__"; "__reduce_ex__"; "__repr__"; "__setattr__";
   "__sizeof__"; "__str__"; "__subclasshook__"; "__weakref__"; "__firstlineno__";
   "__static_attributes__"]%string.

Definition hasattr (key : string) : bool :=
  existsb (String.eqb key) (instance_attributes ++ methods ++ special_names).

(** The constructor's own parameters: a call binds a keyword of such a name
    to the parameter and never passes it on in [args]. *)
Definition parameters : list string :=
  ["self"; "Compact_VelocityFile"; "Kij_FilePrefix"; "in_plane"; "out_of_plane";
   "reCalcVels"; "reCalcFC"]%string.

(** A keyword argument.  The keywords that the constructor reads back carry
    a value of their type; any other keyword is one that the object has no
    attribute for and that is no parameter (a keyword that names one of the
    remaining attributes, a method or a special name is outside the
    model). *)
Inductive kwarg : Type :=
| kw_compactVelocityFile (v : string)
| kw_KijFilePrefix (v : string)
| kw_dt_md (v : R)
| kw_dn (v : R)
| kw_steps (v : R)
| kw_NChunks (v : Z)
| kw_scaleFactor (v : R)
| kw_LAMMPSDumpFile (v : option string)
| kw_LAMMPSInFile (v : option string)
| kw_widthWin (v : R)
| kw_hstep (v : R)
| kw_backupPrefix (v : option string)
| kw_other (key : string) (absent : hasattr key = false)
           (free : existsb (String.eqb key) parameters = false).

Definition key (kw : kwarg) : string :=
  match kw with
  | kw_compactVelocityFile _ => "compactVelocityFile"
  | kw_KijFilePrefix _ => "KijFilePrefix"
  | kw_dt_md _ => "dt_md"
  | kw_dn _ => "dn"
  | kw_steps _ => "steps"
  | kw_NChunks _ => "NChunks"
  | kw_scaleFactor _ => "scaleFactor"
  | kw_LAMMPSDumpFile _ => "LAMMPSDumpFile"
  | kw_LAMMPSInFile _ => "LAMMPSInFile"
  | kw_widthWin _ => "widthWin"
  | kw_hstep _ => "hstep"
  | kw_backupPrefix _ => "backupPrefix"
  | kw_other k _ _ => k
  end%string.

(** [setattr(self, key, value)]. *)
Definition setattr (kw : kwarg) (a : attrs) : attrs :=
  let upd (cvf kfp : string) (dt n st : R) (N : Z) (sf : R) (dump inf : option string)
          (ww hs : R) (bp : option string) :=
    {| compactVelocityFile := cvf; KijFilePrefix := kfp; dt_md := dt; dn := n; steps := st;
       NChunks := N; scaleFactor := sf; LAMMPSDumpFile := dump; LAMMPSInFile := inf;
       widthWin := ww; hstep := hs; reCalcVels := reCalcVels a; reCalcFC := reCalcFC a;
       backupPrefix := bp; in_plane := in_plane a; out_of_plane := out_of_plane a |} in
  let cvf := compactVelocityFile a in
  let kfp := KijFilePrefix a in
  let dt := dt_md a in
  let n := dn a in
  let st := steps a in
  let N := NChunks a in
  let sf := scaleFactor a in
  let dump := LAMMPSDumpFile a in
  let inf := LAMMPSInFile a in
  let ww := widthWin a in
  let hs := hstep a in
  let bp := backupPrefix a in
  match kw with
  | kw_compactVelocityFile v => upd v kfp dt n st N sf dump inf ww hs bp
  | kw_KijFilePrefix v => upd cvf v dt n st N sf dump inf ww hs bp
  | kw_dt_md v => upd cvf kfp v n st N sf dump inf ww hs bp
  | kw_dn v => upd cvf kfp dt v st N sf dump inf ww hs bp
  | kw_steps v => upd cvf kfp dt n v N sf dump inf ww hs bp
  | kw_NChunks v => upd cvf kfp dt n st v sf dump inf ww hs bp
  | kw_scaleFactor v => upd cvf kfp dt n st N v dump inf ww hs bp
  | kw_LAMMPSDumpFile v => upd cvf kfp dt n st N sf v inf ww hs bp
  | kw_LAMMPSInFile v => upd cvf kfp dt n st N sf dump v ww hs bp
  | kw_widthWin v => upd cvf kfp dt n st N sf dump inf v hs bp
  | kw_hstep v => upd cvf kfp dt n st N sf dump inf ww v bp
  | kw_backupPrefix v => upd cvf kfp dt n st N sf dump inf ww hs v
  | kw_other _ _ _ => a
  end.

(** Lines 121-125: the loop over the keywords. *)
Fixpoint apply_keywords (args : list kwarg) (a : attrs) : result attrs :=
  match args with
  | [] => Done a
  | kw :: args' =>
      if negb (hasattr (key kw)) then Fail (Builtin AttributeError)
      else apply_keywords args' (setattr kw a)
  end.

(** Lines 82-102: the attributes before the keywords are applied. *)
Definition defaults (Compact_VelocityFile Kij_FilePrefix : string)
           (in_plane out_of_plane reCalcVels reCalcFC : bool) : attrs :=
  {| compactVelocityFile := Compact_VelocityFile; KijFilePrefix := Kij_FilePrefix;
     dt_md := 1.0; dn := 10; steps := 500000; NChunks := 20; scaleFactor := 1.0;
     LAMMPSDumpFile := None; LAMMPSInFile := None; widthWin := 1.0; hstep := 0.01;
     reCalcVels := reCalcVels; reCalcFC := reCalcFC; backupPrefix := None;
     in_plane := in_plane; out_of_plane := out_of_plane |}.

(** Python's true division and [int()], which truncates toward zero. *)
Definition truediv (x y : R) : result R :=
  if Req_dec_T y 0 then Fail (Builtin ZeroDivisionError) else Done (x / y).

Definition int (x : R) : Z := if Rle_dec 0 x then Zfloor x else Zceil x.

(** [_compactVels] (lines 240-245). *)
Definition _compactVels (X : programs) (file_Vels finalFile_Vels : string) : IM unit :=
  fun y =>
    let acts := actions y ++ [RunCompactify file_Vels finalFile_Vels] in
    match compactify_vels X file_Vels finalFile_Vels (files y) with
    | Some fs => ({| files := fs; actions := acts |}, Done tt)
    | None => ({| files := files y; actions := acts |}, Fail OSError)
    end.

(** [_calcFC] (lines 196-215), as the external calculator leaves it. *)
Definition _calcFC (X : programs) (fileprefix LAMMPSInFile : string) (hstep : R) : IM forces :=
  fun y =>
    let (fs, r) := fcCalc X fileprefix LAMMPSInFile hstep (files y) in
    ({| files := fs; actions := actions y ++ [RunFcCalc fileprefix LAMMPSInFile] |}, r).

(** [_loadFC] (lines 218-238). *)
Definition _loadFC (KijFilePrefix : string) : IM forces :=
  K <- np_load matrix_at (KijFilePrefix ++ ".Kij.npy") ;;
  idsL <- np_load indices_at (KijFilePrefix ++ ".ids_L.npy") ;;
  idsR <- np_load indices_at (KijFilePrefix ++ ".ids_R.npy") ;;
  let nl := length idsL in
  let nr := length idsR in
  if Req_dec_T (INR (size0 K) / 3) (INR nl) then
    if Req_dec_T (INR (size1 K) / 3) (INR nr) then
      inds <- np_load integers_at (KijFilePrefix ++ ".ids_Interface.npy") ;;
      iret {| Kij := K; ids_L := idsL; ids_R := idsR; NL := nl; NR := nr;
              inds_interface := inds |}
    else raise (Builtin ValueError)
  else raise (Builtin ValueError).

(** Lines 143-153: the compact velocity file is made from the dump file
    when it is asked for or missing. *)
Definition check_velocities (X : programs) (self : attrs) : IM unit :=
  fs <- get_files ;;
  if (reCalcVels self || negb (isfile fs (compactVelocityFile self)))%bool then
    match LAMMPSDumpFile self with
    | None => raise (Builtin ValueError)
    | Some dump =>
        if negb (isfile fs dump) then raise (Builtin ValueError)
        else _compactVels X dump (compactVelocityFile self)
    end
  else iret tt.

(** Lines 156-162: the force constants are calculated when it is asked for
    or when their file is missing, and loaded otherwise. *)
Definition check_forces (X : programs) (self : attrs) : IM forces :=
  fs <- get_files ;;
  if (reCalcFC self || negb (isfile fs (KijFilePrefix self ++ ".Kij.npy")))%bool then
    match LAMMPSInFile self with
    | None => raise (Builtin ValueError)
    | Some inf => _calcFC X (KijFilePrefix self) inf (hstep self)
    end
  else _loadFC (KijFilePrefix self).

(** [__init__] (lines 77-162). *)
Definition __init__ (X : programs) (Compact_VelocityFile Kij_FilePrefix : string)
           (in_plane out_of_plane reCalcVels reCalcFC : bool) (args : list kwarg)
  : IM instance :=
  self <- ilift (apply_keywords args
                   (defaults Compact_VelocityFile Kij_FilePrefix
                      in_plane out_of_plane reCalcVels reCalcFC)) ;;
  q <- ilift (truediv (steps self) (dn self)) ;;
  q <- ilift (truediv q (IZR (NChunks self))) ;;
  let chunkSize := int q in
  let sampleTimestep := dt_md self * dn self in
  check_velocities X self ;;
  forces <- check_forces X self ;;
  iret {| base := self; chunkSize := chunkSize; sampleTimestep := sampleTimestep;
          fc := forces |}.

End Init.

(** [int(steps / dn / NChunks)] does not depend on rounding: [NChunks] is
    an integer that a double can take, and either [steps] is below [2^53]
    and both divisions come out as whole numbers, which doubles hold
    exactly, or the quotient truncates to the same integer all over the
    margin around it. *)
Definition chunk_size_stable (steps dn : R) (NChunks : Z) : Prop :=
  (Z.abs NChunks < 2 ^ 63)%Z /\
  ((exists a b : Z,
       steps = IZR a * dn /\ a = (b * NChunks)%Z /\ (Z.abs a < 2 ^ 53)%Z /\
       Rabs steps < 9007199254740992)
   \/ Init.int (steps / dn / IZR NChunks * (1 - margin))
      = Init.int (steps / dn / IZR NChunks * (1 + margin))).

(** The object as [postProcess] takes it from the constructor, for a chunk
    size that is not negative.  The backup prefix is not kept: the model of
    [postProcess] is that of a run without backup. *)
Definition object_of (i : Init.instance) : SHCPostProc :=
  {| cfg := {| dt_md := Init.dt_md (Init.base i);
               sampleTimestep := Init.sampleTimestep i;
               scaleFactor := Init.scaleFactor (Init.base i);
               widthWin := Init.widthWin (Init.base i);
               in_plane := Init.in_plane (Init.base i);
               out_of_plane := Init.out_of_plane (Init.base i);
               ids_L := Init.ids_L (Init.fc i);
               ids_R := Init.ids_R (Init.fc i);
               NL := Init.NL (Init.fc i);
               NR := Init.NR (Init.fc i);
               inds_interface := Init.inds_interface (Init.fc i) |};
     NChunks := Init.NChunks (Init.base i);
     chunkSize := Z.to_nat (Init.chunkSize i);
     Kij := Init.rows (Init.Kij (Init.fc i));
     velsL := []; velsR := []; SHC_smooth := []; SHC_smooth2 := []; SHC_average := [];
     SHC_error := None; oms_fft := [] |}.

(** A directory that holds a dump file, the compact velocity file and the
    four array files of the scenario above, with programs that cannot be
    started. *)
Definition demo_files : Init.filesystem :=
  {| Init.isfile := fun p =>
       existsb (String.eqb p)
         ["vels.dat"; "vels.compact.dat"; "Fij.dat.Kij.npy"; "Fij.dat.ids_L.npy"; "Fij.dat.ids_R.npy";
          "Fij.dat.ids_Interface.npy"]%string;
     Init.matrix_at := fun _ =>
       {| Init.size0 := 6; Init.size1 := 6; Init.rows := Scenario.identity 6 |};
     Init.indices_at := fun p =>
       if String.eqb p "Fij.dat.ids_L.npy" then [0; 1]%nat else [2; 3]%nat;
     Init.integers_at := fun _ => [0; 1; 2; 3]%Z |}.

Definition demo_programs : Init.programs :=
  {| Init.compactify_vels := fun _ _ _ => None;
     Init.fcCalc := fun _ _ _ fs => (fs, Init.Fail Init.OSError) |}.

Definition demo_sys : Init.sys := {| Init.files := demo_files; Init.actions := [] |}.

(** What [_loadFC] takes from that directory, and the directory after the
    four loads. *)
Definition demo_forces : Init.forces :=
  {| Init.Kij := {| Init.size0 := 6; Init.size1 := 6; Init.rows := Scenario.identity 6 |};
     Init.ids_L := [0; 1]%nat; Init.ids_R := [2; 3]%nat; Init.NL := 2; Init.NR := 2;
     Init.inds_interface := [0; 1; 2; 3]%Z |}.

Definition demo_loaded : Init.sys :=
  {| Init.files := demo_files;
     Init.actions := [Init.LoadNpy "Fij.dat.Kij.npy"; Init.LoadNpy "Fij.dat.ids_L.npy";
                      Init.LoadNpy "Fij.dat.ids_R.npy";
                      Init.LoadNpy "Fij.dat.ids_Interface.npy"] |}.

(** A [compactify_vels] that starts and leaves the files as they are. *)
Definition idle_programs : Init.programs :=
  {| Init.compactify_vels := fun _ _ fs => Some fs;
     Init.fcCalc := fun _ _ _ fs => (fs, Init.Fail Init.OSError) |}.

(** The attributes of a call on that directory with no projection and no
    recalculation, the instance that the constructor then returns, and a
    velocity file of four atoms dumped every ten steps. *)
Definition demo_attrs (args : list Init.kwarg) : Init.attrs :=
  fold_left (fun a kw => Init.setattr kw a) args
    (Init.defaults "vels.compact.dat" "Fij.dat" false false false false).

Definition demo_instance (args : list Init.kwarg) : Init.instance :=
  let self := demo_attrs args in
  {| Init.base := self;
     Init.chunkSize :=
       Init.int (Init.steps self / Init.dn self / IZR (Init.NChunks self));
     Init.sampleTimestep := Init.dt_md self * Init.dn self;
     Init.fc := demo_forces |}.

Definition demo_file (l : list R) : velfile :=
  {| hdr_Natoms := 4; hdr_stride := 10; hdr_ids := [1; 2; 3; 4]%Z; samples := l |}.

(** ** The script at the end of the file (lines 470-563)

    The numerical part: the change of units and the accumulated
    conductance.  Plotting and the text files are not part of the model. *)

Module script.

Definition area : R := 62.119 * 3.35.
Definition Tem_jump : R := 19.3.

(** Lines 508 and 512. *)
Definition x_Frequency (oms_fft : list R) : list R :=
  map (fun w => w / (2 * PI * 1.0e12)) oms_fft.

Definition y_ITC (SHC_smooth : list R) : list R :=
  map (fun v => v / (1.0e-12 * area * 1.0e-20 * Tem_jump * 1.0e9)) SHC_smooth.

(** [np.diff(x)] is [x[1:] - x[:-1]], and [scipy.integrate.trapz(y, x)] is
    [(diff(x) * (y[1:] + y[:-1]) / 2.0).sum()]. *)
Definition diff (x : list R) : list R := map2 Rminus (tl x) x.

Definition trapz (y x : list R) : res R :=
  let? p := np.broadcast2 Rmult (diff x) (map2 Rplus (tl y) y) in
  Ok (Rsum (map (fun v => v / 2) p)).

(** Lines 518-524: the loop over the frequencies; [y[0:i]] is [firstn i y]. *)
Fixpoint accumulate (y x : list R) (indices : list nat)
         (accumulated_ITC : list R) (accumulated_count : R) : res (list R * R) :=
  match indices with
  | [] => Ok (accumulated_ITC, accumulated_count)
  | i :: indices' =>
      let? accumulated_count := trapz (firstn i y) (firstn i x) in
      accumulate y x indices' (accumulated_ITC ++ [accumulated_count]) accumulated_count
  end.

Definition accumulated (y x : list R) : res (list R * R) :=
  accumulate y x (seq 0 (length x)) [] 0.

End script.

(** The area of the first [k] trapezoids under the points [(x[j], y[j])]. *)
Definition trapezoids (y x : list R) (k : nat) : R :=
  Rsum (map (fun j => (nth (S j) x 0 - nth j x 0) * (nth (S j) y 0 + nth j y 0) / 2)
            (seq 0 k)).

(** * Properties *)

(** ** Arrays *)

Lemma mapi_from_length {A B : Type} (f : nat -> A -> B) (l : list A) (i : nat) :
  length (mapi_from i f l) = length l.
Proof.
  revert i; induction l as [|x l IH]; intros i; simpl; [reflexivity|].
  now rewrite IH.
Qed.

Lemma mapi_length {A B : Type} (f : nat -> A -> B) (l : list A) :
  length (mapi f l) = length l.
Proof. apply mapi_from_length. Qed.

Lemma nth_error_mapi_from {A B : Type} (f : nat -> A -> B) (l : list A) (i n : nat) :
  nth_error (mapi_from i f l) n = option_map (f (i + n)%nat) (nth_error l n).
Proof.
  revert i n; induction l as [|x l IH]; intros i n.
  - destruct n; reflexivity.
  - destruct n as [|n]; simpl.
    + now rewrite Nat.add_0_r.
    + rewrite IH. now replace (S i + n)%nat with (i + S n)%nat by lia.
Qed.

Lemma nth_error_mapi {A B : Type} (f : nat -> A -> B) (l : list A) (n : nat) :
  nth_error (mapi f l) n = option_map (f n) (nth_error l n).
Proof. unfold mapi. now rewrite nth_error_mapi_from. Qed.

Lemma nth_mapi {A B : Type} (f : nat -> A -> B) (l : list A) (n : nat) (d : B) (d' : A) :
  (n < length l)%nat -> nth n (mapi f l) d = f n (nth n l d').
Proof.
  intros Hn. apply nth_error_nth.
  rewrite nth_error_mapi, (nth_error_nth' l d' Hn). reflexivity.
Qed.

Lemma mapi_from_ext {A B : Type} (f g : nat -> A -> B) (l : list A) (i : nat) :
  (forall n x, f n x = g n x) -> mapi_from i f l = mapi_from i g l.
Proof.
  intros E. revert i; induction l as [|x l IH]; intros i; simpl; [reflexivity|].
  now rewrite E, IH.
Qed.

Lemma upd_length {A : Type} (i : nat) (v : A) (l : list A) :
  length (upd i v l) = length l.
Proof.
  revert i; induction l as [|x l IH]; intros [|i]; simpl; try reflexivity.
  now rewrite IH.
Qed.

Lemma nth_upd_same {A : Type} (i : nat) (v d : A) (l : list A) :
  (i < length l)%nat -> nth i (upd i v l) d = v.
Proof.
  revert i; induction l as [|x l IH]; intros [|i] H; simpl in *; try lia; try reflexivity.
  apply IH; lia.
Qed.

Lemma nth_upd_other {A : Type} (i j : nat) (v d : A) (l : list A) :
  i <> j -> nth j (upd i v l) d = nth j l d.
Proof.
  revert i j; induction l as [|x l IH]; intros [|i] [|j] H; simpl; try reflexivity; try lia.
  apply IH; lia.
Qed.

Lemma map2_length {A B D : Type} (f : A -> B -> D) (a : list A) (b : list B) :
  length (map2 f a b) = Nat.min (length a) (length b).
Proof.
  revert b; induction a as [|x a IH]; intros [|y b]; simpl; try reflexivity.
  now rewrite IH.
Qed.

Lemma nth_map2 {A B D : Type} (f : A -> B -> D) (a : list A) (b : list B)
      (n : nat) (d : D) (da : A) (db : B) :
  (n < length a)%nat -> (n < length b)%nat ->
  nth n (map2 f a b) d = f (nth n a da) (nth n b db).
Proof.
  revert b n; induction a as [|x a IH]; intros [|y b] [|n] Ha Hb; simpl in *; try lia;
    try reflexivity.
  apply IH; lia.
Qed.

Lemma nth_repeat_lt {A : Type} (x d : A) (n i : nat) :
  (i < n)%nat -> nth i (repeat x n) d = x.
Proof.
  revert i; induction n as [|n IH]; intros [|i] H; simpl; try lia; try reflexivity.
  apply IH; lia.
Qed.

Lemma nth_map_lt {A B : Type} (f : A -> B) (l : list A) (i : nat) (d : B) (d' : A) :
  (i < length l)%nat -> nth i (map f l) d = f (nth i l d').
Proof.
  intros Hi. rewrite (nth_indep _ d (f d')) by now rewrite length_map.
  apply map_nth.
Qed.

Lemma forallb_length_eq {A : Type} (l : list (list A)) (n : nat) :
  Forall (fun r => length r = n) l ->
  forallb (fun r => (length r =? n)%nat) l = true.
Proof.
  induction 1 as [|r l Hr _ IH]; simpl; [reflexivity|].
  now rewrite IH, (proj2 (Nat.eqb_eq _ _) Hr).
Qed.

(** ** The frequency grid *)

Lemma freq_grid_ok (n : nat) (d : R) :
  INR n * d <> 0 -> freq_grid n d = Ok (grid n d).
Proof.
  intros H. unfold freq_grid, np.rfftfreq.
  destruct (Req_dec_T (INR n * d) 0) as [E|_]; [contradiction|reflexivity].
Qed.

Lemma freq_grid_zero (n : nat) (d : R) :
  INR n * d = 0 -> freq_grid n d = Raise ZeroDivisionError.
Proof.
  intros H. unfold freq_grid, np.rfftfreq.
  destruct (Req_dec_T (INR n * d) 0) as [_|N]; [reflexivity|contradiction].
Qed.

Lemma grid_length (n : nat) (d : R) : length (grid n d) = (n / 2 + 1)%nat.
Proof. unfold grid. now rewrite !length_map, length_seq. Qed.

Lemma nth_grid (n : nat) (d : R) (i : nat) :
  (i < n / 2 + 1)%nat -> nth i (grid n d) 0 = INR i * (1 / (INR n * d)) * 2 * PI.
Proof.
  intros Hi. unfold grid. rewrite map_map.
  rewrite (nth_map_lt _ _ _ _ 0%nat) by now rewrite length_seq.
  rewrite seq_nth by assumption. reflexivity.
Qed.

Lemma half_ge_1 (n : nat) : (2 <= n)%nat -> (1 <= n / 2)%nat.
Proof.
  intros H. change 1%nat with (2 / 2)%nat. apply Nat.Div0.div_le_mono. exact H.
Qed.

Lemma grid_spacing_grid (n : nat) (d : R) :
  (2 <= n)%nat -> grid_spacing (grid n d) = Ok (1 / (INR n * d)).
Proof.
  intros Hn. pose proof (half_ge_1 n Hn) as Hh.
  unfold grid. destruct (n / 2)%nat as [|h] eqn:E; [lia|].
  replace (S h + 1)%nat with (S (S h)) by lia. cbn [seq map grid_spacing].
  f_equal. simpl INR. generalize (1 / (INR n * d)). intros x.
  pose proof PI_neq0. field. assumption.
Qed.

Lemma grid_spacing_short (oms : list R) :
  (length oms < 2)%nat -> grid_spacing oms = Raise IndexError.
Proof.
  destruct oms as [|a [|b l]]; simpl; intros; try reflexivity; lia.
Qed.

(** ** Reshape, transform and row selection *)

Lemma reshape_F_ok (a : list R) (rows cols : nat) :
  length a = (rows * cols)%nat ->
  np.reshape_F a rows cols =
  Ok (map (fun r => map (fun t => nth (r + rows * t) a 0) (seq 0 cols)) (seq 0 rows)).
Proof.
  intros H. unfold np.reshape_F. now rewrite (proj2 (Nat.eqb_eq _ _) H).
Qed.

Lemma reshape_F_mismatch (a : list R) (rows cols : nat) :
  length a <> (rows * cols)%nat -> np.reshape_F a rows cols = Raise ValueError.
Proof.
  intros H. unfold np.reshape_F. now rewrite (proj2 (Nat.eqb_neq _ _) H).
Qed.

Lemma rfft_ok (a : rmatrix) (L : nat) :
  (0 < L)%nat -> Forall (fun r => length r = L) a -> np.rfft a = Ok (map np.rfft_row a).
Proof.
  intros HL Ha. unfold np.rfft.
  replace (existsb _ a) with false; [reflexivity|].
  symmetry. induction Ha as [|r a Hr _ IH]; simpl; [reflexivity|].
  rewrite IH, orb_false_r. apply Nat.eqb_neq. lia.
Qed.

Lemma rfft_row_length (x : list R) : length (np.rfft_row x) = (length x / 2 + 1)%nat.
Proof. unfold np.rfft_row. now rewrite length_map, length_seq. Qed.

Lemma take_rows_ok {A : Type} (m : list (list A)) (idx : list nat) :
  Forall (fun i => (i < length m)%nat) idx ->
  np.take_rows m idx = Ok (map (fun i => nth i m []) idx).
Proof.
  induction 1 as [|i idx Hi _ IH]; simpl; [reflexivity|].
  rewrite (nth_error_nth' m [] Hi), IH. reflexivity.
Qed.

Lemma assign_stride3_ok {A : Type} (c : nat) (m rows : list (list A)) (ncols : nat) :
  length rows = np.stride3_count c (length m) ->
  Forall (fun r => length r = ncols) rows ->
  np.assign_stride3 c m rows ncols =
  Ok (mapi (fun a old => if (a mod 3 =? c)%nat then nth (a / 3) rows old else old) m).
Proof.
  intros Hl Hc. unfold np.assign_stride3.
  now rewrite (proj2 (Nat.eqb_eq _ _) Hl), (forallb_length_eq _ _ Hc).
Qed.

Lemma side_rows_length (velFFT : cmatrix) (ids : list nat) :
  length (side_rows velFFT ids) = (3 * length ids)%nat.
Proof. unfold side_rows. now rewrite length_map, length_seq. Qed.

Lemma stride3_count_3n (c n : nat) : (c < 3)%nat -> np.stride3_count c (3 * n) = n.
Proof.
  intros Hc. unfold np.stride3_count.
  replace (3 * n + 2 - c)%nat with (n * 3 + (2 - c))%nat by lia.
  rewrite Nat.div_add_l by lia. rewrite (Nat.div_small (2 - c) 3) by lia. lia.
Qed.

Lemma nth_map_ids {B : Type} (f : nat -> B) (ids : list nat) (j : nat) (d : B) :
  (j < length ids)%nat -> nth j (map f ids) d = f (nth j ids 0%nat).
Proof. apply nth_map_lt. Qed.

Lemma put_axis_length (c : nat) (velFFT : cmatrix) (ids : list nat) (vels : cmatrix) :
  length (put_axis c velFFT ids vels) = length vels.
Proof. apply mapi_length. Qed.

Lemma nth_put_axis (c : nat) (velFFT : cmatrix) (ids : list nat) (vels : cmatrix) (a : nat) :
  (a < length vels)%nat ->
  nth a (put_axis c velFFT ids vels) [] =
  if (a mod 3 =? c)%nat
  then nth (a / 3) (map (fun i => nth (3 * i + c) velFFT []) ids) (nth a vels [])
  else nth a vels [].
Proof.
  intros Ha. unfold put_axis. now rewrite (nth_mapi _ _ _ _ []) by exact Ha.
Qed.

Lemma assign_axis_ok (c : nat) (vels velFFT : cmatrix) (ids : list nat) (Nf : nat) :
  (c < 3)%nat -> length vels = (3 * length ids)%nat ->
  Forall (fun i => (3 * i + 2 < length velFFT)%nat) ids ->
  Forall (fun r => length r = Nf) velFFT ->
  assign_axis c vels velFFT ids Nf = Ok (put_axis c velFFT ids vels).
Proof.
  intros Hc Hv Hids Hrows. unfold assign_axis.
  rewrite take_rows_ok.
  2:{ apply Forall_map. eapply Forall_impl; [|exact Hids]. simpl. intros; lia. }
  cbn [rbind]. rewrite map_map. rewrite assign_stride3_ok; [reflexivity| |].
  - rewrite length_map, Hv. now rewrite stride3_count_3n by exact Hc.
  - apply Forall_map. eapply Forall_impl; [|exact Hids]. intros i Hi. simpl in Hi.
    rewrite Forall_forall in Hrows. apply Hrows, nth_In. lia.
Qed.

(** The three assignments on a zero matrix give the rows of the atoms in
    order, x, y, z for each. *)
Lemma three_axes (velFFT : cmatrix) (ids : list nat) (Nf : nat) :
  put_axis 2 velFFT ids
    (put_axis 1 velFFT ids (put_axis 0 velFFT ids (np.czeros (3 * length ids) Nf)))
  = side_rows velFFT ids.
Proof.
  apply (nth_ext _ _ [] []).
  - rewrite !put_axis_length, side_rows_length. unfold np.czeros. now rewrite repeat_length.
  - intros a Ha. rewrite !put_axis_length in Ha. unfold np.czeros in Ha.
    rewrite repeat_length in Ha.
    assert (Hq : (a / 3 < length ids)%nat) by (apply Nat.Div0.div_lt_upper_bound; lia).
    pose proof (Nat.mod_upper_bound a 3 ltac:(lia)) as Hm.
    rewrite !nth_put_axis
      by (rewrite ?put_axis_length; unfold np.czeros; now rewrite repeat_length).
    unfold side_rows.
    rewrite (nth_map_lt (fun a => nth (3 * nth (a / 3) ids 0%nat + a mod 3) velFFT [])
               (seq 0 (3 * length ids)) a [] 0%nat) by (rewrite length_seq; exact Ha).
    rewrite seq_nth by exact Ha. cbn [Nat.add].
    destruct (a mod 3 =? 2)%nat eqn:E2.
    { apply Nat.eqb_eq in E2. rewrite E2. now rewrite nth_map_ids. }
    destruct (a mod 3 =? 1)%nat eqn:E1.
    { apply Nat.eqb_eq in E1. rewrite E1. now rewrite nth_map_ids. }
    destruct (a mod 3 =? 0)%nat eqn:E0.
    { apply Nat.eqb_eq in E0. rewrite E0. now rewrite nth_map_ids. }
    apply Nat.eqb_neq in E0, E1, E2. lia.
Qed.

Lemma assign_velsL_ok (c : nat) (velFFT : cmatrix) (Nf : nat) (w : world) :
  (c < 3)%nat -> length (velsL (self w)) = (3 * length (ids_L (cfg (self w))))%nat ->
  Forall (fun i => (3 * i + 2 < length velFFT)%nat) (ids_L (cfg (self w))) ->
  Forall (fun r => length r = Nf) velFFT ->
  assign_velsL c velFFT Nf w =
  ({| self := set_velsL (put_axis c velFFT (ids_L (cfg (self w))) (velsL (self w))) (self w);
      fid := fid w; trace := trace w |}, Ok tt).
Proof.
  intros Hc Hv Hids Hrows. unfold assign_velsL, bind, get_self, lift, modify.
  now rewrite assign_axis_ok.
Qed.

Lemma assign_velsR_ok (c : nat) (velFFT : cmatrix) (Nf : nat) (w : world) :
  (c < 3)%nat -> length (velsR (self w)) = (3 * length (ids_R (cfg (self w))))%nat ->
  Forall (fun i => (3 * i + 2 < length velFFT)%nat) (ids_R (cfg (self w))) ->
  Forall (fun r => length r = Nf) velFFT ->
  assign_velsR c velFFT Nf w =
  ({| self := set_velsR (put_axis c velFFT (ids_R (cfg (self w))) (velsR (self w))) (self w);
      fid := fid w; trace := trace w |}, Ok tt).
Proof.
  intros Hc Hv Hids Hrows. unfold assign_velsR, bind, get_self, lift, modify.
  now rewrite assign_axis_ok.
Qed.

(** ** Shapes *)

Lemma shape_zero_stride3 {A : Type} (zero : A) (k : nat) (m : list (list A)) (r c : nat) :
  shape m r c -> shape (np.zero_stride3 zero k m) r c.
Proof.
  intros [Hr Hc]. split.
  - unfold np.zero_stride3. now rewrite mapi_length.
  - apply Forall_forall. intros row Hin.
    destruct (In_nth _ _ [] Hin) as [a [Ha Hrow]].
    unfold np.zero_stride3 in *. rewrite mapi_length in Ha.
    rewrite (nth_mapi _ _ _ _ []) in Hrow by exact Ha. subst row.
    rewrite Forall_forall in Hc.
    destruct (a mod 3 =? k)%nat; [rewrite length_map|]; apply Hc, nth_In, Ha.
Qed.

Lemma fft_rows_shape (velArray : list R) (NDOF L : nat) (dt : R) :
  shape (fft_rows velArray NDOF L dt) NDOF (L / 2 + 1).
Proof.
  unfold fft_rows. split.
  - now rewrite !length_map, length_seq.
  - rewrite !Forall_map. apply Forall_forall. intros r _.
    now rewrite length_map, rfft_row_length, length_map, length_seq.
Qed.

Lemma side_rows_shape (velFFT : cmatrix) (ids : list nat) (Nf : nat) :
  Forall (fun i => (3 * i + 2 < length velFFT)%nat) ids ->
  Forall (fun r => length r = Nf) velFFT ->
  shape (side_rows velFFT ids) (3 * length ids) Nf.
Proof.
  intros Hids Hrows. split; [apply side_rows_length|].
  unfold side_rows. apply Forall_map, Forall_forall. intros a Ha.
  apply in_seq in Ha. rewrite Forall_forall in Hrows. apply Hrows, nth_In.
  assert (Hq : (a / 3 < length ids)%nat) by (apply Nat.Div0.div_lt_upper_bound; lia).
  pose proof (Nat.mod_upper_bound a 3 ltac:(lia)) as Hm.
  rewrite Forall_forall in Hids.
  specialize (Hids (nth (a / 3) ids 0%nat) (nth_In _ _ Hq)). lia.
Qed.

(** ** Projection *)

Lemma shape_proj {A : Type} (c : SHCConfig) (zero : A) (m : list (list A)) (r k : nat) :
  shape m r k -> shape (proj c zero m) r k.
Proof.
  intros H. unfold proj.
  destruct (in_plane c && negb (out_of_plane c))%bool; [now apply shape_zero_stride3|].
  destruct (out_of_plane c && negb (in_plane c))%bool; [|exact H].
  now apply shape_zero_stride3, shape_zero_stride3.
Qed.

Lemma project_chunk_ok (w : world) :
  (in_plane (cfg (self w)) && out_of_plane (cfg (self w)))%bool = false ->
  project_chunk w = ({| self := projected (self w); fid := fid w; trace := trace w |}, Ok tt).
Proof.
  intros H. unfold project_chunk, bind, get_self, lift, modify, ret, _differ_direction,
              projected, proj.
  destruct (in_plane (cfg (self w))), (out_of_plane (cfg (self w))); simpl in *;
    try discriminate; reflexivity.
Qed.

Lemma project_chunk_both (w : world) :
  (in_plane (cfg (self w)) && out_of_plane (cfg (self w)))%bool = true ->
  project_chunk w = (w, Raise AttributeError).
Proof.
  intros H. unfold project_chunk, bind, get_self, lift, modify, ret, _differ_direction.
  destruct (in_plane (cfg (self w))), (out_of_plane (cfg (self w))); simpl in *;
    try discriminate; reflexivity.
Qed.

(** ** The transform of one chunk *)

Lemma transform_chunk_ok (w : world) (velArray : list R) (NDOF Nf : nat) :
  ids_ok (cfg (self w)) ->
  NDOF = (3 * (NL (cfg (self w)) + NR (cfg (self w))))%nat ->
  (0 < chunkSize (self w))%nat ->
  Nf = (chunkSize (self w) / 2 + 1)%nat ->
  length velArray = (NDOF * chunkSize (self w))%nat ->
  transform_chunk velArray NDOF Nf w =
  ({| self := transformed (self w) velArray NDOF; fid := fid w;
      trace := trace w ++ [EvFFT] |}, Ok tt).
Proof.
  intros (HNL & HNR & HL & HR) HN HL0 HNf Hlen.
  unfold transform_chunk, bind, get_self, lift, emit, modify.
  rewrite reshape_F_ok by exact Hlen.
  rewrite (rfft_ok _ (chunkSize (self w))).
  2:{ exact HL0. }
  2:{ apply Forall_map, Forall_forall. intros r _. now rewrite length_map, length_seq. }
  fold (fft_rows velArray NDOF (chunkSize (self w)) (sampleTimestep (cfg (self w)))).
  set (F := fft_rows velArray NDOF (chunkSize (self w)) (sampleTimestep (cfg (self w)))).
  destruct (fft_rows_shape velArray NDOF (chunkSize (self w))
              (sampleTimestep (cfg (self w)))) as [Hr Hc].
  fold F in Hr, Hc. rewrite <- HNf in Hc.
  assert (HLi : Forall (fun i => (3 * i + 2 < length F)%nat) (ids_L (cfg (self w)))).
  { rewrite Hr. eapply Forall_impl; [|exact HL]. simpl. intros; lia. }
  assert (HRi : Forall (fun i => (3 * i + 2 < length F)%nat) (ids_R (cfg (self w)))).
  { rewrite Hr. eapply Forall_impl; [|exact HR]. simpl. intros; lia. }
  cbn [self fid trace].
  rewrite assign_velsL_ok; try assumption; try lia;
    [|cbn [self velsL set_velsL set_velsR cfg]; unfold np.czeros;
      rewrite repeat_length; lia].
  rewrite assign_velsL_ok; try assumption; try lia;
    [|cbn [self velsL set_velsL set_velsR cfg]; rewrite !put_axis_length;
      unfold np.czeros; rewrite repeat_length; lia].
  rewrite assign_velsL_ok; try assumption; try lia;
    [|cbn [self velsL set_velsL set_velsR cfg]; rewrite !put_axis_length;
      unfold np.czeros; rewrite repeat_length; lia].
  rewrite assign_velsR_ok; try assumption; try lia;
    [|cbn [self velsR set_velsL set_velsR cfg]; unfold np.czeros;
      rewrite repeat_length; lia].
  rewrite assign_velsR_ok; try assumption; try lia;
    [|cbn [self velsR set_velsL set_velsR cfg]; rewrite !put_axis_length;
      unfold np.czeros; rewrite repeat_length; lia].
  rewrite assign_velsR_ok; try assumption; try lia;
    [|cbn [self velsR set_velsL set_velsR cfg]; rewrite !put_axis_length;
      unfold np.czeros; rewrite repeat_length; lia].
  cbn [self fid trace velsL velsR cfg set_velsL set_velsR].
  rewrite HNL, HNR, !three_axes. reflexivity.
Qed.

Lemma transform_chunk_mismatch (w : world) (velArray : list R) (NDOF Nf : nat) :
  length velArray <> (NDOF * chunkSize (self w))%nat ->
  transform_chunk velArray NDOF Nf w = (w, Raise ValueError).
Proof.
  intros H. unfold transform_chunk, bind, get_self, lift.
  now rewrite reshape_F_mismatch.
Qed.

(** ** The spectral heat current of one chunk *)

Lemma map2_as_seq {A B D : Type} (f : A -> B -> D) (u : list A) (v : list B) (da : A) (db : B) :
  length u = length v ->
  map2 f u v = map (fun j => f (nth j u da) (nth j v db)) (seq 0 (length u)).
Proof.
  revert v; induction u as [|x u IH]; intros [|y v] H; simpl in *; try discriminate;
    try reflexivity.
  f_equal. rewrite (IH v) by lia. rewrite <- seq_shift, map_map. reflexivity.
Qed.

Lemma nth_column {A : Type} (d : A) (m : list (list A)) (k a : nat) :
  (a < length m)%nat -> nth a (np.column d m k) d = nth k (nth a m []) d.
Proof.
  intros Ha. unfold np.column. now rewrite (nth_map_lt _ _ _ _ []).
Qed.

Lemma SHC_bin_ok (s : SHCPostProc) (ki : nat) :
  mats_ok s -> SHC_bin s ki = Ok (bin_value s ki).
Proof.
  intros [Hr Hc]. unfold SHC_bin, np.matvec, np.cdot.
  assert (Hcol : forall (m : cmatrix), length (map Cconj (np.column C0 m ki)) = length m).
  { intros m. unfold np.column. now rewrite !length_map. }
  rewrite forallb_length_eq by (now rewrite Hcol). cbn [rbind].
  replace (length (np.column C0 (velsL s) ki) =? length (map _ (Kij s)))%nat with true
    by (symmetry; apply Nat.eqb_eq; unfold np.column; rewrite !length_map; lia).
  cbn [rbind]. unfold bin_value, bilinear. do 3 f_equal.
  rewrite (map2_as_seq _ _ _ C0 C0).
  2:{ unfold np.column. now rewrite !length_map. }
  do 2 f_equal.
  replace (length (np.column C0 (velsL s) ki)) with (length (velsL s))
    by (unfold np.column; now rewrite length_map).
  apply map_ext_in. intros a Ha. apply in_seq in Ha.
  rewrite nth_column by lia. f_equal.
  rewrite (nth_map_lt _ _ _ _ []) by lia.
  rewrite (map2_as_seq _ _ _ 0 C0).
  2:{ rewrite Hcol. rewrite Forall_forall in Hc. apply Hc, nth_In. lia. }
  assert (Hla : length (nth a (Kij s) []) = length (velsR s)).
  { rewrite Forall_forall in Hc. apply Hc, nth_In. lia. }
  rewrite Hla. f_equal. apply map_ext_in. intros b Hb. apply in_seq in Hb.
  f_equal. rewrite (nth_map_lt _ _ _ _ C0) by (unfold np.column; rewrite length_map; lia).
  now rewrite nth_column by lia.
Qed.

Lemma SHC_loop_ok (s : SHCPostProc) (kis : list nat) (acc : list R) :
  mats_ok s ->
  SHC_loop s kis acc = Ok (fold_left (fun a ki => upd ki (bin_value s ki) a) kis acc).
Proof.
  intros H. revert acc; induction kis as [|ki kis IH]; intros acc; simpl; [reflexivity|].
  rewrite SHC_bin_ok by exact H. cbn [rbind]. apply IH.
Qed.

Lemma fold_upd_length (v : nat -> R) (kis : list nat) (acc : list R) :
  length (fold_left (fun a ki => upd ki (v ki) a) kis acc) = length acc.
Proof.
  revert acc; induction kis as [|k kis IH]; intros acc; simpl; [reflexivity|].
  now rewrite IH, upd_length.
Qed.

Lemma nth_fold_upd (v : nat -> R) (kis : list nat) (acc : list R) (i : nat) :
  Forall (fun k => (k < length acc)%nat) kis ->
  nth i (fold_left (fun a ki => upd ki (v ki) a) kis acc) 0 =
  if existsb (Nat.eqb i) kis then v i else nth i acc 0.
Proof.
  revert acc; induction kis as [|k kis IH]; intros acc H; simpl; [reflexivity|].
  inversion H as [|? ? Hk Hks]; subst.
  rewrite IH by (rewrite upd_length; exact Hks).
  destruct (existsb (Nat.eqb i) kis); [now rewrite orb_true_r|].
  rewrite orb_false_r. destruct (Nat.eqb_spec i k) as [->|Hne].
  - now apply nth_upd_same.
  - apply nth_upd_other. congruence.
Qed.

Lemma chunk_SHC_ok (s : SHCPostProc) (Nf : nat) :
  mats_ok s -> chunk_SHC s Nf = Ok (raw_curve s Nf).
Proof.
  intros H. unfold chunk_SHC. rewrite SHC_loop_ok by exact H. cbn [rbind]. f_equal.
  rewrite map_map. unfold raw_curve.
  apply (nth_ext _ _ 0 0).
  - unfold np.zeros. now rewrite !length_map, fold_upd_length, length_seq, repeat_length.
  - intros i Hi. rewrite length_map, fold_upd_length in Hi. unfold np.zeros in *.
    rewrite repeat_length in Hi.
    rewrite (nth_map_lt _ _ _ _ 0) by (now rewrite fold_upd_length, repeat_length).
    rewrite (nth_map_lt _ _ _ _ 0%nat) by (now rewrite length_seq).
    rewrite seq_nth by exact Hi. cbn [Nat.add].
    rewrite nth_fold_upd.
    2:{ apply Forall_forall. intros k Hk. apply in_seq in Hk. rewrite repeat_length. lia. }
    rewrite nth_repeat_lt by exact Hi.
    destruct (Nat.eqb_spec i 0) as [->|Hne].
    + replace (existsb (Nat.eqb 0) (seq 1 (Nf - 1))) with false; [reflexivity|].
      symmetry. apply not_true_is_false. intros E. apply existsb_exists in E.
      destruct E as [x [Hx E]]. apply in_seq in Hx. apply Nat.eqb_eq in E. lia.
    + replace (existsb (Nat.eqb i) (seq 1 (Nf - 1))) with true; [reflexivity|].
      symmetry. apply existsb_exists. exists i. split; [apply in_seq; lia|apply Nat.eqb_refl].
Qed.

Lemma raw_curve_length (s : SHCPostProc) (Nf : nat) : length (raw_curve s Nf) = Nf.
Proof. unfold raw_curve. now rewrite length_map, length_seq. Qed.

(** ** Smoothing *)

Lemma Zceil_pos (x : R) : 0 < x -> (1 <= Zceil x)%Z.
Proof.
  intros Hx. pose proof (Zceil_bound x) as [_ Hub].
  assert (H : (0 < Zceil x)%Z) by (apply lt_IZR; lra). lia.
Qed.

Lemma window_size_ge_1 (df widthWin : R) :
  0 < widthWin / df -> (1 <= window_size df widthWin)%Z.
Proof.
  intros H. unfold window_size. pose proof (Zceil_pos _ H).
  destruct (Zceil (widthWin / df) mod 2 =? 0)%Z; lia.
Qed.

Lemma window_size_odd (df widthWin : R) : (window_size df widthWin mod 2 = 1)%Z.
Proof.
  unfold window_size.
  destruct (Z.eqb_spec (Zceil (widthWin / df) mod 2) 0) as [E|E].
  - rewrite Z.add_mod, E by lia. reflexivity.
  - pose proof (Z.mod_pos_bound (Zceil (widthWin / df)) 2 ltac:(lia)). lia.
Qed.

Lemma gauss_window_length (g : Z) :
  (1 <= g)%Z -> length (gauss_window g) = Z.to_nat g.
Proof.
  intros Hg. unfold gauss_window. destruct (Z.eqb_spec g 1) as [->|_]; [reflexivity|].
  unfold np.arange. now rewrite !length_map, length_seq.
Qed.

Lemma convolve_same_ok (a v : list R) :
  (0 < length a)%nat -> (0 < length v)%nat ->
  np.convolve_same a v = Ok (smooth_curve a v).
Proof.
  destruct a, v; simpl; intros; try lia. reflexivity.
Qed.

Lemma window_len_pos (df widthWin : R) :
  0 < widthWin / df -> (0 < window_len df widthWin)%nat.
Proof.
  intros H. unfold window_len, kernel.
  pose proof (window_size_ge_1 _ _ H). rewrite gauss_window_length by assumption. lia.
Qed.

Lemma smoothen_ok (func : list R) (df widthWin : R) :
  (0 < length func)%nat -> 0 < widthWin / df ->
  _smoothen func df widthWin = Ok (smooth_curve func (kernel df widthWin)).
Proof.
  intros Hf Hw. unfold _smoothen. apply convolve_same_ok; [exact Hf|].
  now apply window_len_pos.
Qed.

Lemma smooth_curve_length (func gauss : list R) :
  length (smooth_curve func gauss) = Nat.max (length func) (length gauss).
Proof. unfold smooth_curve. now rewrite length_map, length_seq. Qed.

(** A kernel of one sample is the identity. *)
Lemma smooth_curve_identity (func : list R) :
  (0 < length func)%nat -> smooth_curve func [1] = func.
Proof.
  intros Hf. unfold smooth_curve. cbn [length].
  replace (Nat.min (length func) 1) with 1%nat by lia.
  replace (Nat.max (length func) 1) with (length func) by lia.
  change ((1 - 1) / 2)%nat with 0%nat.
  apply (nth_ext _ _ 0 0).
  - now rewrite length_map, length_seq.
  - intros i Hi. rewrite length_map, length_seq in Hi.
    rewrite (nth_map_lt _ _ _ _ 0%nat) by now rewrite length_seq.
    rewrite seq_nth by exact Hi. cbn [Nat.add].
    unfold np.conv_at, mapi. cbn [mapi_from Rsum fold_right Nat.leb].
    rewrite Nat.add_0_r, Nat.sub_0_r, (nth_error_nth' func 0 Hi). lra.
Qed.

Lemma smoothen_identity (func : list R) (df widthWin : R) :
  (0 < length func)%nat -> window_size df widthWin = 1%Z ->
  _smoothen func df widthWin = Ok func.
Proof.
  intros Hf Hw. unfold _smoothen. rewrite Hw. cbn [gauss_window Z.eqb Pos.eqb].
  rewrite convolve_same_ok by (simpl; lia). now rewrite smooth_curve_identity.
Qed.

(** ** One chunk, from samples to curves *)

Lemma chunk_df_pos (s : SHCPostProc) :
  (0 < chunkSize s)%nat -> 0 < sampleTimestep (cfg s) -> 0 < chunk_df s.
Proof.
  intros HL Hdt. unfold chunk_df. apply Rdiv_lt_0_compat; [lra|].
  apply Rmult_lt_0_compat; [|exact Hdt]. apply lt_0_INR. exact HL.
Qed.

Lemma chunk_state_mats (s : SHCPostProc) (velArray : list R) (NDOF Nf : nat) :
  chunk_ready s NDOF Nf -> mats_ok (chunk_state s velArray NDOF).
Proof.
  intros [(HNL & HNR & HL & HR) HN [HKr HKc] HL2 Hdt Hw Hdir Homs HNf].
  destruct (fft_rows_shape velArray NDOF (chunkSize s) (sampleTimestep (cfg s))) as [Fr Fc].
  assert (SL : shape (side_rows (fft_rows velArray NDOF (chunkSize s)
                                   (sampleTimestep (cfg s))) (ids_L (cfg s)))
                     (3 * length (ids_L (cfg s))) (chunkSize s / 2 + 1)).
  { apply side_rows_shape; [|exact Fc].
    rewrite Fr. eapply Forall_impl; [|exact HL]. simpl; intros; lia. }
  assert (SR : shape (side_rows (fft_rows velArray NDOF (chunkSize s)
                                   (sampleTimestep (cfg s))) (ids_R (cfg s)))
                     (3 * length (ids_R (cfg s))) (chunkSize s / 2 + 1)).
  { apply side_rows_shape; [|exact Fc].
    rewrite Fr. eapply Forall_impl; [|exact HR]. simpl; intros; lia. }
  destruct (shape_proj (cfg s) C0 _ _ _ SL) as [PL _].
  destruct (shape_proj (cfg s) C0 _ _ _ SR) as [PR _].
  destruct (shape_proj (cfg s) 0 _ _ _ (conj HKr HKc)) as [PKr PKc].
  unfold mats_ok, chunk_state, projected, transformed.
  cbn [Kij velsL velsR set_velsL set_velsR set_Kij cfg].
  rewrite PL, PR, PKr. split; [lia|].
  eapply Forall_impl; [|exact PKc]. simpl. intros row Hrow. lia.
Qed.

Lemma chunk_curves_ok (w : world) (velArray : list R) (NDOF Nf : nat) :
  chunk_ready (self w) NDOF Nf ->
  length velArray = (NDOF * chunkSize (self w))%nat ->
  chunk_curves velArray NDOF Nf w =
  ({| self := chunk_state (self w) velArray NDOF; fid := fid w;
      trace := trace w ++ [EvFFT; EvSHC] |},
   Ok (chunk_smooth (self w) velArray NDOF, chunk_raw (self w) velArray NDOF)).
Proof.
  intros Hrd Hlen. pose proof (chunk_state_mats _ velArray _ _ Hrd) as Hm.
  destruct Hrd as [Hids HN HK HL2 Hdt Hw Hdir Homs HNf].
  unfold chunk_curves, bind.
  rewrite (transform_chunk_ok w velArray NDOF Nf Hids HN ltac:(lia) HNf Hlen).
  rewrite project_chunk_ok by exact Hdir.
  unfold get_self, lift, emit, ret. cbn [self fid trace].
  fold (chunk_state (self w) velArray NDOF).
  rewrite chunk_SHC_ok by exact Hm.
  change (oms_fft (chunk_state (self w) velArray NDOF)) with (oms_fft (self w)).
  rewrite Homs, grid_spacing_grid by exact HL2.
  change (cfg (chunk_state (self w) velArray NDOF)) with (cfg (self w)).
  rewrite smoothen_ok.
  - rewrite <- app_assoc. cbn [app]. rewrite HNf. reflexivity.
  - rewrite raw_curve_length. lia.
  - apply Rdiv_lt_0_compat; [exact Hw|].
    apply (chunk_df_pos (self w)); [lia|exact Hdt].
Qed.

(** ** The running averages *)

Lemma running_mean_ok (k : nat) (m x : list R) :
  length m = length x -> running_mean k m x = Ok (mean_step k m x).
Proof.
  intros H. unfold running_mean, np.broadcast2.
  rewrite length_map, (proj2 (Nat.eqb_eq _ _) H). reflexivity.
Qed.

Lemma mean_step_length (k : nat) (m x : list R) :
  length m = length x -> length (mean_step k m x) = length x.
Proof.
  intros H. unfold mean_step. rewrite length_map, map2_length, length_map. lia.
Qed.

Lemma square_length (x : list R) : length (square x) = length x.
Proof. apply length_map. Qed.

Lemma folded_smooth (k : nat) (s : SHCPostProc) (a b : list R) :
  SHC_smooth (folded k s a b) = mean_step k (SHC_smooth s) a.
Proof. reflexivity. Qed.

Lemma folded_smooth2 (k : nat) (s : SHCPostProc) (a b : list R) :
  SHC_smooth2 (folded k s a b) = mean_step k (SHC_smooth2 s) (square a).
Proof. reflexivity. Qed.

Lemma folded_average (k : nat) (s : SHCPostProc) (a b : list R) :
  SHC_average (folded k s a b) = mean_step k (SHC_average s) b.
Proof. reflexivity. Qed.

Lemma fold_chunk_ok (k : nat) (SHC SHC_orig : list R) (w : world) :
  length (SHC_smooth (self w)) = length SHC ->
  length (SHC_smooth2 (self w)) = length SHC ->
  length (SHC_average (self w)) = length SHC_orig ->
  fold_chunk k SHC SHC_orig w =
  ({| self := folded k (self w) SHC SHC_orig; fid := fid w;
      trace := trace w ++ [EvFold] |}, Ok tt).
Proof.
  intros H1 H2 H3. unfold fold_chunk, bind, get_self, lift, modify, emit.
  rewrite running_mean_ok by exact H1. cbn [self fid trace].
  rewrite running_mean_ok by (rewrite square_length; exact H2).
  rewrite running_mean_ok by exact H3. reflexivity.
Qed.

(** ** Reading a chunk *)

Lemma read_chunk_full (NDOF k : nat) (loc : locals) (w : world) :
  (0 < chunkSize (self w) * NDOF)%nat ->
  (chunkSize (self w) * NDOF <= length (fid w))%nat ->
  read_chunk NDOF k loc w =
  (after_read (chunkSize (self w) * NDOF) (self w) w,
   Ok (Next, loc, firstn (chunkSize (self w) * NDOF) (fid w))).
Proof.
  intros Hpos Hlen. unfold read_chunk, bind, get_self, fromfile, after_read.
  cbn [self fid trace].
  rewrite length_firstn, Nat.min_l by exact Hlen.
  assert (E0 : (chunkSize (self w) * NDOF =? 0)%nat = false) by (apply Nat.eqb_neq; lia).
  rewrite E0, Nat.eqb_refl. reflexivity.
Qed.

Lemma read_chunk_empty (NDOF k : nat) (loc : locals) (w : world) :
  fid w = [] ->
  read_chunk NDOF k loc w =
  (after_read (chunkSize (self w) * NDOF) (set_NChunks (Z.of_nat k - 1) (self w)) w,
   Ok (Break, loc, [])).
Proof.
  intros He. unfold read_chunk, bind, get_self, fromfile, after_read, modify, ret.
  cbn [self fid trace]. rewrite He, firstn_nil, skipn_nil. reflexivity.
Qed.

Lemma read_chunk_short_later (NDOF k : nat) (loc : locals) (w : world) :
  (0 < length (fid w) < chunkSize (self w) * NDOF)%nat -> (0 < k)%nat ->
  read_chunk NDOF k loc w =
  (after_read (chunkSize (self w) * NDOF)
     (set_NChunks (Z.of_nat k - 1) (set_chunkSize (length (fid w) / NDOF) (self w))) w,
   Ok (Break, loc, fid w)).
Proof.
  intros [Hpos Hlt] Hk.
  unfold read_chunk, bind, get_self, fromfile, after_read, modify, ret, lift.
  cbn [self fid trace].
  rewrite firstn_all2 by lia.
  assert (E0 : (length (fid w) =? 0)%nat = false) by (apply Nat.eqb_neq; lia).
  assert (E1 : (length (fid w) =? chunkSize (self w) * NDOF)%nat = false)
    by (apply Nat.eqb_neq; lia).
  rewrite E0, E1. cbn [negb].
  assert (HN : NDOF <> 0%nat) by (intros ->; rewrite Nat.mul_0_r in Hlt; lia).
  rewrite (proj2 (Nat.eqb_neq _ _) HN). cbn [self fid trace].
  rewrite (proj2 (Nat.ltb_lt _ _) Hk). reflexivity.
Qed.

Lemma read_chunk_short_first (NDOF : nat) (loc : locals) (w : world) :
  (0 < length (fid w) < chunkSize (self w) * NDOF)%nat ->
  read_chunk NDOF 0 loc w =
  match freq_grid (length (fid w) / NDOF) (sampleTimestep (cfg (self w))) with
  | Ok oms =>
      (after_read (chunkSize (self w) * NDOF)
         (set_oms_fft oms (set_chunkSize (length (fid w) / NDOF) (self w))) w,
       Ok (Next, {| Nfreqs := length oms; exitFlag := true |}, fid w))
  | Raise e =>
      (after_read (chunkSize (self w) * NDOF)
         (set_chunkSize (length (fid w) / NDOF) (self w)) w, Raise e)
  end.
Proof.
  intros [Hpos Hlt].
  unfold read_chunk, bind, get_self, fromfile, after_read, modify, ret, lift.
  cbn [self fid trace].
  rewrite firstn_all2 by lia.
  assert (E0 : (length (fid w) =? 0)%nat = false) by (apply Nat.eqb_neq; lia).
  assert (E1 : (length (fid w) =? chunkSize (self w) * NDOF)%nat = false)
    by (apply Nat.eqb_neq; lia).
  rewrite E0, E1. cbn [negb].
  assert (HN : NDOF <> 0%nat) by (intros ->; rewrite Nat.mul_0_r in Hlt; lia).
  rewrite (proj2 (Nat.eqb_neq _ _) HN). cbn [self fid trace Nat.ltb Nat.leb chunkSize
                                              set_chunkSize cfg].
  destruct (freq_grid (length (fid w) / NDOF) (sampleTimestep (cfg (self w))));
    reflexivity.
Qed.

(** ** One iteration on a full chunk *)

Lemma chunk_raw_length (s : SHCPostProc) (va : list R) (NDOF : nat) :
  length (chunk_raw s va NDOF) = (chunkSize s / 2 + 1)%nat.
Proof. apply raw_curve_length. Qed.

Lemma chunk_smooth_length (s : SHCPostProc) (va : list R) (NDOF : nat) :
  length (chunk_smooth s va NDOF) =
  Nat.max (chunkSize s / 2 + 1) (window_len (chunk_df s) (widthWin (cfg s))).
Proof. unfold chunk_smooth. now rewrite smooth_curve_length, chunk_raw_length. Qed.

Lemma loop_body_full (NDOF k : nat) (loc : locals) (w : world) :
  loop_inv (self w) NDOF (Nfreqs loc) -> exitFlag loc = false ->
  (chunkSize (self w) * NDOF <= length (fid w))%nat ->
  loop_body NDOF k loc w = (step_full NDOF k w, Ok (Next, loc)).
Proof.
  intros [Hrd HN H1 H2 H3 Hwin] Hflag Hlen.
  pose proof (rd_L _ _ _ Hrd) as HL. pose proof (rd_Nf _ _ _ Hrd) as HNf.
  unfold loop_body, bind. rewrite read_chunk_full by (try exact Hlen; nia).
  unfold process_chunk, bind.
  rewrite chunk_curves_ok.
  2:{ exact Hrd. }
  2:{ cbn [self after_read]. rewrite length_firstn, Nat.min_l by exact Hlen. lia. }
  rewrite Hflag. cbn [negb fst snd]. unfold bind.
  rewrite fold_chunk_ok.
  - unfold ret, step_full, after_read. cbn [self fid trace].
    rewrite length_firstn, Nat.min_l by exact Hlen.
    rewrite <- !app_assoc. reflexivity.
  - cbn [self after_read]. rewrite chunk_smooth_length.
    change (SHC_smooth (chunk_state (self w) _ NDOF)) with (SHC_smooth (self w)). lia.
  - cbn [self after_read]. rewrite chunk_smooth_length.
    change (SHC_smooth2 (chunk_state (self w) _ NDOF)) with (SHC_smooth2 (self w)). lia.
  - cbn [self after_read]. rewrite chunk_raw_length.
    change (SHC_average (chunk_state (self w) _ NDOF)) with (SHC_average (self w)). lia.
Qed.

Lemma step_full_inv (NDOF k Nf : nat) (w : world) :
  loop_inv (self w) NDOF Nf -> loop_inv (self (step_full NDOF k w)) NDOF Nf.
Proof.
  intros [[Hids HN HK HL Hdt Hw Hdir Homs HNf] HND H1 H2 H3 Hwin].
  unfold step_full. cbn [self].
  set (va := firstn _ _).
  split; [split| | | | |]; try assumption.
  - apply (shape_proj (cfg (self w)) 0). exact HK.
  - rewrite folded_smooth.
    change (SHC_smooth (chunk_state (self w) va NDOF)) with (SHC_smooth (self w)).
    rewrite mean_step_length; rewrite chunk_smooth_length; lia.
  - rewrite folded_smooth2.
    change (SHC_smooth2 (chunk_state (self w) va NDOF)) with (SHC_smooth2 (self w)).
    rewrite mean_step_length; rewrite square_length, chunk_smooth_length; lia.
  - rewrite folded_average.
    change (SHC_average (chunk_state (self w) va NDOF)) with (SHC_average (self w)).
    rewrite mean_step_length; rewrite chunk_raw_length; lia.
Qed.

Lemma run_full_facts (NDOF Nf j : nat) :
  forall (k : nat) (w : world),
    loop_inv (self w) NDOF Nf ->
    loop_inv (self (run_full NDOF j k w)) NDOF Nf /\
    cfg (self (run_full NDOF j k w)) = cfg (self w) /\
    NChunks (self (run_full NDOF j k w)) = NChunks (self w) /\
    chunkSize (self (run_full NDOF j k w)) = chunkSize (self w) /\
    oms_fft (self (run_full NDOF j k w)) = oms_fft (self w) /\
    SHC_error (self (run_full NDOF j k w)) = SHC_error (self w) /\
    fid (run_full NDOF j k w) = skipn (j * (chunkSize (self w) * NDOF)) (fid w).
Proof.
  induction j as [|j IH]; intros k w Hinv.
  - simpl. refine (conj Hinv _). repeat (split; [reflexivity|]). reflexivity.
  - cbn [run_full].
    destruct (IH (S k) (step_full NDOF k w) (step_full_inv _ _ _ _ Hinv))
      as (I1 & I2 & I3 & I4 & I5 & I6 & I7).
    refine (conj I1 _). repeat (split; [assumption|]).
    rewrite I7. cbn [step_full fid self]. rewrite skipn_skipn.
    change (chunkSize (folded k _ _ _)) with (chunkSize (self w)).
    f_equal. lia.
Qed.

Lemma chunk_loop_full (NDOF : nat) (loc : locals) (j : nat) :
  forall (m k : nat) (w : world),
    loop_inv (self w) NDOF (Nfreqs loc) -> exitFlag loc = false ->
    (j * (chunkSize (self w) * NDOF) <= length (fid w))%nat ->
    chunk_loop (j + m) NDOF k loc w = chunk_loop m NDOF (k + j) loc (run_full NDOF j k w).
Proof.
  induction j as [|j IH]; intros m k w Hinv Hflag Hlen.
  - simpl. now rewrite Nat.add_0_r.
  - cbn [Nat.add chunk_loop run_full]. unfold bind at 1.
    rewrite loop_body_full; try assumption; [|lia].
    rewrite IH.
    + now replace (S k + j)%nat with (k + S j)%nat by lia.
    + now apply step_full_inv.
    + exact Hflag.
    + cbn [step_full fid self]. rewrite length_skipn.
      change (chunkSize (folded k _ _ _)) with (chunkSize (self w)). lia.
Qed.

(** ** The header, the start of the loop and the finalization *)

Lemma read_header_ok (w : world) (f : velfile) :
  header_ok (self w) f ->
  read_header f w =
  ({| self := self w; fid := fid w; trace := trace w ++ [EvHeader] |}, Ok tt).
Proof.
  intros (HN & Hs & Hi). unfold read_header, bind, emit, get_self, lift.
  cbn [self fid trace]. rewrite (proj2 (Z.eqb_eq _ _) HN). cbn [negb].
  destruct (Req_dec_T _ _) as [_|N]; [|contradiction].
  rewrite Hi. reflexivity.
Qed.

Lemma postProcess_started (s : SHCPostProc) (f : velfile) :
  header_ok s f -> INR (chunkSize s) * sampleTimestep (cfg s) <> 0 ->
  postProcess s f =
  (chunk_loop (Z.to_nat (NChunks s)) (NDOF_of s) 0 (loc0 s) ;; finalize) (started s f).
Proof.
  intros Hh Hd. unfold postProcess, postProcess_body. unfold bind at 1.
  rewrite read_header_ok by exact Hh.
  unfold bind at 1. unfold get_self at 1. cbn [self fid trace].
  unfold bind at 1. unfold lift at 1. rewrite freq_grid_ok by exact Hd.
  unfold bind at 1. unfold modify at 1. cbn [self fid trace].
  unfold bind at 1. unfold modify at 1. cbn [self fid trace].
  unfold bind at 1. unfold modify at 1. cbn [self fid trace].
  unfold bind at 1. unfold modify at 1. cbn [self fid trace].
  rewrite grid_length. reflexivity.
Qed.

Lemma error_estimate_ok (N : Z) (smooth smooth2 : list R) :
  ((1 < N)%Z -> length smooth = length smooth2) ->
  error_estimate N smooth smooth2 = Ok (error_value N smooth smooth2).
Proof.
  intros H. unfold error_estimate, error_value.
  destruct (Z.ltb_spec 1 N) as [HN|HN]; [|reflexivity].
  unfold np.broadcast2. rewrite square_length, <- (H HN), Nat.eqb_refl. reflexivity.
Qed.

Lemma finalize_ok (w : world) :
  ((1 < NChunks (self w))%Z ->
   length (SHC_smooth (self w)) = length (SHC_smooth2 (self w))) ->
  finalize w = (finalized w, Ok tt).
Proof.
  intros H. unfold finalize, bind, get_self, lift, modify.
  rewrite error_estimate_ok by exact H. reflexivity.
Qed.

Lemma run_ready_dt (s : SHCPostProc) :
  run_ready s -> INR (chunkSize s) * sampleTimestep (cfg s) <> 0.
Proof.
  intros H. apply Rgt_not_eq, Rmult_lt_0_compat; [|apply (rr_dt _ H)].
  apply lt_0_INR. pose proof (rr_L _ H). lia.
Qed.

Lemma started_inv (s : SHCPostProc) (f : velfile) :
  run_ready s -> window_fits s ->
  loop_inv (self (started s f)) (NDOF_of s) (chunkSize s / 2 + 1).
Proof.
  intros [Hids Hat HK HL Hdt Hw Hdir] Hfit. unfold started, NDOF_of. cbn [self].
  split; [split| | | | |]; try assumption; try reflexivity; try lia;
    try (cbn; unfold np.zeros; now rewrite repeat_length).
Qed.

(** ** Runs that meet the end of the file *)

Lemma loop_body_end (NDOF k : nat) (loc : locals) (w : world) :
  (length (fid w) < chunkSize (self w) * NDOF)%nat ->
  fid w = [] \/ (0 < k)%nat ->
  loop_body NDOF k loc w = (ended NDOF k w, Ok (Break, loc)).
Proof.
  intros Hlt Hk. unfold loop_body, bind, ended, end_state.
  destruct (fid w) as [|x l] eqn:E.
  - rewrite read_chunk_empty by exact E. reflexivity.
  - destruct Hk as [Hk|Hk]; [discriminate|].
    rewrite read_chunk_short_later; [|rewrite E; simpl in *; lia|exact Hk].
    unfold ret. rewrite E. reflexivity.
Qed.

Lemma chunk_loop_end (NDOF k m : nat) (loc : locals) (w : world) :
  (length (fid w) < chunkSize (self w) * NDOF)%nat ->
  fid w = [] \/ (0 < k)%nat ->
  chunk_loop (S m) NDOF k loc w = (ended NDOF k w, Ok tt).
Proof.
  intros Hlt Hk. cbn [chunk_loop]. unfold bind.
  now rewrite loop_body_end.
Qed.

Lemma after_chunks_facts (s : SHCPostProc) (f : velfile) (j : nat) :
  run_ready s -> window_fits s ->
  loop_inv (self (after_chunks s f j)) (NDOF_of s) (chunkSize s / 2 + 1) /\
  cfg (self (after_chunks s f j)) = cfg s /\
  NChunks (self (after_chunks s f j)) = NChunks s /\
  chunkSize (self (after_chunks s f j)) = chunkSize s /\
  oms_fft (self (after_chunks s f j)) = grid (chunkSize s) (sampleTimestep (cfg s)) /\
  SHC_error (self (after_chunks s f j)) = SHC_error s /\
  fid (after_chunks s f j) = skipn (j * (chunkSize s * NDOF_of s)) (samples f).
Proof.
  intros Hr Hf. unfold after_chunks.
  apply (run_full_facts (NDOF_of s) (chunkSize s / 2 + 1) j 0 (started s f)).
  now apply started_inv.
Qed.

(** A run whose file holds [j] full chunks and then less than a chunk,
    with more than [j] chunks requested: the loop leaves at index [j]. *)
Theorem run_early_end (s : SHCPostProc) (f : velfile) (j : nat) :
  run_ready s -> window_fits s -> header_ok s f ->
  (j * (chunkSize s * NDOF_of s) <= length (samples f)
   < S j * (chunkSize s * NDOF_of s))%nat ->
  (j < Z.to_nat (NChunks s))%nat ->
  length (samples f) = (j * (chunkSize s * NDOF_of s))%nat \/ (0 < j)%nat ->
  postProcess s f = (finalized (ended (NDOF_of s) j (after_chunks s f j)), Ok tt).
Proof.
  intros Hr Hfit Hh [Hlo Hhi] Hj Hk.
  rewrite postProcess_started; [|exact Hh|now apply run_ready_dt].
  destruct (after_chunks_facts s f j Hr Hfit) as (I1 & I2 & I3 & I4 & I5 & I6 & I7).
  unfold bind.
  replace (Z.to_nat (NChunks s)) with (j + S (Z.to_nat (NChunks s) - S j))%nat by lia.
  rewrite chunk_loop_full.
  2:{ now apply started_inv. }
  2:{ reflexivity. }
  2:{ exact Hlo. }
  fold (after_chunks s f j). cbn [Nat.add].
  assert (Hlen : (length (fid (after_chunks s f j))
                  < chunkSize (self (after_chunks s f j)) * NDOF_of s)%nat).
  { rewrite I7, I4, length_skipn. lia. }
  rewrite chunk_loop_end.
  - rewrite finalize_ok; [reflexivity|].
    intros _. unfold ended, after_read, end_state. cbn [self].
    destruct (fid (after_chunks s f j)); cbn;
      now rewrite (li_smooth _ _ _ I1), (li_smooth2 _ _ _ I1).
  - exact Hlen.
  - destruct Hk as [Hk|Hk]; [left|right; exact Hk].
    apply length_zero_iff_nil. rewrite I7, length_skipn. lia.
Qed.

(** A run whose file holds all the requested chunks. *)
Theorem run_all_chunks (s : SHCPostProc) (f : velfile) :
  run_ready s -> window_fits s -> header_ok s f ->
  (Z.to_nat (NChunks s) * (chunkSize s * NDOF_of s) <= length (samples f))%nat ->
  postProcess s f = (finalized (after_chunks s f (Z.to_nat (NChunks s))), Ok tt).
Proof.
  intros Hr Hfit Hh Hlen.
  rewrite postProcess_started; [|exact Hh|now apply run_ready_dt].
  destruct (after_chunks_facts s f (Z.to_nat (NChunks s)) Hr Hfit)
    as (I1 & I2 & I3 & I4 & I5 & I6 & I7).
  unfold bind.
  replace (Z.to_nat (NChunks s)) with (Z.to_nat (NChunks s) + 0)%nat at 1 by lia.
  rewrite chunk_loop_full.
  2:{ now apply started_inv. }
  2:{ reflexivity. }
  2:{ exact Hlen. }
  fold (after_chunks s f (Z.to_nat (NChunks s))). cbn [chunk_loop]. unfold ret.
  rewrite finalize_ok; [reflexivity|].
  intros _. now rewrite (li_smooth _ _ _ I1), (li_smooth2 _ _ _ I1).
Qed.

(** ** Runs whose first read is short *)

Lemma seed_chunk_ok (SHC SHC_orig : list R) (w : world) :
  seed_chunk SHC SHC_orig w =
  ({| self := seeded (self w) SHC SHC_orig; fid := fid w; trace := trace w |}, Ok tt).
Proof. reflexivity. Qed.

(** The loop on a short first read, up to the curves of that chunk. *)
Lemma short_first_loop (s : SHCPostProc) (f : velfile) (m : nat) :
  sampleTimestep (cfg s) <> 0 ->
  (0 < length (samples f) < chunkSize s * NDOF_of s)%nat ->
  (1 <= short_len s f)%nat ->
  chunk_loop (S m) (NDOF_of s) 0 (loc0 s) (started s f) =
  let w1 := after_read (chunkSize s * NDOF_of s) (short_state s f) (started s f) in
  match chunk_curves (samples f) (NDOF_of s) (short_len s f / 2 + 1) w1 with
  | (w2, Ok c) =>
      ({| self := seeded (self w2) (fst c) (snd c); fid := fid w2; trace := trace w2 |},
       Ok tt)
  | (w2, Raise e) => (w2, Raise e)
  end.
Proof.
  intros Hdt Hlen HL. cbn [chunk_loop]. unfold bind at 1. unfold loop_body.
  unfold bind at 1. rewrite read_chunk_short_first by exact Hlen.
  change (fid (started s f)) with (samples f).
  change (cfg (self (started s f))) with (cfg s).
  fold (short_len s f).
  rewrite freq_grid_ok.
  2:{ apply Rmult_integral_contrapositive_currified; [|exact Hdt].
      apply not_0_INR. lia. }
  fold (short_state s f). rewrite grid_length.
  unfold bind at 1. unfold process_chunk. unfold bind at 1. cbn [Nfreqs exitFlag].
  destruct (chunk_curves _ _ _ _) as [w2 [c|e]]; [|reflexivity].
  cbn [negb andb Nat.eqb]. unfold bind, ret. rewrite seed_chunk_ok. reflexivity.
Qed.

Lemma short_state_ready (s : SHCPostProc) (f : velfile) :
  run_ready s -> (2 <= short_len s f)%nat ->
  chunk_ready (short_state s f) (NDOF_of s) (short_len s f / 2 + 1).
Proof.
  intros [Hids Hat HK HL Hdt Hw Hdir] HL'. unfold short_state, started. cbn [self].
  split; try assumption; reflexivity.
Qed.

(** A short first read that holds [L' >= 2] whole time steps: the run
    completes on that single chunk. *)
Theorem run_short_first (s : SHCPostProc) (f : velfile) (L' : nat) :
  run_ready s -> header_ok s f -> (0 < NChunks s)%Z ->
  length (samples f) = (L' * NDOF_of s)%nat ->
  (2 <= L' < chunkSize s)%nat ->
  postProcess s f = (short_final s f, Ok tt).
Proof.
  intros Hr Hh HN Hlen [HL2 HLc].
  assert (HND : (0 < NDOF_of s)%nat) by (unfold NDOF_of; pose proof (rr_atoms _ Hr); lia).
  assert (Hsl : short_len s f = L').
  { unfold short_len. rewrite Hlen. apply Nat.div_mul. lia. }
  rewrite postProcess_started; [|exact Hh|now apply run_ready_dt].
  unfold bind.
  replace (Z.to_nat (NChunks s)) with (S (Z.to_nat (NChunks s) - 1)) by lia.
  rewrite short_first_loop.
  2:{ pose proof (rr_dt _ Hr). lra. }
  2:{ rewrite Hlen. split; [nia|]. apply Nat.mul_lt_mono_pos_r; lia. }
  2:{ lia. }
  cbv zeta.
  rewrite chunk_curves_ok.
  2:{ apply short_state_ready; [exact Hr|lia]. }
  2:{ cbn [self after_read]. change (chunkSize (short_state s f)) with (short_len s f).
      rewrite Hsl. change (fid (started s f)) with (samples f). lia. }
  cbn [fst snd self fid trace after_read].
  rewrite finalize_ok by (cbn; intros; lia).
  unfold finalized, short_final. cbn [self fid trace started].
  rewrite skipn_all2, firstn_all2 by (rewrite Hlen; nia).
  reflexivity.
Qed.

(** A short first read that is not a whole number of time steps is refused
    by the reshape. *)
Theorem run_short_first_ragged (s : SHCPostProc) (f : velfile) :
  header_ok s f -> (2 <= chunkSize s)%nat -> sampleTimestep (cfg s) <> 0 ->
  (0 < NChunks s)%Z ->
  (NDOF_of s <= length (samples f) < chunkSize s * NDOF_of s)%nat ->
  (length (samples f) mod NDOF_of s <> 0)%nat ->
  snd (postProcess s f) = Raise ValueError.
Proof.
  intros Hh HL Hdt HN [Hlo Hhi] Hmod.
  assert (HND : (NDOF_of s <> 0)%nat) by (intros E; rewrite E in Hmod; simpl in Hmod; lia).
  assert (Hsl : (1 <= short_len s f)%nat).
  { unfold short_len. apply Nat.div_le_lower_bound; lia. }
  rewrite postProcess_started; [|exact Hh|].
  2:{ apply Rmult_integral_contrapositive_currified; [|exact Hdt]. apply not_0_INR. lia. }
  unfold bind.
  replace (Z.to_nat (NChunks s)) with (S (Z.to_nat (NChunks s) - 1)) by lia.
  rewrite short_first_loop; [|exact Hdt|lia|exact Hsl].
  cbv zeta. unfold chunk_curves. unfold bind at 1.
  rewrite transform_chunk_mismatch; [reflexivity|].
  cbn [self after_read]. change (chunkSize (short_state s f)) with (short_len s f).
  unfold short_len. pose proof (Nat.div_mod_eq (length (samples f)) (NDOF_of s)). lia.
Qed.

(** A short first read of exactly one time step has a grid of one bin: the
    grid spacing cannot be taken. *)
Theorem run_short_first_one_step (s : SHCPostProc) (f : velfile) :
  run_ready s -> header_ok s f -> (0 < NChunks s)%Z ->
  length (samples f) = NDOF_of s ->
  snd (postProcess s f) = Raise IndexError.
Proof.
  intros Hr Hh HN Hlen.
  destruct Hr as [Hids Hat HK HL Hdt Hw Hdir].
  assert (HND : (0 < NDOF_of s)%nat) by (unfold NDOF_of; lia).
  assert (Hsl : short_len s f = 1%nat).
  { unfold short_len. rewrite Hlen. apply Nat.div_same. lia. }
  rewrite postProcess_started; [|exact Hh|].
  2:{ apply Rgt_not_eq, Rmult_lt_0_compat; [apply lt_0_INR; lia|exact Hdt]. }
  unfold bind.
  replace (Z.to_nat (NChunks s)) with (S (Z.to_nat (NChunks s) - 1)) by lia.
  rewrite short_first_loop; [|lra|rewrite Hlen; nia|lia].
  cbv zeta. unfold chunk_curves. unfold bind at 1.
  rewrite (transform_chunk_ok _ _ _ (short_len s f / 2 + 1)); try reflexivity;
    try assumption.
  2:{ cbn [self after_read]. change (chunkSize (short_state s f)) with (short_len s f). lia. }
  2:{ cbn [self after_read]. change (chunkSize (short_state s f)) with (short_len s f).
      rewrite Hsl. change (fid (started s f)) with (samples f). lia. }
  unfold bind at 1. rewrite project_chunk_ok by exact Hdir.
  unfold bind at 1. unfold get_self at 1. cbn [self fid trace].
  unfold bind at 1. unfold lift at 1.
  rewrite Hsl. change (1 / 2 + 1)%nat with 1%nat.
  unfold chunk_SHC. cbn [Nat.sub seq SHC_loop rbind].
  unfold bind at 1. unfold emit at 1. cbn [self fid trace].
  unfold bind at 1. unfold lift at 1.
  rewrite grid_spacing_short; [reflexivity|].
  change (oms_fft (projected (transformed (self (after_read _ (short_state s f) _)) _ _)))
    with (grid (short_len s f) (sampleTimestep (cfg s))).
  rewrite grid_length, Hsl. simpl. lia.
Qed.

(** A short first read of less than one time step leaves a chunk length
    of zero, on which the grid cannot be built. *)
Theorem run_short_first_no_step (s : SHCPostProc) (f : velfile) :
  header_ok s f -> INR (chunkSize s) * sampleTimestep (cfg s) <> 0 ->
  (0 < NChunks s)%Z -> (0 < chunkSize s)%nat ->
  (0 < length (samples f) < NDOF_of s)%nat ->
  snd (postProcess s f) = Raise ZeroDivisionError.
Proof.
  intros Hh Hd HN HL [Hlo Hhi].
  rewrite postProcess_started; [|exact Hh|exact Hd].
  unfold bind at 1.
  replace (Z.to_nat (NChunks s)) with (S (Z.to_nat (NChunks s) - 1)) by lia.
  cbn [chunk_loop]. unfold bind at 1. unfold loop_body. unfold bind at 1.
  rewrite read_chunk_short_first.
  2:{ change (fid (started s f)) with (samples f).
      change (chunkSize (self (started s f))) with (chunkSize s). nia. }
  change (fid (started s f)) with (samples f).
  rewrite Nat.div_small by exact Hhi.
  rewrite freq_grid_zero by (simpl; lra). reflexivity.
Qed.

(** The lengths of the arrays after a short first chunk. *)
Lemma short_first_lengths (s : SHCPostProc) (f : velfile) (L' : nat) :
  run_ready s -> header_ok s f -> (0 < NChunks s)%Z ->
  length (samples f) = (L' * NDOF_of s)%nat ->
  (2 <= L' < chunkSize s)%nat ->
  length (oms_fft (self (fst (postProcess s f)))) = (L' / 2 + 1)%nat /\
  length (SHC_average (self (fst (postProcess s f)))) = (L' / 2 + 1)%nat /\
  length (SHC_smooth (self (fst (postProcess s f))))
  = Nat.max (L' / 2 + 1)
      (window_len (1 / (INR L' * sampleTimestep (cfg s))) (widthWin (cfg s))) /\
  length (SHC_smooth2 (self (fst (postProcess s f))))
  = Nat.max (L' / 2 + 1)
      (window_len (1 / (INR L' * sampleTimestep (cfg s))) (widthWin (cfg s))).
Proof.
  intros Hr Hh HN Hlen HL.
  assert (HND : (0 < NDOF_of s)%nat) by (unfold NDOF_of; pose proof (rr_atoms _ Hr); lia).
  assert (Hsl : short_len s f = L').
  { unfold short_len. rewrite Hlen. apply Nat.div_mul. lia. }
  rewrite (run_short_first s f L' Hr Hh HN Hlen HL).
  unfold short_final. cbn [fst self].
  change (oms_fft (set_SHC_error None (seeded _ _ _)))
    with (grid (short_len s f) (sampleTimestep (cfg s))).
  change (SHC_average (set_SHC_error None (seeded _ _ _)))
    with (chunk_raw (short_state s f) (samples f) (NDOF_of s)).
  change (SHC_smooth (set_SHC_error None (seeded _ _ _)))
    with (chunk_smooth (short_state s f) (samples f) (NDOF_of s)).
  change (SHC_smooth2 (set_SHC_error None (seeded _ _ _)))
    with (square (chunk_smooth (short_state s f) (samples f) (NDOF_of s))).
  rewrite grid_length, chunk_raw_length, square_length, chunk_smooth_length.
  change (chunkSize (short_state s f)) with (short_len s f).
  change (cfg (short_state s f)) with (cfg s).
  unfold chunk_df. change (chunkSize (short_state s f)) with (short_len s f).
  change (cfg (short_state s f)) with (cfg s).
  rewrite Hsl. repeat split; reflexivity.
Qed.

(** ** Runs on an empty file, and runs with both projections requested *)

Theorem run_empty (s : SHCPostProc) (f : velfile) :
  header_ok s f -> INR (chunkSize s) * sampleTimestep (cfg s) <> 0 ->
  samples f = [] -> (0 < NChunks s)%Z ->
  postProcess s f = (finalized (ended (NDOF_of s) 0 (started s f)), Ok tt).
Proof.
  intros Hh Hd He HN.
  rewrite postProcess_started; [|exact Hh|exact Hd].
  unfold bind.
  replace (Z.to_nat (NChunks s)) with (S (Z.to_nat (NChunks s) - 1)) by lia.
  cbn [chunk_loop]. unfold bind, loop_body, bind.
  rewrite read_chunk_empty by exact He.
  unfold ret. rewrite finalize_ok.
  - unfold ended, end_state. change (fid (started s f)) with (samples f).
    rewrite He. reflexivity.
  - cbn. lia.
Qed.

Lemma chunk_curves_both (w : world) (velArray : list R) (NDOF Nf : nat) :
  (in_plane (cfg (self w)) && out_of_plane (cfg (self w)))%bool = true ->
  ids_ok (cfg (self w)) ->
  NDOF = (3 * (NL (cfg (self w)) + NR (cfg (self w))))%nat ->
  (0 < chunkSize (self w))%nat ->
  Nf = (chunkSize (self w) / 2 + 1)%nat ->
  length velArray = (NDOF * chunkSize (self w))%nat ->
  chunk_curves velArray NDOF Nf w =
  ({| self := transformed (self w) velArray NDOF; fid := fid w;
      trace := trace w ++ [EvFFT] |}, Raise AttributeError).
Proof.
  intros Hb Hids HN HL HNf Hlen. unfold chunk_curves. unfold bind at 1.
  rewrite (transform_chunk_ok w velArray NDOF Nf Hids HN HL HNf Hlen).
  unfold bind at 1. rewrite project_chunk_both by exact Hb. reflexivity.
Qed.

Theorem run_both_flags (s : SHCPostProc) (f : velfile) :
  (in_plane (cfg s) && out_of_plane (cfg s))%bool = true ->
  ids_ok (cfg s) -> header_ok s f -> sampleTimestep (cfg s) <> 0 ->
  (0 < NChunks s)%Z -> (0 < chunkSize s * NDOF_of s <= length (samples f))%nat ->
  postProcess s f =
  ({| self := transformed (self (started s f))
                (firstn (chunkSize s * NDOF_of s) (samples f)) (NDOF_of s);
      fid := skipn (chunkSize s * NDOF_of s) (samples f);
      trace := [EvHeader; EvRead (chunkSize s * NDOF_of s); EvFFT] |},
   Raise AttributeError).
Proof.
  intros Hb Hids Hh Hdt HN [Hpos Hlen].
  assert (HL : (0 < chunkSize s)%nat) by nia.
  rewrite postProcess_started; [|exact Hh|].
  2:{ apply Rmult_integral_contrapositive_currified; [|exact Hdt]. apply not_0_INR. lia. }
  unfold bind at 1.
  replace (Z.to_nat (NChunks s)) with (S (Z.to_nat (NChunks s) - 1)) by lia.
  cbn [chunk_loop]. unfold bind at 1. unfold loop_body. unfold bind at 1.
  rewrite read_chunk_full by assumption.
  unfold process_chunk. unfold bind.
  rewrite chunk_curves_both; try reflexivity; try assumption.
  2:{ cbn [self after_read started].
      rewrite length_firstn, Nat.min_l by exact Hlen. apply Nat.mul_comm. }
  cbn [self fid trace after_read started app].
  rewrite length_firstn, Nat.min_l by exact Hlen. reflexivity.
Qed.

(** ** A window of one sample *)

Lemma window_size_one (df widthWin : R) :
  0 < widthWin -> widthWin <= df -> window_size df widthWin = 1%Z.
Proof.
  intros Hw Hle. unfold window_size.
  assert (Hdf : 0 < df) by lra.
  assert (Hq : 0 < widthWin / df <= 1).
  { split; [now apply Rdiv_lt_0_compat|].
    apply (Rmult_le_reg_r df); [exact Hdf|]. unfold Rdiv.
    rewrite Rmult_assoc, Rinv_l by lra. lra. }
  rewrite (Zceil_eq 1) by (simpl; lra). reflexivity.
Qed.

Lemma window_fits_one (s : SHCPostProc) :
  0 < widthWin (cfg s) -> widthWin (cfg s) <= chunk_df s -> window_fits s.
Proof.
  intros Hw Hle. unfold window_fits, window_len, kernel.
  rewrite window_size_one by assumption. simpl. lia.
Qed.

Lemma Scenario_object_ready (ip op : bool) (win : R) (N : Z) :
  (ip && op)%bool = false -> 0 < win -> run_ready (Scenario.object ip op win N).
Proof.
  intros Hd Hw. split; cbn.
  - repeat split; repeat constructor.
  - lia.
  - split; [reflexivity|]. repeat constructor.
  - lia.
  - lra.
  - exact Hw.
  - exact Hd.
Qed.

Lemma Scenario_obj_ready (N : Z) : run_ready (Scenario.obj N).
Proof. apply Scenario_object_ready; [reflexivity|lra]. Qed.

Lemma Scenario_object_fits (ip op : bool) (N : Z) :
  window_fits (Scenario.object ip op (1 / 16) N).
Proof.
  apply window_fits_one; unfold chunk_df; cbn; lra.
Qed.

Lemma Scenario_obj_fits (N : Z) : window_fits (Scenario.obj N).
Proof. apply Scenario_object_fits. Qed.

Lemma Scenario_file_header (ip op : bool) (win : R) (N : Z) (l : list R) :
  header_ok (Scenario.object ip op win N) (Scenario.file l).
Proof.
  split; [reflexivity|]. split; [cbn; lra|]. reflexivity.
Qed.

(** ** Windows that rounding does not change *)

Lemma ceil_stable_intro (r : R) (k : Z) :
  0 <= r -> IZR k - 1 < r * (1 - margin) -> r * (1 + margin) <= IZR k -> ceil_stable r.
Proof.
  intros H0 Hlo Hhi. unfold ceil_stable.
  assert (Hm : 0 < margin) by (unfold margin; lra).
  assert (r * (1 - margin) <= r * (1 + margin)) by nra.
  rewrite (Zceil_eq k), (Zceil_eq k) by lra. reflexivity.
Qed.

Lemma ceil_stable_Zceil (r : R) :
  0 <= r -> ceil_stable r -> Zceil r = Zceil (r * (1 + margin)).
Proof.
  intros H0 H. unfold ceil_stable in H.
  assert (Hm : 0 < margin < 1) by (unfold margin; lra).
  apply Z.le_antisymm.
  - apply Zceil_le. nra.
  - rewrite <- H. apply Zceil_le. nra.
Qed.

Lemma Scenario_window_stable (L : nat) (win : R) (k : Z) :
  0 < win ->
  IZR k - 1 < win * INR L * (1 - margin) -> win * INR L * (1 + margin) <= IZR k ->
  (0 < L)%nat ->
  window_stable (1 / (INR L * 1)) win.
Proof.
  intros Hw Hlo Hhi HL. unfold window_stable.
  assert (HL' : 0 < INR L) by (apply lt_0_INR; exact HL).
  replace (win / (1 / (INR L * 1))) with (win * INR L) by (field; lra).
  apply (ceil_stable_intro _ k); [nra|exact Hlo|exact Hhi].
Qed.

Lemma Scenario_obj_stable (N : Z) :
  window_stable (chunk_df (Scenario.obj N)) (widthWin (cfg (Scenario.obj N))).
Proof.
  apply (Scenario_window_stable 8 (1 / 16) 1); unfold margin; simpl; try lra. lia.
Qed.

(** A window width of 15/16 on the scenario: nine kernel samples on the
    grid of the full chunk (7.5 grid steps), five on the grid of a chunk of
    five time steps (4.6875 grid steps). *)
Lemma wide_window_len (L : nat) (k : Z) :
  (0 < L)%nat -> IZR k - 1 < 15 / 16 * INR L <= IZR k -> (1 <= k)%Z ->
  window_len (1 / (INR L * 1)) (15 / 16)
  = Z.to_nat (if (k mod 2 =? 0)%Z then k + 1 else k).
Proof.
  intros HL Hk Hk1. unfold window_len, kernel, window_size.
  assert (HL' : 0 < INR L) by (apply lt_0_INR; exact HL).
  replace (15 / 16 / (1 / (INR L * 1))) with (15 / 16 * INR L) by (field; lra).
  rewrite (Zceil_eq k) by exact Hk.
  rewrite gauss_window_length; [reflexivity|].
  destruct (k mod 2 =? 0)%Z; lia.
Qed.

(** * The claims *)

(** ** C4: an empty first read *)

(** C4, as stated, fails: on the scenario object with five chunks requested
    and a file that holds no sample, [postProcess] returns normally; no
    exception is raised. *)
Lemma C4_empty_file_returns :
  snd (postProcess (Scenario.obj 5) (Scenario.file [])) = Ok tt /\
  ~ (exists e, snd (postProcess (Scenario.obj 5) (Scenario.file [])) = Raise e).
Proof.
  assert (H : snd (postProcess (Scenario.obj 5) (Scenario.file [])) = Ok tt).
  { rewrite run_empty; try reflexivity.
    - apply Scenario_file_header.
    - cbn. lra. }
  split; [exact H|]. intros [e He]. rewrite H in He. discriminate.
Qed.

(** C4, amended: when the first read returns no sample (zero chunks
    completed) the run does not fail; it returns normally with the three
    running arrays still zero-filled over the grid of the configured chunk
    size and with no error estimate. *)
Theorem C4_empty_first_read (s : SHCPostProc) (f : velfile) :
  header_ok s f -> INR (chunkSize s) * sampleTimestep (cfg s) <> 0 ->
  samples f = [] -> (0 < NChunks s)%Z ->
  snd (postProcess s f) = Ok tt /\
  SHC_smooth (self (fst (postProcess s f))) = np.zeros (chunkSize s / 2 + 1) /\
  SHC_smooth2 (self (fst (postProcess s f))) = np.zeros (chunkSize s / 2 + 1) /\
  SHC_average (self (fst (postProcess s f))) = np.zeros (chunkSize s / 2 + 1) /\
  SHC_error (self (fst (postProcess s f))) = None /\
  trace (fst (postProcess s f)) = [EvHeader; EvRead 0].
Proof.
  intros Hh Hd He HN. rewrite (run_empty s f Hh Hd He HN).
  unfold ended, end_state, after_read. change (fid (started s f)) with (samples f).
  rewrite He, firstn_nil. cbn. repeat split; reflexivity.
Qed.

Lemma C4_empty_first_read_witness :
  snd (postProcess (Scenario.obj 5) (Scenario.file [])) = Ok tt /\
  SHC_smooth (self (fst (postProcess (Scenario.obj 5) (Scenario.file [])))) = np.zeros 5 /\
  SHC_smooth2 (self (fst (postProcess (Scenario.obj 5) (Scenario.file [])))) = np.zeros 5 /\
  SHC_average (self (fst (postProcess (Scenario.obj 5) (Scenario.file [])))) = np.zeros 5 /\
  SHC_error (self (fst (postProcess (Scenario.obj 5) (Scenario.file [])))) = None /\
  trace (fst (postProcess (Scenario.obj 5) (Scenario.file []))) = [EvHeader; EvRead 0].
Proof.
  apply (C4_empty_first_read (Scenario.obj 5) (Scenario.file [])).
  - apply Scenario_file_header.
  - cbn. lra.
  - reflexivity.
  - reflexivity.
Defined.

(** ** C2 and C5: the chunk count after the end of the file *)

Lemma run_full_trace (NDOF j : nat) :
  forall (k : nat) (w : world),
    trace (run_full NDOF j k w) =
    trace w ++ concat (repeat [EvRead (chunkSize (self w) * NDOF); EvFFT; EvSHC; EvFold] j).
Proof.
  induction j as [|j IH]; intros k w.
  - simpl. now rewrite app_nil_r.
  - cbn [run_full repeat concat]. rewrite IH.
    change (chunkSize (self (step_full NDOF k w))) with (chunkSize (self w)).
    cbn [step_full trace]. now rewrite <- app_assoc.
Qed.

Lemma run_full_folded (NDOF j k : nat) (w : world) :
  chunks_folded (run_full NDOF j k w) = (chunks_folded w + j)%nat.
Proof.
  unfold chunks_folded. rewrite run_full_trace, filter_app, length_app. f_equal.
  induction j as [|j IH]; [reflexivity|].
  cbn [repeat concat]. rewrite filter_app, length_app, IH. reflexivity.
Qed.

(** What [run_early_end] leaves in the object: the chunk count is one less
    than the number [j] of chunks that were folded in. *)
Lemma early_end_count (s : SHCPostProc) (f : velfile) (j : nat) :
  run_ready s -> window_fits s -> header_ok s f ->
  (j * (chunkSize s * NDOF_of s) <= length (samples f)
   < S j * (chunkSize s * NDOF_of s))%nat ->
  (j < Z.to_nat (NChunks s))%nat ->
  length (samples f) = (j * (chunkSize s * NDOF_of s))%nat \/ (0 < j)%nat ->
  snd (postProcess s f) = Ok tt /\
  NChunks (self (fst (postProcess s f))) = (Z.of_nat j - 1)%Z /\
  chunks_folded (fst (postProcess s f)) = j /\
  SHC_error (self (fst (postProcess s f))) =
  error_value (Z.of_nat j - 1)
    (SHC_smooth (self (after_chunks s f j))) (SHC_smooth2 (self (after_chunks s f j))).
Proof.
  intros Hr Hfit Hh Hlen Hj Hk.
  rewrite (run_early_end s f j Hr Hfit Hh Hlen Hj Hk).
  split; [reflexivity|].
  unfold finalized, ended, after_read, end_state. cbn [fst self fid trace].
  split; [|split].
  - destruct (fid (after_chunks s f j)); reflexivity.
  - unfold chunks_folded. cbn [trace]. rewrite filter_app, length_app. cbn.
    fold (chunks_folded (after_chunks s f j)). unfold after_chunks.
    rewrite run_full_folded. cbn. lia.
  - destruct (fid (after_chunks s f j)); reflexivity.
Qed.

(** The finalization itself follows the formula: with a chunk count
    [N > 1] the error is [sqrt((N/(N-1)) * (M2 - M^2) / N)] bin by bin, and
    with a chunk count of at most one there is none. *)
Lemma error_value_formula (N : Z) (smooth smooth2 : list R) :
  (1 < N)%Z ->
  error_value N smooth smooth2 =
  Some (map2 (fun m2 m => sqrt ((IZR N / (IZR N - 1)) * (m2 - m ^ 2) / IZR N))
             smooth2 smooth).
Proof.
  intros HN. unfold error_value. rewrite (proj2 (Z.ltb_lt 1 N) HN). f_equal.
  assert (HR : 0 < IZR N) by (apply IZR_lt; lia).
  unfold square. revert smooth; induction smooth2 as [|m2 l IH]; intros [|m l'];
    cbn [map map2]; try reflexivity.
  rewrite IH. f_equal. symmetry. apply sqrt_div_alt. exact HR.
Qed.

Lemma error_value_none (N : Z) (smooth smooth2 : list R) :
  (N <= 1)%Z -> error_value N smooth smooth2 = None.
Proof.
  intros HN. unfold error_value. now rewrite (proj2 (Z.ltb_ge 1 N) HN).
Qed.

(** C2, the code at the failing input: three full chunks of eight time
    steps and a partial chunk of five, with five chunks requested.  Three
    chunks are folded in, and the run reports a chunk count of two. *)
Theorem C2_partial_chunk_count_is_two :
  snd (postProcess (Scenario.obj 5) (Scenario.file (repeat 0 348))) = Ok tt /\
  chunks_folded (fst (postProcess (Scenario.obj 5) (Scenario.file (repeat 0 348)))) = 3%nat /\
  NChunks (self (fst (postProcess (Scenario.obj 5) (Scenario.file (repeat 0 348))))) = 2%Z.
Proof.
  destruct (early_end_count (Scenario.obj 5) (Scenario.file (repeat 0 348)) 3)
    as (H1 & H2 & H3 & _).
  - apply Scenario_obj_ready.
  - apply Scenario_obj_fits.
  - apply Scenario_file_header.
  - cbn [samples Scenario.file]. rewrite repeat_length. cbn. lia.
  - cbn. lia.
  - right. lia.
  - repeat split; assumption.
Qed.

(** C5, the code at the failing input: two full chunks and then the end of
    the file, with five chunks requested.  Two chunks are folded in, the
    chunk count becomes one, and no error estimate is formed. *)
Theorem C5_two_chunks_no_error :
  snd (postProcess (Scenario.obj 5) (Scenario.file (repeat 0 192))) = Ok tt /\
  chunks_folded (fst (postProcess (Scenario.obj 5) (Scenario.file (repeat 0 192)))) = 2%nat /\
  NChunks (self (fst (postProcess (Scenario.obj 5) (Scenario.file (repeat 0 192))))) = 1%Z /\
  SHC_error (self (fst (postProcess (Scenario.obj 5) (Scenario.file (repeat 0 192))))) = None.
Proof.
  destruct (early_end_count (Scenario.obj 5) (Scenario.file (repeat 0 192)) 2)
    as (H1 & H2 & H3 & H4).
  - apply Scenario_obj_ready.
  - apply Scenario_obj_fits.
  - apply Scenario_file_header.
  - cbn [samples Scenario.file]. rewrite repeat_length. cbn. lia.
  - cbn. lia.
  - right. lia.
  - repeat split; assumption.
Qed.

(** ** C8 and C9: a short read *)

(** C8, as stated, fails: a short first read of exactly one time step
    (12 samples for 12 degrees of freedom) ends in an [IndexError], and one
    that is not a whole number of time steps (17 samples) in a
    [ValueError]; neither run reports a chunk count or a grid.  And with a
    window width of 15/16 a short first read of five time steps (60
    samples) returns with a grid of three bins and smoothed arrays of five:
    the length of the grid is not the length of all reported outputs. *)
Lemma C8_short_first_read_raises :
  snd (postProcess (Scenario.obj 5) (Scenario.file (repeat 0 12))) = Raise IndexError /\
  snd (postProcess (Scenario.obj 5) (Scenario.file (repeat 0 17))) = Raise ValueError /\
  (snd (postProcess (Scenario.object false false (15 / 16) 5) (Scenario.file (repeat 0 60)))
   = Ok tt /\
   length (oms_fft (self (fst (postProcess (Scenario.object false false (15 / 16) 5)
                                 (Scenario.file (repeat 0 60)))))) = 3%nat /\
   length (SHC_smooth (self (fst (postProcess (Scenario.object false false (15 / 16) 5)
                                    (Scenario.file (repeat 0 60)))))) = 5%nat /\
   length (SHC_smooth2 (self (fst (postProcess (Scenario.object false false (15 / 16) 5)
                                     (Scenario.file (repeat 0 60)))))) = 5%nat).
Proof.
  split; [|split].
  - apply run_short_first_one_step.
    + apply Scenario_obj_ready.
    + apply Scenario_file_header.
    + reflexivity.
    + reflexivity.
  - apply run_short_first_ragged.
    + apply Scenario_file_header.
    + cbn. lia.
    + cbn. lra.
    + reflexivity.
    + cbn [samples Scenario.file]. rewrite repeat_length. cbn. lia.
    + cbn [samples Scenario.file]. rewrite repeat_length. cbn. lia.
  - assert (Hr : run_ready (Scenario.object false false (15 / 16) 5))
      by (apply Scenario_object_ready; [reflexivity|lra]).
    assert (Hh : header_ok (Scenario.object false false (15 / 16) 5)
                   (Scenario.file (repeat 0 60))) by apply Scenario_file_header.
    split.
    + rewrite (run_short_first _ _ 5 Hr Hh); [reflexivity|reflexivity|reflexivity|cbn; lia].
    + destruct (short_first_lengths _ _ 5 Hr Hh) as (H1 & _ & H3 & H4);
        [reflexivity|reflexivity|cbn; lia|].
      change (widthWin (cfg (Scenario.object false false (15 / 16) 5))) with (15 / 16)
        in H3, H4.
      change (sampleTimestep (cfg (Scenario.object false false (15 / 16) 5))) with 1
        in H3, H4.
      rewrite (wide_window_len 5 5) in H3, H4 by (simpl; lra || lia).
      repeat split; assumption.
Qed.

(** C8, amended: if the very first read is short and holds a whole number
    [L' >= 2] of time steps, the run takes [L'] as the chunk length,
    rebuilds the grid, of length [L'/2 + 1], seeds the raw average from the
    raw curve of that single chunk, which has the length of the grid,
    reports a chunk count of one (and no error estimate), and returns after
    that single read.  When the ratio of the window width to the new grid
    spacing is further than rounding from a whole number, the two smoothed
    arrays are seeded from the smoothed curve of the chunk and its square;
    they have the length of the grid when the kernel at the new spacing is
    no longer than the grid. *)
Theorem C8_short_first_chunk (s : SHCPostProc) (f : velfile) (L' : nat) :
  run_ready s -> header_ok s f -> (0 < NChunks s)%Z ->
  length (samples f) = (L' * NDOF_of s)%nat ->
  (2 <= L' < chunkSize s)%nat ->
  snd (postProcess s f) = Ok tt /\
  chunkSize (self (fst (postProcess s f))) = L' /\
  oms_fft (self (fst (postProcess s f))) = grid L' (sampleTimestep (cfg s)) /\
  length (oms_fft (self (fst (postProcess s f)))) = (L' / 2 + 1)%nat /\
  (exists (w2 : world) (c : list R * list R),
      chunk_curves (samples f) (NDOF_of s) (L' / 2 + 1)
        (after_read (chunkSize s * NDOF_of s) (short_state s f) (started s f))
      = (w2, Ok c) /\
      SHC_average (self (fst (postProcess s f))) = snd c /\
      length (snd c) = (L' / 2 + 1)%nat /\
      (window_stable (1 / (INR L' * sampleTimestep (cfg s))) (widthWin (cfg s)) ->
       SHC_smooth (self (fst (postProcess s f))) = fst c /\
       SHC_smooth2 (self (fst (postProcess s f))) = square (fst c) /\
       ((window_len (1 / (INR L' * sampleTimestep (cfg s))) (widthWin (cfg s))
         <= L' / 2 + 1)%nat ->
        length (SHC_smooth (self (fst (postProcess s f)))) = (L' / 2 + 1)%nat /\
        length (SHC_smooth2 (self (fst (postProcess s f)))) = (L' / 2 + 1)%nat))) /\
  NChunks (self (fst (postProcess s f))) = 1%Z /\
  SHC_error (self (fst (postProcess s f))) = None /\
  trace (fst (postProcess s f)) = [EvHeader; EvRead (length (samples f)); EvFFT; EvSHC].
Proof.
  intros Hr Hh HN Hlen HL.
  assert (HND : (0 < NDOF_of s)%nat) by (unfold NDOF_of; pose proof (rr_atoms _ Hr); lia).
  assert (Hsl : short_len s f = L').
  { unfold short_len. rewrite Hlen. apply Nat.div_mul. lia. }
  destruct (short_first_lengths s f L' Hr Hh HN Hlen HL) as (_ & _ & Hs1 & Hs2).
  revert Hs1 Hs2.
  rewrite (run_short_first s f L' Hr Hh HN Hlen HL).
  unfold short_final. cbn [fst snd self fid trace]. intros Hs1 Hs2.
  split; [reflexivity|]. split; [exact Hsl|].
  split; [change (grid (short_len s f) (sampleTimestep (cfg s))
                  = grid L' (sampleTimestep (cfg s))); now rewrite Hsl|].
  split; [change (length (grid (short_len s f) (sampleTimestep (cfg s)))
                  = (L' / 2 + 1)%nat); now rewrite grid_length, Hsl|].
  split; [|repeat split; reflexivity].
  eexists. eexists. split.
  - rewrite <- Hsl. apply chunk_curves_ok.
    + apply short_state_ready; [exact Hr|lia].
    + cbn [self after_read]. change (chunkSize (short_state s f)) with (short_len s f).
      rewrite Hsl. change (fid (started s f)) with (samples f). lia.
  - cbn [fst snd self after_read]. split; [reflexivity|]. split.
    + rewrite chunk_raw_length. change (chunkSize (short_state s f)) with (short_len s f).
      now rewrite Hsl.
    + intros _. split; [reflexivity|]. split; [reflexivity|].
      intros Hfit. rewrite Hs1, Hs2. lia.
Qed.

Lemma C8_short_first_chunk_witness :
  snd (postProcess (Scenario.obj 5) (Scenario.file (repeat 0 60))) = Ok tt /\
  chunkSize (self (fst (postProcess (Scenario.obj 5) (Scenario.file (repeat 0 60))))) = 5%nat /\
  length (oms_fft (self (fst (postProcess (Scenario.obj 5) (Scenario.file (repeat 0 60))))))
  = 3%nat /\
  NChunks (self (fst (postProcess (Scenario.obj 5) (Scenario.file (repeat 0 60))))) = 1%Z /\
  length (SHC_smooth (self (fst (postProcess (Scenario.obj 5) (Scenario.file (repeat 0 60))))))
  = 3%nat.
Proof.
  destruct (C8_short_first_chunk (Scenario.obj 5) (Scenario.file (repeat 0 60)) 5)
    as (H1 & H2 & _ & H4 & (w2 & c & _ & _ & _ & H5) & H6 & _).
  - apply Scenario_obj_ready.
  - apply Scenario_file_header.
  - reflexivity.
  - reflexivity.
  - cbn. lia.
  - destruct H5 as (_ & _ & H5).
    { apply (Scenario_window_stable 5 (1 / 16) 1); unfold margin; simpl; try lra. lia. }
    destruct H5 as (H5 & _).
    { unfold window_len, kernel. rewrite window_size_one by (cbn; lra). simpl. lia. }
    repeat split; assumption.
Defined.

(** C9, as stated, fails: a first read of 30 samples for 12 degrees of
    freedom (two time steps and a half) is refused by the reshape. *)
Lemma C9_ragged_first_read_raises :
  snd (postProcess (Scenario.obj 5) (Scenario.file (repeat 0 30))) = Raise ValueError.
Proof.
  apply run_short_first_ragged.
  - apply Scenario_file_header.
  - cbn. lia.
  - cbn. lra.
  - reflexivity.
  - cbn [samples Scenario.file]. rewrite repeat_length. cbn. lia.
  - cbn [samples Scenario.file]. rewrite repeat_length. cbn. lia.
Qed.

(** C9, amended: the run returns without raising when the short read comes
    after at least one full chunk (whatever its sample count, a multiple of
    the number of degrees of freedom or not) and the smoothing kernel, its
    number of samples not depending on rounding, is no longer than the
    grid; or when the short read is the first read and holds a whole number
    [L' >= 2] of time steps. *)
Theorem C9_short_read_completes (s : SHCPostProc) (f : velfile) :
  run_ready s -> header_ok s f ->
  (exists j : nat,
      window_stable (chunk_df s) (widthWin (cfg s)) /\ window_fits s /\
      (0 < j < Z.to_nat (NChunks s))%nat /\
      (j * (chunkSize s * NDOF_of s) < length (samples f)
       < S j * (chunkSize s * NDOF_of s))%nat)
  \/ (exists L' : nat,
         (0 < NChunks s)%Z /\ length (samples f) = (L' * NDOF_of s)%nat /\
         (2 <= L' < chunkSize s)%nat) ->
  snd (postProcess s f) = Ok tt.
Proof.
  intros Hr Hh [(j & _ & Hfit & Hj & Hlen)|(L' & HN & Hlen & HL)].
  - rewrite (run_early_end s f j); try assumption; try lia. reflexivity.
  - now rewrite (run_short_first s f L').
Qed.

Lemma C9_short_read_completes_witness :
  snd (postProcess (Scenario.obj 5) (Scenario.file (repeat 0 101))) = Ok tt.
Proof.
  apply C9_short_read_completes.
  - apply Scenario_obj_ready.
  - apply Scenario_file_header.
  - left. exists 1%nat. split; [apply Scenario_obj_stable|].
    split; [apply Scenario_obj_fits|].
    cbn [samples Scenario.file]. rewrite repeat_length. cbn. lia.
Defined.

(** ** What every run preserves

    A relation between the world before and after a step is a frame when
    it is reflexive and transitive, is kept by every assignment that leaves
    the configuration and the force constants alone, by the reads, by the
    projection, and by the events; the two spectral events ([EvSHC],
    [EvFold]) only need to keep it when both projections are not requested
    together, since they are not reached otherwise. *)

Lemma project_chunk_cfg (w : world) :
  cfg (self (fst (project_chunk w))) = cfg (self w).
Proof.
  unfold project_chunk, bind, get_self, lift, modify, ret, _differ_direction.
  destruct (in_plane (cfg (self w))), (out_of_plane (cfg (self w))); reflexivity.
Qed.

Lemma project_chunk_flags (w : world) :
  snd (project_chunk w) = Ok tt -> both_flags (cfg (self w)) = false.
Proof.
  unfold project_chunk, bind, get_self, lift, modify, ret, _differ_direction, both_flags.
  destruct (in_plane (cfg (self w))), (out_of_plane (cfg (self w))); cbn;
    intros H; try reflexivity; discriminate.
Qed.

Section Frames.

Variable P : world -> world -> Prop.
Hypothesis P_refl : forall w, P w w.
Hypothesis P_trans : forall a b c, P a b -> P b c -> P a c.
Hypothesis P_modify :
  forall w (g : SHCPostProc -> SHCPostProc),
    cfg (g (self w)) = cfg (self w) -> Kij (g (self w)) = Kij (self w) ->
    P w {| self := g (self w); fid := fid w; trace := trace w |}.
Hypothesis P_emit :
  forall w e, is_spectral e = false \/ both_flags (cfg (self w)) = false ->
              P w {| self := self w; fid := fid w; trace := trace w ++ [e] |}.
Hypothesis P_read : forall w n, P w (fst (fromfile n w)).
Hypothesis P_project : forall w, P w (fst (project_chunk w)).

Lemma frame_ret {A : Type} (a : A) : framed P (ret a).
Proof. intros w. apply P_refl. Qed.

Lemma frame_lift {A : Type} (r : res A) : framed P (lift r).
Proof. intros w. apply P_refl. Qed.

Lemma frame_get_self : framed P get_self.
Proof. intros w. apply P_refl. Qed.

Lemma frame_bind {A B : Type} (m : M A) (k : A -> M B) :
  framed P m -> (forall a, framed P (k a)) -> framed P (bind m k).
Proof.
  intros Hm Hk w. unfold bind. specialize (Hm w).
  destruct (m w) as [w1 [a|e]]; cbn [fst] in *; [|exact Hm].
  eapply P_trans; [exact Hm|apply Hk].
Qed.

Lemma frame_modify (g : SHCPostProc -> SHCPostProc) :
  (forall s, cfg (g s) = cfg s) -> (forall s, Kij (g s) = Kij s) -> framed P (modify g).
Proof. intros H1 H2 w. apply P_modify; [apply H1|apply H2]. Qed.

Lemma frame_emit (e : event) : is_spectral e = false -> framed P (emit e).
Proof. intros H w. apply P_emit. now left. Qed.

Lemma frame_fromfile (n : nat) : framed P (fromfile n).
Proof. intros w. apply P_read. Qed.

Ltac frame_step :=
  first [ apply frame_ret | apply frame_lift | apply frame_get_self
        | apply frame_fromfile
        | apply frame_emit; reflexivity
        | apply frame_modify; intros; reflexivity
        | apply frame_bind; [|intros] ].

Lemma frame_read_header (f : velfile) : framed P (read_header f).
Proof.
  unfold read_header. repeat frame_step.
  destruct (negb _); [frame_step|]. destruct (Req_dec_T _ _); frame_step.
Qed.

Lemma frame_transform_chunk (va : list R) (N Nf : nat) : framed P (transform_chunk va N Nf).
Proof. unfold transform_chunk, assign_velsL, assign_velsR. repeat frame_step. Qed.

Lemma frame_read_chunk (N k : nat) (loc : locals) : framed P (read_chunk N k loc).
Proof.
  unfold read_chunk. repeat frame_step.
  destruct (_ =? 0)%nat; [repeat frame_step|].
  destruct (negb _); [|frame_step].
  repeat frame_step; [destruct (N =? 0)%nat; frame_step|].
  destruct (0 <? k)%nat; repeat frame_step.
Qed.

Lemma frame_seed_chunk (a b : list R) : framed P (seed_chunk a b).
Proof. unfold seed_chunk. repeat frame_step. Qed.

Lemma frame_finalize : framed P finalize.
Proof. unfold finalize. repeat frame_step. Qed.

(** The curves of a chunk are only returned when the projection step has
    passed, that is when not both projections are requested. *)
Lemma frame_chunk_curves (va : list R) (N Nf : nat) (w : world) :
  P w (fst (chunk_curves va N Nf w)) /\
  (forall c, snd (chunk_curves va N Nf w) = Ok c ->
             both_flags (cfg (self (fst (chunk_curves va N Nf w)))) = false).
Proof.
  unfold chunk_curves, bind.
  pose proof (frame_transform_chunk va N Nf w) as H1.
  destruct (transform_chunk va N Nf w) as [w1 [[]|e]]; cbn [fst snd] in *;
    [|split; [exact H1|discriminate]].
  pose proof (P_project w1) as H2. pose proof (project_chunk_flags w1) as F2.
  pose proof (project_chunk_cfg w1) as C2.
  destruct (project_chunk w1) as [w2 [[]|e]]; cbn [fst snd] in *;
    [|split; [eapply P_trans; eassumption|discriminate]].
  specialize (F2 eq_refl). rewrite <- C2 in F2.
  assert (H12 : P w w2) by (eapply P_trans; eassumption).
  unfold get_self, lift, emit, ret.
  destruct (chunk_SHC (self w2) Nf) as [SHC|e]; cbn [fst snd];
    [|split; [exact H12|discriminate]].
  assert (H3 : P w {| self := self w2; fid := fid w2; trace := trace w2 ++ [EvSHC] |}).
  { eapply P_trans; [exact H12|]. apply P_emit. now right. }
  destruct (grid_spacing (oms_fft (self w2))) as [df|e]; cbn [fst snd];
    [|split; [exact H3|discriminate]].
  destruct (_smoothen SHC df (widthWin (cfg (self w2)))) as [S'|e]; cbn [fst snd];
    (split; [exact H3|]); [intros c _; exact F2|discriminate].
Qed.

Lemma frame_fold_chunk (k : nat) (a b : list R) (w : world) :
  both_flags (cfg (self w)) = false -> P w (fst (fold_chunk k a b w)).
Proof.
  intros F. unfold fold_chunk, bind, get_self, lift, modify, emit.
  destruct (running_mean k (SHC_smooth (self w)) a) as [m|e]; cbn [fst self fid trace];
    [|apply P_refl].
  pose proof (P_modify w (set_SHC_smooth m) eq_refl eq_refl) as H1.
  destruct (running_mean k (SHC_smooth2 (self w)) (square a)) as [m2|e];
    cbn [fst self fid trace]; [|exact H1].
  pose proof (P_modify _ (set_SHC_smooth2 m2) eq_refl eq_refl
              : P {| self := set_SHC_smooth m (self w); fid := fid w; trace := trace w |} _)
    as H2. cbn [self fid trace] in H2.
  destruct (running_mean k (SHC_average (self w)) b) as [av|e];
    cbn [fst self fid trace]; [|eapply P_trans; eassumption].
  pose proof (P_modify _ (set_SHC_average av) eq_refl eq_refl
              : P {| self := set_SHC_smooth2 m2 (set_SHC_smooth m (self w));
                     fid := fid w; trace := trace w |} _) as H3.
  cbn [self fid trace] in H3.
  eapply P_trans; [exact H1|]. eapply P_trans; [exact H2|].
  eapply P_trans; [exact H3|].
  apply (P_emit {| self := set_SHC_average av
                             (set_SHC_smooth2 m2 (set_SHC_smooth m (self w)));
                   fid := fid w; trace := trace w |} EvFold).
  right. exact F.
Qed.

Lemma frame_process_chunk (N k : nat) (loc : locals) (va : list R) :
  framed P (process_chunk N k loc va).
Proof.
  intros w. unfold process_chunk. unfold bind at 1.
  destruct (frame_chunk_curves va N (Nfreqs loc) w) as [H1 F1]. idtac.
  destruct (chunk_curves va N (Nfreqs loc) w) as [w1 [c|e]]; cbn [fst snd] in *;
    [|exact H1].
  specialize (F1 c eq_refl).
  destruct (negb (exitFlag loc)).
  - unfold bind. pose proof (frame_fold_chunk k (fst c) (snd c) w1 F1) as H2.
    destruct (fold_chunk k (fst c) (snd c) w1) as [w2 [[]|e]]; cbn [fst] in *;
      eapply P_trans; eassumption.
  - destruct (exitFlag loc && (k =? 0)%nat)%bool.
    + eapply P_trans; [exact H1|].
      apply (frame_bind (seed_chunk (fst c) (snd c)) (fun _ => ret Break));
        [apply frame_seed_chunk|intros; apply frame_ret].
    + exact H1.
Qed.

Lemma frame_loop_body (N k : nat) (loc : locals) : framed P (loop_body N k loc).
Proof.
  unfold loop_body. apply frame_bind; [apply frame_read_chunk|].
  intros [[[|] loc'] va].
  - apply frame_bind; [apply frame_process_chunk|intros; apply frame_ret].
  - apply frame_ret.
Qed.

Lemma frame_chunk_loop (n N : nat) : forall k loc, framed P (chunk_loop n N k loc).
Proof.
  induction n as [|n IH]; intros k loc; cbn [chunk_loop]; [apply frame_ret|].
  apply frame_bind; [apply frame_loop_body|].
  intros [[|] loc']; [apply IH|apply frame_ret].
Qed.

Lemma frame_postProcess_body (f : velfile) : framed P (postProcess_body f).
Proof.
  unfold postProcess_body.
  apply frame_bind; [apply frame_read_header|intros _].
  apply frame_bind; [apply frame_get_self|intros s].
  apply frame_bind; [apply frame_lift|intros oms].
  do 4 (apply frame_bind; [frame_step|intros _]).
  apply frame_bind; [apply frame_chunk_loop|intros _].
  apply frame_finalize.
Qed.

End Frames.

(** ** The force constants through a run *)

Lemma mapi_from_compose {A B D : Type} (g : nat -> B -> D) (h : nat -> A -> B)
      (l : list A) (i : nat) :
  mapi_from i g (mapi_from i h l) = mapi_from i (fun a x => g a (h a x)) l.
Proof.
  revert i; induction l as [|x l IH]; intros i; simpl; [reflexivity|]. now rewrite IH.
Qed.

Lemma zero_stride3_idem {A : Type} (z : A) (c : nat) (m : list (list A)) :
  np.zero_stride3 z c (np.zero_stride3 z c m) = np.zero_stride3 z c m.
Proof.
  unfold np.zero_stride3, mapi. rewrite mapi_from_compose. apply mapi_from_ext.
  intros a x. destruct (a mod 3 =? c)%nat; [|reflexivity]. now rewrite map_map.
Qed.

Lemma zero_stride3_two_idem {A : Type} (z : A) (m : list (list A)) :
  np.zero_stride3 z 1 (np.zero_stride3 z 0 (np.zero_stride3 z 1 (np.zero_stride3 z 0 m)))
  = np.zero_stride3 z 1 (np.zero_stride3 z 0 m).
Proof.
  unfold np.zero_stride3, mapi. rewrite !mapi_from_compose. apply mapi_from_ext.
  intros a x. destruct (a mod 3 =? 1)%nat, (a mod 3 =? 0)%nat;
    rewrite ?map_map; reflexivity.
Qed.

Lemma proj_idem {A : Type} (c : SHCConfig) (z : A) (m : list (list A)) :
  proj c z (proj c z m) = proj c z m.
Proof.
  unfold proj. destruct (in_plane c && negb (out_of_plane c))%bool.
  - apply zero_stride3_idem.
  - destruct (out_of_plane c && negb (in_plane c))%bool; [|reflexivity].
    apply zero_stride3_two_idem.
Qed.

Lemma Kframe_refl (w : world) : Kframe w w.
Proof. split; [reflexivity|now left]. Qed.

Lemma Kframe_trans (a b c : world) : Kframe a b -> Kframe b c -> Kframe a c.
Proof.
  intros [C1 K1] [C2 K2]. split; [congruence|].
  rewrite C1 in K2. destruct K1 as [K1|K1], K2 as [K2|K2]; rewrite K2, K1.
  - now left.
  - now right.
  - now right.
  - right. apply proj_idem.
Qed.

Lemma Kframe_project (w : world) : Kframe w (fst (project_chunk w)).
Proof.
  split; [apply project_chunk_cfg|].
  unfold project_chunk, bind, get_self, lift, modify, ret, _differ_direction, proj.
  destruct (in_plane (cfg (self w))), (out_of_plane (cfg (self w))); cbn;
    first [now left | now right].
Qed.

Theorem postProcess_Kframe (s : SHCPostProc) (f : velfile) :
  cfg (self (fst (postProcess s f))) = cfg s /\
  (Kij (self (fst (postProcess s f))) = Kij s \/
   Kij (self (fst (postProcess s f))) = proj (cfg s) 0 (Kij s)).
Proof.
  apply (frame_postProcess_body Kframe Kframe_refl Kframe_trans).
  - intros w g Hc Hk. split; [exact Hc|left; exact Hk].
  - intros w e _. split; [reflexivity|now left].
  - intros w n. split; [reflexivity|now left].
  - apply Kframe_project.
Qed.

(** ** The events of a run with both projections requested *)

Lemma quiet_refl (w : world) : quiet w w.
Proof. split; [reflexivity|]. exists []. split; [now rewrite app_nil_r|]. constructor. Qed.

Lemma quiet_trans (a b c : world) : quiet a b -> quiet b c -> quiet a c.
Proof.
  intros [C1 (l1 & T1 & F1)] [C2 (l2 & T2 & F2)]. split; [congruence|].
  exists (l1 ++ l2). split; [now rewrite T2, T1, app_assoc|].
  intros Hb. apply Forall_app. split; [now apply F1|]. apply F2. now rewrite C1.
Qed.

Lemma project_chunk_trace (w : world) : trace (fst (project_chunk w)) = trace w.
Proof.
  unfold project_chunk, bind, get_self, lift, modify, ret, _differ_direction.
  destruct (in_plane (cfg (self w))), (out_of_plane (cfg (self w))); reflexivity.
Qed.

Theorem postProcess_quiet (s : SHCPostProc) (f : velfile) :
  both_flags (cfg s) = true ->
  Forall (fun e => is_spectral e = false) (trace (fst (postProcess s f))).
Proof.
  intros Hb.
  assert (H : quiet {| self := s; fid := samples f; trace := [] |} (fst (postProcess s f))).
  { apply (frame_postProcess_body quiet quiet_refl quiet_trans).
    - intros w g Hc Hk. split; [exact Hc|]. exists []. cbn.
      split; [now rewrite app_nil_r|]. constructor.
    - intros w e He. split; [reflexivity|]. exists [e]. split; [reflexivity|].
      intros Hw. destruct He as [He|He]; [|congruence]. now constructor.
    - intros w n. split; [reflexivity|]. eexists. split; [reflexivity|].
      intros _. now constructor.
    - intros w. split; [apply project_chunk_cfg|]. exists [].
      rewrite project_chunk_trace, app_nil_r. split; [reflexivity|]. constructor. }
  destruct H as [_ (l & T & F)]. cbn in T. rewrite T. now apply F.
Qed.

(** ** C7: both projections requested *)

(** C7, as stated, fails: with both flags set and one full chunk in the
    file, the error is raised only after the header has been parsed and the
    chunk read and transformed; and on an empty file the run does not fail
    at all. *)
Lemma C7_both_flags_fail_late :
  both_flags (cfg (Scenario.object true true (1 / 16) 5)) = true /\
  snd (postProcess (Scenario.object true true (1 / 16) 5) (Scenario.file (repeat 0 96)))
  = Raise AttributeError /\
  trace (fst (postProcess (Scenario.object true true (1 / 16) 5)
                          (Scenario.file (repeat 0 96))))
  = [EvHeader; EvRead 96; EvFFT] /\
  snd (postProcess (Scenario.object true true (1 / 16) 5) (Scenario.file [])) = Ok tt.
Proof.
  split; [reflexivity|].
  rewrite run_both_flags.
  - split; [reflexivity|]. split; [reflexivity|].
    rewrite run_empty; try reflexivity.
    + apply Scenario_file_header.
    + cbn. lra.
  - reflexivity.
  - repeat split; repeat constructor.
  - apply Scenario_file_header.
  - cbn. lra.
  - reflexivity.
  - cbn [samples Scenario.file]. rewrite repeat_length. cbn. lia.
Qed.

(** C7, amended: with both projection flags set no spectral value is ever
    computed or folded in, on any file; the configuration error is raised
    when the first chunk reaches the projection step, after the header has
    been parsed and that chunk read and transformed, with the running
    arrays still zero and the force constants untouched. *)
Theorem C7_both_projections (s : SHCPostProc) (f : velfile) :
  both_flags (cfg s) = true ->
  Forall (fun e => is_spectral e = false) (trace (fst (postProcess s f))) /\
  (ids_ok (cfg s) -> header_ok s f -> sampleTimestep (cfg s) <> 0 ->
   (0 < NChunks s)%Z -> (0 < chunkSize s * NDOF_of s <= length (samples f))%nat ->
   snd (postProcess s f) = Raise AttributeError /\
   trace (fst (postProcess s f)) = [EvHeader; EvRead (chunkSize s * NDOF_of s); EvFFT] /\
   SHC_smooth (self (fst (postProcess s f))) = np.zeros (chunkSize s / 2 + 1) /\
   SHC_smooth2 (self (fst (postProcess s f))) = np.zeros (chunkSize s / 2 + 1) /\
   SHC_average (self (fst (postProcess s f))) = np.zeros (chunkSize s / 2 + 1) /\
   Kij (self (fst (postProcess s f))) = Kij s).
Proof.
  intros Hb. split; [now apply postProcess_quiet|].
  intros Hids Hh Hdt HN Hlen.
  rewrite (run_both_flags s f Hb Hids Hh Hdt HN Hlen).
  repeat split; reflexivity.
Qed.

Lemma C7_both_projections_witness :
  Forall (fun e => is_spectral e = false)
         (trace (fst (postProcess (Scenario.object true true (1 / 16) 5)
                                  (Scenario.file (repeat 0 96))))) /\
  snd (postProcess (Scenario.object true true (1 / 16) 5) (Scenario.file (repeat 0 96)))
  = Raise AttributeError.
Proof.
  destruct (C7_both_projections (Scenario.object true true (1 / 16) 5)
              (Scenario.file (repeat 0 96)) eq_refl) as [H1 H2].
  split; [exact H1|]. apply H2.
  - repeat split; repeat constructor.
  - apply Scenario_file_header.
  - cbn. lra.
  - reflexivity.
  - cbn [samples Scenario.file]. rewrite repeat_length. cbn. lia.
Defined.

(** ** C10: the force constants *)

(** C10, as stated, fails: with the in-plane projection active, one chunk
    suffices for [postProcess] to zero every third row of [Kij] in place;
    the matrix after the run is not the matrix as loaded. *)
Lemma C10_in_plane_rewrites_K :
  snd (postProcess (Scenario.object true false (1 / 16) 1) (Scenario.file (repeat 0 96)))
  = Ok tt /\
  Kij (self (fst (postProcess (Scenario.object true false (1 / 16) 1)
                              (Scenario.file (repeat 0 96)))))
  = np.zero_stride3 0 2 (Scenario.identity 6) /\
  Kij (self (fst (postProcess (Scenario.object true false (1 / 16) 1)
                              (Scenario.file (repeat 0 96)))))
  <> Kij (Scenario.object true false (1 / 16) 1).
Proof.
  rewrite run_all_chunks.
  - split; [reflexivity|].
    assert (E : Kij (self (fst (finalized
                  (after_chunks (Scenario.object true false (1 / 16) 1)
                     (Scenario.file (repeat 0 96))
                     (Z.to_nat (NChunks (Scenario.object true false (1 / 16) 1)))),
                Ok tt)))
                = np.zero_stride3 0 2 (Scenario.identity 6)) by reflexivity.
    split; [exact E|]. rewrite E. intros H.
    apply (f_equal (fun m => nth 2 (nth 2 m []) 0)) in H.
    cbn in H. lra.
  - apply Scenario_object_ready; [reflexivity|lra].
  - apply Scenario_object_fits.
  - apply Scenario_file_header.
  - cbn [samples Scenario.file]. rewrite repeat_length. cbn. lia.
Qed.

(** C10, amended: without a projection flag the force constants after
    [postProcess] are the force constants as loaded, on every run; with a
    projection active they are either still as loaded or have the projected
    rows zeroed in place (rows [2::3] in plane, rows [0::3] and [1::3] out
    of plane), the other entries keeping their values; nothing else in the
    run writes them, and the configuration is never changed. *)
Theorem C10_force_constants (s : SHCPostProc) (f : velfile) :
  cfg (self (fst (postProcess s f))) = cfg s /\
  (Kij (self (fst (postProcess s f))) = Kij s \/
   Kij (self (fst (postProcess s f))) = proj (cfg s) 0 (Kij s)) /\
  ((in_plane (cfg s) || out_of_plane (cfg s))%bool = false ->
   Kij (self (fst (postProcess s f))) = Kij s).
Proof.
  destruct (postProcess_Kframe s f) as [Hc Hk].
  split; [exact Hc|]. split; [exact Hk|].
  intros Hno. destruct Hk as [Hk|Hk]; [exact Hk|].
  rewrite Hk. unfold proj.
  destruct (in_plane (cfg s)), (out_of_plane (cfg s)); try discriminate. reflexivity.
Qed.

Lemma C10_force_constants_witness :
  Kij (self (fst (postProcess (Scenario.obj 5) (Scenario.file (repeat 0 348)))))
  = Scenario.identity 6.
Proof.
  apply (C10_force_constants (Scenario.obj 5) (Scenario.file (repeat 0 348))).
  reflexivity.
Defined.

(** ** C6: the running averages are arithmetic means *)

Lemma nth_mean_step (k : nat) (m x : list R) (i : nat) :
  (i < length m)%nat -> (i < length x)%nat ->
  nth i (mean_step k m x) 0 = (INR k * nth i m 0 + nth i x 0) / (INR k + 1).
Proof.
  intros Hm Hx. unfold mean_step.
  rewrite (nth_map_lt _ _ _ _ 0) by (rewrite map2_length, length_map; lia).
  rewrite (nth_map2 _ _ _ _ _ 0 0) by (rewrite ?length_map; lia).
  now rewrite (nth_map_lt _ _ _ _ 0) by lia.
Qed.

Lemma iter_mean_sum (n : nat) (xs : list (list R)) :
  forall (k : nat) (m : list R),
    length m = n -> Forall (fun x => length x = n) xs ->
    length (iter_mean k m xs) = n /\
    forall i, (i < n)%nat ->
      INR (k + length xs) * nth i (iter_mean k m xs) 0 =
      INR k * nth i m 0 + Rsum (map (fun x => nth i x 0) xs).
Proof.
  induction xs as [|x xs IH]; intros k m Hm Hxs.
  - split; [exact Hm|]. intros i Hi. simpl. rewrite Nat.add_0_r. lra.
  - inversion Hxs as [|? ? Hx Hxs']; subst. cbn [iter_mean].
    destruct (IH (S k) (mean_step k m x)) as [Hl Hs].
    + rewrite mean_step_length; congruence.
    + exact Hxs'.
    + split; [exact Hl|]. intros i Hi.
      replace (k + length (x :: xs))%nat with (S k + length xs)%nat by (simpl; lia).
      rewrite (Hs i Hi), nth_mean_step by lia.
      rewrite S_INR. unfold Rsum. cbn [map fold_right].
      pose proof (pos_INR k). field. lra.
Qed.

Lemma iter_mean_batch (n : nat) (xs : list (list R)) :
  xs <> [] -> Forall (fun x => length x = n) xs ->
  iter_mean 0 (np.zeros n) xs = batch_mean n xs.
Proof.
  intros Hne Hxs.
  destruct (iter_mean_sum n xs 0 (np.zeros n)) as [Hl Hs].
  { unfold np.zeros. apply repeat_length. }
  { exact Hxs. }
  apply (nth_ext _ _ 0 0).
  - unfold batch_mean. now rewrite Hl, length_map, length_seq.
  - intros i Hi. rewrite Hl in Hi. unfold batch_mean.
    rewrite (nth_map_lt _ _ _ _ 0%nat) by now rewrite length_seq.
    rewrite seq_nth by exact Hi. cbn [Nat.add].
    specialize (Hs i Hi). cbn [Nat.add INR] in Hs.
    assert (Hpos : 0 < INR (length xs)).
    { apply lt_0_INR. destruct xs; [contradiction|simpl; lia]. }
    apply (Rmult_eq_reg_l (INR (length xs))); [|lra].
    rewrite Hs. field. lra.
Qed.

Lemma fold_chunks_ok (n : nat) (cs : list (list R * list R)) :
  forall (k : nat) (w : world),
    Forall (fun c => length (fst c) = n /\ length (snd c) = n) cs ->
    length (SHC_smooth (self w)) = n ->
    length (SHC_smooth2 (self w)) = n ->
    length (SHC_average (self w)) = n ->
    snd (fold_chunks k cs w) = Ok tt /\
    SHC_smooth (self (fst (fold_chunks k cs w)))
    = iter_mean k (SHC_smooth (self w)) (map fst cs) /\
    SHC_smooth2 (self (fst (fold_chunks k cs w)))
    = iter_mean k (SHC_smooth2 (self w)) (map (fun c => square (fst c)) cs) /\
    SHC_average (self (fst (fold_chunks k cs w)))
    = iter_mean k (SHC_average (self w)) (map snd cs).
Proof.
  induction cs as [|c cs IH]; intros k w Hcs H1 H2 H3.
  - cbn. repeat split; reflexivity.
  - inversion Hcs as [|? ? [Hc1 Hc2] Hcs']; subst.
    cbn [fold_chunks map iter_mean]. unfold bind.
    rewrite fold_chunk_ok by congruence.
    apply IH.
    + exact Hcs'.
    + cbn [self]. rewrite folded_smooth, mean_step_length; congruence.
    + cbn [self]. rewrite folded_smooth2, mean_step_length;
        rewrite ?square_length; congruence.
    + cbn [self]. rewrite folded_average, mean_step_length; congruence.
Qed.

Lemma run_full_means (NDOF j : nat) :
  forall (k : nat) (w : world),
    SHC_smooth (self (run_full NDOF j k w))
    = iter_mean k (SHC_smooth (self w)) (map fst (run_curves NDOF j k w)) /\
    SHC_smooth2 (self (run_full NDOF j k w))
    = iter_mean k (SHC_smooth2 (self w))
        (map (fun c => square (fst c)) (run_curves NDOF j k w)) /\
    SHC_average (self (run_full NDOF j k w))
    = iter_mean k (SHC_average (self w)) (map snd (run_curves NDOF j k w)).
Proof.
  induction j as [|j IH]; intros k w; [repeat split; reflexivity|].
  cbn [run_full run_curves map iter_mean fst snd].
  destruct (IH (S k) (step_full NDOF k w)) as (H1 & H2 & H3).
  rewrite H1, H2, H3. repeat split; reflexivity.
Qed.

Lemma run_curves_lengths (NDOF Nf j : nat) :
  forall (k : nat) (w : world),
    loop_inv (self w) NDOF Nf ->
    Forall (fun c => length (fst c) = Nf /\ length (snd c) = Nf) (run_curves NDOF j k w).
Proof.
  induction j as [|j IH]; intros k w Hinv; cbn [run_curves]; constructor.
  - pose proof (rd_Nf _ _ _ (li_ready _ _ _ Hinv)) as HNf.
    pose proof (li_window _ _ _ Hinv) as Hw.
    cbn [fst snd]. rewrite chunk_smooth_length, chunk_raw_length. lia.
  - apply IH. now apply step_full_inv.
Qed.

(** In a run, after [j >= 1] full chunks, the three running arrays are the
    arithmetic means of the curves of those chunks. *)
Theorem after_chunks_means (s : SHCPostProc) (f : velfile) (j : nat) :
  run_ready s -> window_fits s -> (1 <= j)%nat ->
  let cs := run_curves (NDOF_of s) j 0 (started s f) in
  length cs = j /\
  SHC_smooth (self (after_chunks s f j)) = batch_mean (chunkSize s / 2 + 1) (map fst cs) /\
  SHC_smooth2 (self (after_chunks s f j))
  = batch_mean (chunkSize s / 2 + 1) (map (fun c => square (fst c)) cs) /\
  SHC_average (self (after_chunks s f j)) = batch_mean (chunkSize s / 2 + 1) (map snd cs).
Proof.
  intros Hr Hfit Hj cs.
  assert (Hlen : forall k w, length (run_curves (NDOF_of s) j k w) = j).
  { clear. induction j as [|j IH]; intros k w; cbn [run_curves length]; [reflexivity|].
    now rewrite IH. }
  split; [apply Hlen|].
  pose proof (run_curves_lengths (NDOF_of s) (chunkSize s / 2 + 1) j 0 (started s f)
                (started_inv s f Hr Hfit)) as Hcs.
  fold cs in Hcs.
  assert (Hne : cs <> []).
  { intros E. pose proof (Hlen 0%nat (started s f)) as Hl. fold cs in Hl.
    rewrite E in Hl. simpl in Hl. lia. }
  assert (Hm : forall {A} (g : A -> list R) (l : list A), l <> [] -> map g l <> []).
  { intros A g [|a l] H; [contradiction|discriminate]. }
  unfold after_chunks.
  destruct (run_full_means (NDOF_of s) j 0 (started s f)) as (H1 & H2 & H3).
  fold cs in H1, H2, H3. rewrite H1, H2, H3.
  repeat split; apply iter_mean_batch; try (apply Hm; exact Hne);
    apply Forall_map; (eapply Forall_impl; [|exact Hcs]); cbn; intros c [Ha Hb];
    rewrite ?square_length; assumption.
Qed.

(** C6: for every non-empty sequence of chunk curves of the grid length,
    folded in by the incremental update from zero arrays at count zero, the
    three running arrays end as the elementwise arithmetic means of the
    smoothed curves, of their squares and of the raw curves. *)
Theorem C6_running_mean_is_batch_mean (n : nat) (cs : list (list R * list R)) (w : world) :
  cs <> [] ->
  Forall (fun c => length (fst c) = n /\ length (snd c) = n) cs ->
  SHC_smooth (self w) = np.zeros n ->
  SHC_smooth2 (self w) = np.zeros n ->
  SHC_average (self w) = np.zeros n ->
  snd (fold_chunks 0 cs w) = Ok tt /\
  SHC_smooth (self (fst (fold_chunks 0 cs w))) = batch_mean n (map fst cs) /\
  SHC_smooth2 (self (fst (fold_chunks 0 cs w)))
  = batch_mean n (map (fun c => square (fst c)) cs) /\
  SHC_average (self (fst (fold_chunks 0 cs w))) = batch_mean n (map snd cs).
Proof.
  intros Hne Hcs H1 H2 H3.
  destruct (fold_chunks_ok n cs 0 w Hcs) as (R0 & R1 & R2 & R3);
    try (rewrite ?H1, ?H2, ?H3; unfold np.zeros; apply repeat_length).
  rewrite R1, R2, R3, H1, H2, H3.
  split; [exact R0|].
  assert (Hm : forall {A} (g : A -> list R) (l : list A), l <> [] -> map g l <> []).
  { intros A g [|a l] H; [contradiction|discriminate]. }
  repeat split; apply iter_mean_batch; try (apply Hm; exact Hne);
    apply Forall_map; (eapply Forall_impl; [|exact Hcs]); cbn; intros c [Ha Hb];
    rewrite ?square_length; assumption.
Qed.

Lemma C6_running_mean_is_batch_mean_witness :
  snd (fold_chunks 0 [([1; 2], [3; 4]); ([5; 8], [7; 0])] two_bin_world) = Ok tt /\
  SHC_smooth (self (fst (fold_chunks 0 [([1; 2], [3; 4]); ([5; 8], [7; 0])] two_bin_world)))
  = batch_mean 2 [[1; 2]; [5; 8]] /\
  SHC_smooth2 (self (fst (fold_chunks 0 [([1; 2], [3; 4]); ([5; 8], [7; 0])] two_bin_world)))
  = batch_mean 2 [square [1; 2]; square [5; 8]] /\
  SHC_average (self (fst (fold_chunks 0 [([1; 2], [3; 4]); ([5; 8], [7; 0])] two_bin_world)))
  = batch_mean 2 [[3; 4]; [7; 0]].
Proof.
  apply (C6_running_mean_is_batch_mean 2 [([1; 2], [3; 4]); ([5; 8], [7; 0])]).
  - discriminate.
  - repeat constructor.
  - reflexivity.
  - reflexivity.
  - reflexivity.
Defined.

(** ** C1: the spectral curve of a chunk *)

Lemma nth_raw_curve (s : SHCPostProc) (Nf i : nat) :
  (i < Nf)%nat ->
  nth i (raw_curve s Nf) 0 =
  (if (i =? 0)%nat then 0 else bin_value s i)
  / (INR (chunkSize s) * sampleTimestep (cfg s)) * scaleFactor (cfg s).
Proof.
  intros Hi. unfold raw_curve.
  rewrite (nth_map_lt _ _ _ _ 0%nat) by now rewrite length_seq.
  now rewrite seq_nth by exact Hi.
Qed.

(** C1: a chunk that can be processed yields a raw curve whose bin
    [i >= 1] is [-2 * Im(V_L[:,i]^t . K . conj(V_R[:,i])) / omega[i]], divided
    by [chunkSize * sampleTimestep] and multiplied by the scale factor, where
    [V_L], [V_R] are the rows of the scaled transform of the de-interleaved
    chunk that belong to the left and right atoms, and [K], [V_L], [V_R] are
    taken after the projection, if one is active. *)
Theorem C1_chunk_spectral_curve (w : world) (velArray : list R) (NDOF Nf : nat) :
  chunk_ready (self w) NDOF Nf ->
  length velArray = (NDOF * chunkSize (self w))%nat ->
  exists (w' : world) (SHC SHC_orig : list R),
    chunk_curves velArray NDOF Nf w = (w', Ok (SHC, SHC_orig)) /\
    velsL (self w')
    = proj (cfg (self w)) C0
        (side_rows (fft_rows velArray NDOF (chunkSize (self w))
                      (sampleTimestep (cfg (self w)))) (ids_L (cfg (self w)))) /\
    velsR (self w')
    = proj (cfg (self w)) C0
        (side_rows (fft_rows velArray NDOF (chunkSize (self w))
                      (sampleTimestep (cfg (self w)))) (ids_R (cfg (self w)))) /\
    Kij (self w') = proj (cfg (self w)) 0 (Kij (self w)) /\
    length SHC_orig = Nf /\
    forall i, (1 <= i < Nf)%nat ->
      nth i (oms_fft (self w)) 0
      = INR i * (1 / (INR (chunkSize (self w)) * sampleTimestep (cfg (self w)))) * 2 * PI /\
      nth i SHC_orig 0 =
      -2 * Cim (bilinear (velsL (self w')) (Kij (self w')) (velsR (self w')) i)
      / nth i (oms_fft (self w)) 0
      / (INR (chunkSize (self w)) * sampleTimestep (cfg (self w)))
      * scaleFactor (cfg (self w)).
Proof.
  intros Hrd Hlen.
  eexists. eexists. eexists.
  split; [apply (chunk_curves_ok w velArray NDOF Nf Hrd Hlen)|].
  cbn [self].
  split; [reflexivity|]. split; [reflexivity|]. split; [reflexivity|].
  pose proof (rd_Nf _ _ _ Hrd) as HNf. pose proof (rd_oms _ _ _ Hrd) as Homs.
  split; [rewrite chunk_raw_length; now rewrite HNf|].
  intros i [Hi1 Hi2]. split.
  - rewrite Homs. apply nth_grid. now rewrite <- HNf.
  - unfold chunk_raw. rewrite nth_raw_curve by (now rewrite <- HNf).
    replace (i =? 0)%nat with false by (symmetry; apply Nat.eqb_neq; lia).
    reflexivity.
Qed.

Lemma C1_chunk_spectral_curve_witness :
  exists (w' : world) (SHC SHC_orig : list R),
    chunk_curves (repeat 1 96) 12 5
      (started (Scenario.obj 5) (Scenario.file (repeat 1 96))) = (w', Ok (SHC, SHC_orig)) /\
    length SHC_orig = 5%nat /\
    forall i, (1 <= i < 5)%nat ->
      nth i SHC_orig 0 =
      -2 * Cim (bilinear (velsL (self w')) (Kij (self w')) (velsR (self w')) i)
      / (INR i * (1 / (INR 8 * 1)) * 2 * PI) / (INR 8 * 1) * 1.
Proof.
  destruct (C1_chunk_spectral_curve
              (started (Scenario.obj 5) (Scenario.file (repeat 1 96)))
              (repeat 1 96) 12 5)
    as (w' & SHC & SHC_orig & H1 & _ & _ & _ & H5 & H6).
  - apply (started_inv (Scenario.obj 5) (Scenario.file (repeat 1 96))).
    + apply Scenario_obj_ready.
    + apply Scenario_obj_fits.
  - reflexivity.
  - exists w', SHC, SHC_orig. split; [exact H1|]. split; [exact H5|].
    intros i Hi. destruct (H6 i Hi) as [Hw Hv]. rewrite Hv, Hw. reflexivity.
Defined.

(** ** C3: the zero-frequency bin *)

Lemma started_ready (s : SHCPostProc) (f : velfile) :
  run_ready s -> chunk_ready (self (started s f)) (NDOF_of s) (chunkSize s / 2 + 1).
Proof.
  intros [Hids Hat HK HL Hdt Hw Hdir]. unfold started, NDOF_of. cbn [self].
  split; try assumption; reflexivity.
Qed.

Lemma raw_curve_bin0 (s : SHCPostProc) (Nf : nat) :
  (0 < Nf)%nat -> nth 0 (raw_curve s Nf) 0 = 0.
Proof.
  intros H. rewrite nth_raw_curve by exact H. cbn [Nat.eqb]. unfold Rdiv. ring.
Qed.

Lemma Rsum_pos (l : list R) :
  l <> [] -> Forall (fun x => 0 < x) l -> 0 < Rsum l.
Proof.
  intros Hne H. induction H as [|x l Hx Hl IH]; [contradiction|].
  cbn [Rsum fold_right]. destruct l as [|y l].
  - cbn. lra.
  - assert (0 < Rsum (y :: l)) by (apply IH; discriminate). unfold Rsum in *. lra.
Qed.

(** Every sample of the kernel is positive. *)
Lemma gauss_window_pos (g : Z) :
  (1 <= g)%Z -> Forall (fun x => 0 < x) (gauss_window g).
Proof.
  intros Hg. unfold gauss_window. destruct (Z.eqb_spec g 1) as [_|Hne].
  - constructor; [lra|constructor].
  - set (e := map (fun x => exp (- (x * x) / 2)) _).
    assert (He : Forall (fun x => 0 < x) e).
    { unfold e. apply Forall_map, Forall_forall. intros x _. apply exp_pos. }
    assert (Hs : 0 < Rsum e).
    { apply Rsum_pos; [|exact He]. unfold e, np.arange.
      intros E. apply (f_equal (@length R)) in E.
      rewrite !length_map, length_seq in E. simpl in E. lia. }
    apply Forall_map. eapply Forall_impl; [|exact He].
    intros x Hx. cbn. now apply Rdiv_lt_0_compat.
Qed.

(** With a kernel of three samples, bin 0 of the smoothed curve takes in
    bin 1 of the raw curve. *)
Lemma smooth_bin0_three (r0 r1 r2 g0 g1 g2 : R) (rest : list R) :
  nth 0 (smooth_curve (r0 :: r1 :: r2 :: rest) [g0; g1; g2]) 0 = g0 * r1 + g1 * r0.
Proof.
  unfold smooth_curve.
  replace (Nat.min (length (r0 :: r1 :: r2 :: rest)) (length [g0; g1; g2])) with 3%nat
    by (cbn [length]; lia).
  replace (Nat.max (length (r0 :: r1 :: r2 :: rest)) (length [g0; g1; g2]))
    with (S (S (S (length rest)))) by (cbn [length]; lia).
  change ((3 - 1) / 2)%nat with 1%nat. cbn [seq map nth Nat.add].
  unfold np.conv_at, mapi. cbn. ring.
Qed.

Lemma small_obj_ready : run_ready small_obj.
Proof.
  split; cbn.
  - repeat split; repeat constructor.
  - lia.
  - split; [reflexivity|]. repeat constructor.
  - lia.
  - lra.
  - lra.
  - reflexivity.
Qed.

Lemma small_window_three :
  window_size (chunk_df (self (started small_obj small_file))) (widthWin small_config)
  = 3%Z.
Proof.
  unfold window_size, chunk_df. cbn.
  rewrite (Zceil_eq 2); [reflexivity|]. simpl. lra.
Qed.

Lemma small_bilinear_bin1 :
  Cim (bilinear
         (velsL (chunk_state (self (started small_obj small_file)) small_chunk 6))
         (Kij (chunk_state (self (started small_obj small_file)) small_chunk 6))
         (velsR (chunk_state (self (started small_obj small_file)) small_chunk 6)) 1) = 1.
Proof.
  cbv [chunk_state projected transformed proj started small_obj small_file small_config
       small_chunk small_K
       self cfg velsL velsR Kij set_velsL set_velsR set_Kij set_SHC_average set_SHC_smooth
       set_SHC_smooth2 set_oms_fft
       chunkSize sampleTimestep in_plane out_of_plane ids_L ids_R andb negb
       bilinear side_rows fft_rows np.rfft_row np.rfft_bin mapi mapi_from
       map seq length nth Nat.div Nat.divmod Nat.modulo Nat.add Nat.mul fst snd upd repeat
       Nat.sub Csum fold_right Cadd Cmul Cscale Cconj Cre Cim C0].
  replace (2 * PI * INR 1 * INR 0 / INR 4) with 0 by (simpl; field).
  replace (2 * PI * INR 1 * INR 1 / INR 4) with (PI / 2) by (simpl; field).
  rewrite cos_0, sin_0, cos_PI2, sin_PI2. ring.
Qed.

Lemma small_raw_bin1 :
  nth 1 (chunk_raw (self (started small_obj small_file)) small_chunk 6) 0 = - (1 / PI).
Proof.
  unfold chunk_raw. rewrite nth_raw_curve by (cbn; lia). cbn [Nat.eqb].
  unfold bin_value. rewrite small_bilinear_bin1.
  change (oms_fft (chunk_state (self (started small_obj small_file)) small_chunk 6))
    with (grid 4 1).
  rewrite nth_grid by (cbn; lia).
  cbn [chunkSize chunk_state projected transformed self started small_obj cfg sampleTimestep
       scaleFactor small_config set_velsR set_velsL set_Kij set_SHC_average set_SHC_smooth2
       set_SHC_smooth set_oms_fft].
  simpl INR. pose proof PI_neq0. field. assumption.
Qed.

(** C3, as stated, fails for the smoothed curve: on the small chunk, whose
    window has three samples, bin 0 of the raw curve is zero and bin 0 of
    the smoothed curve is not. *)
Lemma C3_smoothed_bin0_not_zero :
  exists (w' : world) (SHC SHC_orig : list R),
    chunk_curves small_chunk 6 3 (started small_obj small_file) = (w', Ok (SHC, SHC_orig)) /\
    nth 0 SHC_orig 0 = 0 /\
    nth 0 SHC 0 <> 0.
Proof.
  eexists. eexists. eexists.
  split; [apply chunk_curves_ok|].
  - apply (started_ready small_obj small_file small_obj_ready).
  - reflexivity.
  - split; [apply raw_curve_bin0; cbn; lia|].
    unfold chunk_smooth, kernel.
    change (cfg (self (started small_obj small_file))) with small_config.
    rewrite small_window_three.
    pose proof (gauss_window_pos 3 ltac:(lia)) as Hpos.
    pose proof (gauss_window_length 3 ltac:(lia)) as Hlen.
    destruct (gauss_window 3) as [|g0 [|g1 [|g2 [|g3 gs]]]]; try discriminate.
    pose proof small_raw_bin1 as H1.
    pose proof (raw_curve_bin0 (chunk_state (self (started small_obj small_file))
                                  small_chunk 6) 3 ltac:(lia)) as H0.
    pose proof (chunk_raw_length (self (started small_obj small_file)) small_chunk 6) as Hl.
    unfold chunk_raw in *.
    destruct (raw_curve _ _) as [|r0 [|r1 [|r2 rest]]]; try discriminate.
    cbn [nth] in H0, H1. rewrite smooth_bin0_three. subst r0 r1.
    inversion Hpos as [|? ? Hg0 _]; subst.
    assert (0 < 1 / PI) by (apply Rdiv_lt_0_compat; [lra|apply PI_RGT_0]).
    nra.
Qed.

(** C3, amended: bin 0 of the raw (un-smoothed, normalized) curve of every
    chunk is exactly zero; when the ratio of the window width to the grid
    spacing is further than rounding from a whole number, bin 0 of the
    smoothed curve is the convolution of the raw curve with the kernel at
    the centre offset, which is zero when the window resolves to one sample
    (the smoothed curve is then the raw curve) and takes in the
    neighbouring bins otherwise. *)
Theorem C3_zero_bin (w : world) (velArray : list R) (NDOF Nf : nat) :
  chunk_ready (self w) NDOF Nf ->
  length velArray = (NDOF * chunkSize (self w))%nat ->
  exists (w' : world) (SHC SHC_orig : list R),
    chunk_curves velArray NDOF Nf w = (w', Ok (SHC, SHC_orig)) /\
    nth 0 SHC_orig 0 = 0 /\
    (window_stable (chunk_df (self w)) (widthWin (cfg (self w))) ->
     nth 0 SHC 0
     = np.conv_at SHC_orig (kernel (chunk_df (self w)) (widthWin (cfg (self w))))
         ((Nat.min Nf (window_len (chunk_df (self w)) (widthWin (cfg (self w)))) - 1) / 2) /\
     (window_size (chunk_df (self w)) (widthWin (cfg (self w))) = 1%Z ->
      SHC = SHC_orig /\ nth 0 SHC 0 = 0)).
Proof.
  intros Hrd Hlen.
  eexists. eexists. eexists.
  split; [apply (chunk_curves_ok w velArray NDOF Nf Hrd Hlen)|].
  pose proof (rd_Nf _ _ _ Hrd) as HNf.
  assert (H0 : nth 0 (chunk_raw (self w) velArray NDOF) 0 = 0).
  { apply raw_curve_bin0. lia. }
  split; [exact H0|]. intros _. split.
  - unfold chunk_smooth, smooth_curve.
    rewrite (nth_map_lt _ _ _ _ 0%nat).
    2:{ rewrite length_seq, chunk_raw_length. lia. }
    rewrite seq_nth by (rewrite chunk_raw_length; lia).
    cbn [Nat.add]. rewrite chunk_raw_length, HNf. reflexivity.
  - intros Hone.
    assert (E : chunk_smooth (self w) velArray NDOF = chunk_raw (self w) velArray NDOF).
    { unfold chunk_smooth, kernel. rewrite Hone. cbn [gauss_window Z.eqb Pos.eqb].
      apply smooth_curve_identity. rewrite chunk_raw_length. lia. }
    rewrite E. split; [reflexivity|exact H0].
Qed.

Lemma C3_zero_bin_witness :
  exists (w' : world) (SHC SHC_orig : list R),
    chunk_curves (repeat 1 96) 12 5
      (started (Scenario.obj 5) (Scenario.file (repeat 1 96))) = (w', Ok (SHC, SHC_orig)) /\
    nth 0 SHC_orig 0 = 0 /\ nth 0 SHC 0 = 0.
Proof.
  destruct (C3_zero_bin (started (Scenario.obj 5) (Scenario.file (repeat 1 96)))
              (repeat 1 96) 12 5)
    as (w' & SHC & SHC_orig & H1 & H2 & H3).
  - apply (started_ready (Scenario.obj 5) (Scenario.file (repeat 1 96))).
    apply Scenario_obj_ready.
  - reflexivity.
  - exists w', SHC, SHC_orig. split; [exact H1|]. split; [exact H2|].
    apply H3; [apply (Scenario_obj_stable 5)|].
    apply window_size_one; unfold chunk_df; cbn; lra.
Defined.

(** * Further properties of a run *)

(** ** Runs that find every requested chunk *)

Lemma after_chunks_folded (s : SHCPostProc) (f : velfile) (j : nat) :
  chunks_folded (after_chunks s f j) = j.
Proof. unfold after_chunks. rewrite run_full_folded. reflexivity. Qed.

(** X1: when the file holds at least the requested number of full chunks
    and the smoothing kernel, its number of samples not depending on
    rounding, is no longer than the grid, the run (without backup) returns,
    folds exactly that number of chunks into the running averages, keeps
    the chunk count, the chunk size and the grid, leaves the rest of the
    file unread, and gives an error estimate exactly when more than one
    chunk was requested. *)
Theorem X1_all_chunks_found (s : SHCPostProc) (f : velfile) :
  run_ready s -> window_stable (chunk_df s) (widthWin (cfg s)) -> window_fits s ->
  header_ok s f ->
  (Z.to_nat (NChunks s) * (chunkSize s * NDOF_of s) <= length (samples f))%nat ->
  snd (postProcess s f) = Ok tt /\
  chunks_folded (fst (postProcess s f)) = Z.to_nat (NChunks s) /\
  NChunks (self (fst (postProcess s f))) = NChunks s /\
  chunkSize (self (fst (postProcess s f))) = chunkSize s /\
  oms_fft (self (fst (postProcess s f))) = grid (chunkSize s) (sampleTimestep (cfg s)) /\
  fid (fst (postProcess s f))
  = skipn (Z.to_nat (NChunks s) * (chunkSize s * NDOF_of s)) (samples f) /\
  (SHC_error (self (fst (postProcess s f))) = None <-> (NChunks s <= 1)%Z).
Proof.
  intros Hr _ Hfit Hh Hlen. rewrite (run_all_chunks s f Hr Hfit Hh Hlen).
  destruct (after_chunks_facts s f (Z.to_nat (NChunks s)) Hr Hfit)
    as (I1 & I2 & I3 & I4 & I5 & I6 & I7).
  cbn [fst snd]. unfold finalized. cbn [self fid trace].
  split; [reflexivity|]. split.
  { unfold chunks_folded. cbn [trace]. apply after_chunks_folded. }
  split; [exact I3|]. split; [exact I4|]. split; [exact I5|]. split; [exact I7|].
  cbn. rewrite I3. unfold error_value.
  destruct (Z.ltb_spec 1 (NChunks s)); split; intros H'; try reflexivity;
    try discriminate; lia.
Qed.

Lemma X1_all_chunks_found_witness :
  snd (postProcess (Scenario.obj 2) (Scenario.file (repeat 0 200))) = Ok tt /\
  chunks_folded (fst (postProcess (Scenario.obj 2) (Scenario.file (repeat 0 200)))) = 2%nat /\
  NChunks (self (fst (postProcess (Scenario.obj 2) (Scenario.file (repeat 0 200))))) = 2%Z /\
  fid (fst (postProcess (Scenario.obj 2) (Scenario.file (repeat 0 200)))) = repeat 0 8.
Proof.
  destruct (X1_all_chunks_found (Scenario.obj 2) (Scenario.file (repeat 0 200)))
    as (H1 & H2 & H3 & _ & _ & H6 & _).
  - apply Scenario_obj_ready.
  - apply Scenario_obj_stable.
  - apply Scenario_obj_fits.
  - apply Scenario_file_header.
  - cbn [samples Scenario.file]. rewrite repeat_length. cbn. lia.
  - repeat split; assumption.
Defined.

(** ** The error estimate as a standard error *)


Lemma Rsum_sq_nonneg {A : Type} (g : A -> R) (l : list A) :
  0 <= Rsum (map (fun x => g x ^ 2) l).
Proof.
  induction l as [|x l IH]; [simpl; lra|].
  unfold Rsum in *. cbn [map fold_right]. pose proof (pow2_ge_0 (g x)). lra.
Qed.



Lemma run_curves_length (NDOF j : nat) :
  forall k w, length (run_curves NDOF j k w) = j.
Proof.
  induction j as [|j IH]; intros k w; cbn [run_curves length]; [reflexivity|].
  now rewrite IH.
Qed.








(** ** The header checks *)

Lemma check_ids_Ok (js : list nat) (inds arr : list Z) :
  check_ids js inds arr = Ok tt <->
  Forall (fun j => exists a b, nth_error inds j = Some a /\ nth_error arr j = Some b /\
                               (a + 1)%Z = b) js.
Proof.
  induction js as [|j js IH]; cbn [check_ids].
  - split; [constructor|reflexivity].
  - destruct (nth_error inds j) as [a|] eqn:Ea, (nth_error arr j) as [b|] eqn:Eb.
    + destruct (Z.eqb_spec (a + 1) b) as [E|E].
      * rewrite IH. split.
        -- intros H. constructor; [exists a, b; auto|exact H].
        -- intros H. now inversion H.
      * split; [discriminate|]. intros H. inversion H as [|? ? (a' & b' & Ha & Hb & Hab) _].
        congruence.
    + split; [discriminate|]. intros H. inversion H as [|? ? (a' & b' & Ha & Hb & Hab) _].
      congruence.
    + split; [discriminate|]. intros H. inversion H as [|? ? (a' & b' & Ha & Hb & Hab) _].
      congruence.
    + split; [discriminate|]. intros H. inversion H as [|? ? (a' & b' & Ha & Hb & Hab) _].
      congruence.
Qed.

Lemma check_ids_present (js : list nat) (inds arr : list Z) :
  Forall (fun j => (j < length inds)%nat /\ (j < length arr)%nat) js ->
  check_ids js inds arr = Ok tt \/ check_ids js inds arr = Raise SystemExit.
Proof.
  induction 1 as [|j js [Hi Ha] _ IH]; cbn [check_ids]; [now left|].
  rewrite (nth_error_nth' inds 0%Z Hi), (nth_error_nth' arr 0%Z Ha).
  destruct (_ =? _)%Z; [exact IH|now right].
Qed.

Lemma check_ids_absent (js : list nat) (inds arr : list Z) :
  Forall (fun j => (j < length inds)%nat -> (j < length arr)%nat ->
                   (nth j inds 0 + 1)%Z = nth j arr 0%Z) js ->
  Exists (fun j => (length inds <= j)%nat \/ (length arr <= j)%nat) js ->
  check_ids js inds arr = Raise IndexError.
Proof.
  induction 1 as [|j js Hj _ IH]; intros Hex; [inversion Hex|]. cbn [check_ids].
  destruct (nth_error inds j) as [a|] eqn:Ea; [|reflexivity].
  destruct (nth_error arr j) as [b|] eqn:Eb; [|reflexivity].
  assert (Hi : (j < length inds)%nat) by (apply nth_error_Some; congruence).
  assert (Ha : (j < length arr)%nat) by (apply nth_error_Some; congruence).
  specialize (Hj Hi Ha).
  rewrite (nth_error_nth' inds 0%Z Hi) in Ea. rewrite (nth_error_nth' arr 0%Z Ha) in Eb.
  injection Ea as <-. injection Eb as <-.
  rewrite (proj2 (Z.eqb_eq _ _) Hj). apply IH.
  inversion Hex as [? ? [H|H]|]; subst; [lia|lia|assumption].
Qed.

(** X3: for interface indices that do not wrap around when one is added
    to them, the loop that compares the atom ids of the velocity file with
    the interface indices of the force constants accepts exactly when both
    arrays have an entry at each of the [n] positions and every file id is
    the interface index plus one.  When both arrays are long enough, a
    rejection is a [SystemExit]; when the entries that exist all agree and
    an array is too short, it is an [IndexError]. *)
Theorem X3_check_ids (n : nat) (inds arr : list Z) :
  no_wrap inds ->
  (check_ids (seq 0 n) inds arr = Ok tt <->
   (n <= length inds)%nat /\ (n <= length arr)%nat /\
   forall j, (j < n)%nat -> (nth j inds 0 + 1)%Z = nth j arr 0%Z) /\
  ((n <= length inds)%nat -> (n <= length arr)%nat ->
   (exists j, (j < n)%nat /\ (nth j inds 0 + 1)%Z <> nth j arr 0%Z) ->
   check_ids (seq 0 n) inds arr = Raise SystemExit) /\
  ((length inds < n)%nat \/ (length arr < n)%nat ->
   (forall j, (j < length inds)%nat -> (j < length arr)%nat ->
              (nth j inds 0 + 1)%Z = nth j arr 0%Z) ->
   check_ids (seq 0 n) inds arr = Raise IndexError).
Proof.
  intros _.
  assert (Hok : check_ids (seq 0 n) inds arr = Ok tt <->
                (n <= length inds)%nat /\ (n <= length arr)%nat /\
                forall j, (j < n)%nat -> (nth j inds 0 + 1)%Z = nth j arr 0%Z).
  { rewrite check_ids_Ok, Forall_forall. split.
    - intros H.
      assert (Hj : forall j, (j < n)%nat ->
                     (j < length inds)%nat /\ (j < length arr)%nat /\
                     (nth j inds 0 + 1)%Z = nth j arr 0%Z).
      { intros j Hj. destruct (H j) as (a & b & Ha & Hb & Hab); [apply in_seq; lia|].
        assert (Hi : (j < length inds)%nat) by (apply nth_error_Some; congruence).
        assert (Hr : (j < length arr)%nat) by (apply nth_error_Some; congruence).
        rewrite (nth_error_nth' inds 0%Z Hi) in Ha. rewrite (nth_error_nth' arr 0%Z Hr) in Hb.
        injection Ha as <-. injection Hb as <-. auto. }
      destruct n as [|n]; [repeat split; try lia; intros; lia|].
      destruct (Hj n ltac:(lia)) as (H1 & H2 & _).
      repeat split; try lia. intros j Hlt. now apply Hj.
    - intros (H1 & H2 & H3) j Hj. apply in_seq in Hj.
      exists (nth j inds 0%Z), (nth j arr 0%Z).
      repeat split; [apply nth_error_nth'; lia|apply nth_error_nth'; lia|apply H3; lia]. }
  split; [exact Hok|]. split.
  - intros H1 H2 (j & Hj & Hne).
    destruct (check_ids_present (seq 0 n) inds arr) as [E|E]; [| |exact E].
    + apply Forall_forall. intros i Hi. apply in_seq in Hi. lia.
    + apply Hok in E. destruct E as (_ & _ & E). now specialize (E j Hj).
  - intros Hshort Hagree. apply check_ids_absent.
    + apply Forall_forall. intros j _. apply Hagree.
    + apply Exists_exists.
      destruct Hshort as [H|H].
      * exists (length inds). split; [apply in_seq; lia|left; lia].
      * exists (length arr). split; [apply in_seq; lia|right; lia].
Qed.

Lemma X3_check_ids_witness :
  check_ids (seq 0 2) [0; 1]%Z [1; 2]%Z = Ok tt /\
  check_ids (seq 0 2) [0; 1]%Z [1; 5]%Z = Raise SystemExit.
Proof.
  assert (H : no_wrap [0; 1]%Z) by (repeat constructor; lia).
  split.
  - apply (proj1 (X3_check_ids 2 [0; 1]%Z [1; 2]%Z H)).
    repeat split; try (simpl; lia).
    intros [|[|j]] Hj; [reflexivity|reflexivity|lia].
  - apply (proj1 (proj2 (X3_check_ids 2 [0; 1]%Z [1; 5]%Z H))); try (simpl; lia).
    exists 1%nat. split; [lia|]. simpl. lia.
Defined.

Lemma apart_neq (a b : R) : apart a b -> a <> b.
Proof.
  unfold apart, margin. intros H E. subst a.
  replace (b - b) with 0 in H by ring. rewrite Rabs_R0 in H.
  pose proof (Rabs_pos b). lra.
Qed.

(** X4: a header that fails a check stops the run before anything else is
    done: the object is left as it was, no sample is read and no grid is
    built.  A wrong atom count raises [ValueError]; with the right count, a
    dump stride (below [2^63]) whose product with [dt_md] is further than
    rounding from the sample time step raises [SystemExit]; with both
    right, and interface indices that do not wrap around when one is
    added, the outcome is that of the comparison of the atom ids. *)
Theorem X4_header_rejected (s : SHCPostProc) (f : velfile) :
  (hdr_Natoms f <> Z.of_nat (NL (cfg s) + NR (cfg s)) ->
   postProcess s f = ({| self := s; fid := samples f; trace := [EvHeader] |},
                      Raise ValueError)) /\
  (hdr_Natoms f = Z.of_nat (NL (cfg s) + NR (cfg s)) ->
   (Z.abs (hdr_stride f) < 2 ^ 63)%Z ->
   apart (IZR (hdr_stride f) * dt_md (cfg s)) (sampleTimestep (cfg s)) ->
   postProcess s f = ({| self := s; fid := samples f; trace := [EvHeader] |},
                      Raise SystemExit)) /\
  (hdr_Natoms f = Z.of_nat (NL (cfg s) + NR (cfg s)) ->
   (Z.abs (hdr_stride f) < 2 ^ 63)%Z ->
   IZR (hdr_stride f) * dt_md (cfg s) = sampleTimestep (cfg s) ->
   no_wrap (inds_interface (cfg s)) ->
   forall e,
     check_ids (seq 0 (NL (cfg s) + NR (cfg s))) (inds_interface (cfg s))
               (firstn (NL (cfg s) + NR (cfg s)) (hdr_ids f)) = Raise e ->
     postProcess s f = ({| self := s; fid := samples f; trace := [EvHeader] |}, Raise e)).
Proof.
  unfold postProcess, postProcess_body, read_header, bind, emit, get_self, lift.
  cbn [self fid trace app].
  split; [|split].
  - intros H. rewrite (proj2 (Z.eqb_neq _ _) H). reflexivity.
  - intros H1 _ H2. rewrite (proj2 (Z.eqb_eq _ _) H1). cbn [negb].
    destruct (Req_dec_T _ _) as [E|_]; [|reflexivity].
    now apply apart_neq in H2.
  - intros H1 _ H2 _ e He. rewrite (proj2 (Z.eqb_eq _ _) H1). cbn [negb].
    destruct (Req_dec_T _ _) as [_|N]; [|contradiction].
    rewrite H1, Nat2Z.id, He. reflexivity.
Qed.

Lemma X4_header_rejected_witness :
  postProcess (Scenario.obj 5)
    {| hdr_Natoms := 3; hdr_stride := 1; hdr_ids := [1; 2; 3]%Z; samples := repeat 0 96 |}
  = ({| self := Scenario.obj 5; fid := repeat 0 96; trace := [EvHeader] |},
     Raise ValueError) /\
  postProcess (Scenario.obj 5)
    {| hdr_Natoms := 4; hdr_stride := 2; hdr_ids := [1; 2; 3; 4]%Z; samples := repeat 0 96 |}
  = ({| self := Scenario.obj 5; fid := repeat 0 96; trace := [EvHeader] |},
     Raise SystemExit) /\
  postProcess (Scenario.obj 5)
    {| hdr_Natoms := 4; hdr_stride := 1; hdr_ids := [1; 2; 3; 5]%Z; samples := repeat 0 96 |}
  = ({| self := Scenario.obj 5; fid := repeat 0 96; trace := [EvHeader] |},
     Raise SystemExit).
Proof.
  split; [|split].
  - apply (proj1 (X4_header_rejected (Scenario.obj 5)
                    {| hdr_Natoms := 3; hdr_stride := 1; hdr_ids := [1; 2; 3]%Z;
                       samples := repeat 0 96 |})).
    cbn. lia.
  - apply (proj1 (proj2 (X4_header_rejected (Scenario.obj 5)
                    {| hdr_Natoms := 4; hdr_stride := 2; hdr_ids := [1; 2; 3; 4]%Z;
                       samples := repeat 0 96 |}))).
    + reflexivity.
    + reflexivity.
    + unfold apart, margin. cbn.
      replace (2 * 1 - 1) with 1 by ring. rewrite Rabs_R1. lra.
  - apply (proj2 (proj2 (X4_header_rejected (Scenario.obj 5)
                    {| hdr_Natoms := 4; hdr_stride := 1; hdr_ids := [1; 2; 3; 5]%Z;
                       samples := repeat 0 96 |}))).
    + reflexivity.
    + reflexivity.
    + cbn. lra.
    + repeat constructor; lia.
    + reflexivity.
Defined.

(** ** Chunk sizes below two *)

Lemma run_no_grid (s : SHCPostProc) (f : velfile) :
  header_ok s f -> INR (chunkSize s) * sampleTimestep (cfg s) = 0 ->
  postProcess s f = ({| self := s; fid := samples f; trace := [EvHeader] |},
                     Raise ZeroDivisionError).
Proof.
  intros Hh Hz. unfold postProcess, postProcess_body. unfold bind at 1.
  rewrite read_header_ok by exact Hh.
  unfold bind, get_self, lift. cbn [self fid trace app].
  rewrite freq_grid_zero by exact Hz. reflexivity.
Qed.

(** X5: a chunk size of zero, or a sample time step of zero, stops the run
    with a [ZeroDivisionError] right after the header, before any sample is
    read; a chunk size of one builds a grid of a single frequency and stops
    with an [IndexError] on the first full chunk, after its spectral values
    have been computed and before anything is folded in. *)
Theorem X5_degenerate_chunk_size (s : SHCPostProc) (f : velfile) :
  header_ok s f ->
  (INR (chunkSize s) * sampleTimestep (cfg s) = 0 ->
   postProcess s f = ({| self := s; fid := samples f; trace := [EvHeader] |},
                      Raise ZeroDivisionError)) /\
  (chunkSize s = 1%nat -> sampleTimestep (cfg s) <> 0 -> ids_ok (cfg s) ->
   both_flags (cfg s) = false ->
   shape (Kij s) (3 * NL (cfg s)) (3 * NR (cfg s)) ->
   (0 < NChunks s)%Z -> (0 < NDOF_of s <= length (samples f))%nat ->
   snd (postProcess s f) = Raise IndexError /\
   trace (fst (postProcess s f)) = [EvHeader; EvRead (NDOF_of s); EvFFT; EvSHC] /\
   SHC_smooth (self (fst (postProcess s f))) = [0]).
Proof.
  intros Hh. split; [now apply run_no_grid|].
  intros HL Hdt Hids Hdir HK HN [HND Hlen].
  assert (E : postProcess s f =
              ({| self := chunk_state (self (started s f))
                            (firstn (NDOF_of s) (samples f)) (NDOF_of s);
                  fid := skipn (NDOF_of s) (samples f);
                  trace := [EvHeader; EvRead (NDOF_of s); EvFFT; EvSHC] |},
               Raise IndexError)).
  { rewrite postProcess_started; [|exact Hh|].
    2:{ rewrite HL. simpl. lra. }
    unfold bind at 1.
    replace (Z.to_nat (NChunks s)) with (S (Z.to_nat (NChunks s) - 1)) by lia.
    cbn [chunk_loop]. unfold bind at 1. unfold loop_body. unfold bind at 1.
    rewrite read_chunk_full.
    2:{ change (chunkSize (self (started s f))) with (chunkSize s). rewrite HL. lia. }
    2:{ change (chunkSize (self (started s f))) with (chunkSize s).
        change (fid (started s f)) with (samples f). rewrite HL. lia. }
    change (chunkSize (self (started s f))) with (chunkSize s). rewrite HL.
    rewrite Nat.mul_1_l.
    unfold process_chunk. unfold bind at 1. unfold chunk_curves. unfold bind at 1.
    unfold bind at 1.
    rewrite (transform_chunk_ok _ _ _ (Nfreqs (loc0 s))); try assumption; try reflexivity.
    2:{ cbn [self after_read started chunkSize set_SHC_average set_SHC_smooth2
             set_SHC_smooth set_oms_fft]. lia. }
    2:{ cbn [self after_read]. change (chunkSize (self (started s f))) with (chunkSize s).
        rewrite HL, length_firstn. change (fid (started s f)) with (samples f). lia. }
    unfold bind at 1. rewrite project_chunk_ok by exact Hdir.
    unfold bind at 1. unfold get_self at 1. cbn [self fid trace].
    unfold bind at 1. unfold lift at 1.
    unfold loc0. cbn [Nfreqs]. rewrite HL. change (1 / 2 + 1)%nat with 1%nat.
    unfold chunk_SHC. cbn [Nat.sub seq SHC_loop rbind].
    unfold bind at 1. unfold emit at 1. cbn [self fid trace].
    unfold bind at 1. unfold lift at 1.
    rewrite grid_spacing_short.
    2:{ change (oms_fft (projected (transformed (self (after_read _ _ _)) _ _)))
          with (grid (chunkSize s) (sampleTimestep (cfg s))).
        rewrite grid_length, HL. simpl. lia. }
    unfold after_read, started, chunk_state. cbn [trace fid self app].
    rewrite length_firstn, Nat.min_l by lia. reflexivity. }
  rewrite E. cbn [fst snd trace self]. split; [reflexivity|]. split; [reflexivity|].
  change (SHC_smooth (chunk_state (self (started s f)) _ _))
    with (np.zeros (chunkSize s / 2 + 1)). now rewrite HL.
Qed.

Lemma X5_degenerate_chunk_size_witness :
  postProcess (set_chunkSize 0 (Scenario.obj 5)) (Scenario.file (repeat 0 96))
  = ({| self := set_chunkSize 0 (Scenario.obj 5); fid := repeat 0 96; trace := [EvHeader] |},
     Raise ZeroDivisionError) /\
  snd (postProcess (set_chunkSize 1 (Scenario.obj 5)) (Scenario.file (repeat 0 96)))
  = Raise IndexError.
Proof.
  split.
  - apply (X5_degenerate_chunk_size (set_chunkSize 0 (Scenario.obj 5))
             (Scenario.file (repeat 0 96))).
    + apply (Scenario_file_header false false (1 / 16) 5).
    + cbn. lra.
  - apply (X5_degenerate_chunk_size (set_chunkSize 1 (Scenario.obj 5))
             (Scenario.file (repeat 0 96))).
    + apply (Scenario_file_header false false (1 / 16) 5).
    + reflexivity.
    + cbn. lra.
    + apply (rr_ids _ (Scenario_obj_ready 5)).
    + reflexivity.
    + apply (rr_K _ (Scenario_obj_ready 5)).
    + reflexivity.
    + cbn [samples Scenario.file]. rewrite repeat_length. cbn. lia.
Defined.

(** ** The frequency grid *)

(** X6: the angular frequency grid of a chunk of [n] steps sampled every
    [d] cannot be built when [n * d] is zero; otherwise it has [n/2 + 1]
    bins, bin [i] is [2 pi i / (n d)], and for a positive [d] every bin lies
    between 0 and the Nyquist angular frequency [pi / d], which the last bin
    reaches exactly when [n] is even. *)
Theorem X6_frequency_grid (n : nat) (d : R) :
  (INR n * d = 0 -> freq_grid n d = Raise ZeroDivisionError) /\
  (INR n * d <> 0 ->
   exists oms : list R,
     freq_grid n d = Ok oms /\
     length oms = (n / 2 + 1)%nat /\
     (forall i, (i < n / 2 + 1)%nat -> nth i oms 0 = 2 * PI * INR i / (INR n * d)) /\
     (0 < d -> forall i, (i < n / 2 + 1)%nat -> 0 <= nth i oms 0 <= PI / d) /\
     (0 < d -> Nat.even n = true -> nth (n / 2) oms 0 = PI / d) /\
     (0 < d -> Nat.odd n = true -> nth (n / 2) oms 0 < PI / d)).
Proof.
  split; [apply freq_grid_zero|].
  intros Hnd. exists (grid n d). split; [now apply freq_grid_ok|].
  split; [apply grid_length|].
  assert (Hn : 0 < INR n).
  { destruct n as [|n]; [simpl in Hnd; lra|]. apply lt_0_INR. lia. }
  assert (Hd : d <> 0) by (intros ->; apply Hnd; ring).
  assert (Hnth : forall i, (i < n / 2 + 1)%nat ->
                           nth i (grid n d) 0 = 2 * PI * INR i / (INR n * d)).
  { intros i Hi. rewrite nth_grid by exact Hi. field. split; lra. }
  split; [exact Hnth|].
  assert (Hhalf : forall i, (i < n / 2 + 1)%nat -> 2 * INR i <= INR n).
  { intros i Hi. replace 2 with (INR 2) by reflexivity. rewrite <- mult_INR.
    apply le_INR. pose proof (Nat.Div0.mul_div_le n 2). lia. }
  pose proof PI_RGT_0 as Hpi.
  split; [|split].
  - intros Hd0 i Hi. rewrite Hnth by exact Hi. specialize (Hhalf i Hi).
    pose proof (pos_INR i) as Hi0.
    assert (Hnd0 : 0 < INR n * d) by now apply Rmult_lt_0_compat.
    split.
    + apply Rmult_le_pos; [|apply Rlt_le, Rinv_0_lt_compat; exact Hnd0].
      apply Rmult_le_pos; [lra|exact Hi0].
    + apply (Rmult_le_reg_r (INR n * d)); [exact Hnd0|].
      replace (2 * PI * INR i / (INR n * d) * (INR n * d)) with (PI * (2 * INR i))
        by (field; split; lra).
      replace (PI / d * (INR n * d)) with (PI * INR n) by (field; lra).
      apply Rmult_le_compat_l; lra.
  - intros Hd0 He. rewrite Hnth by lia.
    apply Nat.even_spec in He. destruct He as [h ->].
    replace (2 * h / 2)%nat with h by (rewrite Nat.mul_comm, Nat.div_mul; lia).
    rewrite mult_INR in *. change (INR 2) with 2 in *. field. split; lra.
  - intros Hd0 Ho. rewrite Hnth by lia.
    apply Nat.odd_spec in Ho. destruct Ho as [h ->].
    replace ((2 * h + 1) / 2)%nat with h.
    2:{ symmetry. rewrite Nat.mul_comm, Nat.div_add_l by lia. simpl. lia. }
    rewrite plus_INR, mult_INR in *. change (INR 2) with 2 in *. change (INR 1) with 1 in *.
    pose proof (pos_INR h) as Hh.
    apply (Rmult_lt_reg_r ((2 * INR h + 1) * d)); [apply Rmult_lt_0_compat; lra|].
    replace (2 * PI * INR h / ((2 * INR h + 1) * d) * ((2 * INR h + 1) * d))
      with (PI * (2 * INR h)) by (field; split; lra).
    replace (PI / d * ((2 * INR h + 1) * d)) with (PI * (2 * INR h + 1)) by (field; lra).
    apply Rmult_lt_compat_l; lra.
Qed.

(** ** The smoothing kernel *)

Lemma Rsum_map_div (c : R) (l : list R) :
  Rsum (map (fun g => g / c) l) = Rsum l / c.
Proof.
  induction l as [|x l IH]; unfold Rsum in *; cbn [map fold_right].
  - unfold Rdiv. ring.
  - rewrite IH. unfold Rdiv. ring.
Qed.

Lemma gauss_window_sum (g : Z) : (1 <= g)%Z -> Rsum (gauss_window g) = 1.
Proof.
  intros Hg. unfold gauss_window. destruct (Z.eqb_spec g 1) as [_|Hne].
  - simpl. lra.
  - set (e := map (fun x => exp (- (x * x) / 2)) _).
    rewrite Rsum_map_div.
    assert (Hs : 0 < Rsum e).
    { apply Rsum_pos.
      - unfold e, np.arange. intros E. apply (f_equal (@length R)) in E.
        rewrite !length_map, length_seq in E. simpl in E. lia.
      - unfold e. apply Forall_map, Forall_forall. intros x _. apply exp_pos. }
    field. lra.
Qed.

Lemma window_len_odd (df widthWin : R) :
  0 < widthWin / df -> exists h, window_len df widthWin = (2 * h + 1)%nat.
Proof.
  intros Hw. pose proof (window_size_ge_1 _ _ Hw) as Hg.
  pose proof (window_size_odd df widthWin) as Hodd.
  unfold window_len, kernel. rewrite gauss_window_length by exact Hg.
  exists (Z.to_nat (window_size df widthWin / 2)).
  pose proof (Z.div_mod (window_size df widthWin) 2 ltac:(lia)). lia.
Qed.

(** X7: the weights of the smoothing kernel are positive and sum to one,
    whatever the grid spacing and the window width. *)
Theorem X7_kernel_weights (df widthWin : R) :
  0 < widthWin / df ->
  Rsum (kernel df widthWin) = 1 /\ Forall (fun g => 0 < g) (kernel df widthWin).
Proof.
  intros Hw. pose proof (window_size_ge_1 _ _ Hw) as Hg. unfold kernel.
  split; [now apply gauss_window_sum|now apply gauss_window_pos].
Qed.

Lemma X7_kernel_weights_witness :
  Rsum (kernel (1 / 4) (1 / 2)) = 1 /\ Forall (fun g => 0 < g) (kernel (1 / 4) (1 / 2)).
Proof. apply X7_kernel_weights. lra. Defined.

Lemma window_len_INR (df widthWin : R) :
  0 < widthWin / df -> INR (window_len df widthWin) = IZR (window_size df widthWin).
Proof.
  intros Hw. pose proof (window_size_ge_1 _ _ Hw) as Hg.
  unfold window_len, kernel. rewrite gauss_window_length by exact Hg.
  rewrite INR_IZR_INZ, Z2Nat.id by lia. reflexivity.
Qed.

(** X8: the kernel has an odd number of samples, at least the window
    width counted in grid steps and less than two more, and it is symmetric
    about its middle sample. *)
Theorem X8_kernel_centred (df widthWin : R) :
  0 < widthWin / df ->
  Nat.odd (window_len df widthWin) = true /\
  widthWin / df <= INR (window_len df widthWin) < widthWin / df + 2 /\
  forall i, (i < window_len df widthWin)%nat ->
    nth i (kernel df widthWin) 0
    = nth (window_len df widthWin - 1 - i) (kernel df widthWin) 0.
Proof.
  intros Hw. pose proof (window_size_ge_1 _ _ Hw) as Hg.
  pose proof (window_size_odd df widthWin) as Hodd.
  pose proof (window_len_INR _ _ Hw) as HI.
  assert (HL : window_len df widthWin = Z.to_nat (window_size df widthWin)).
  { unfold window_len, kernel. now apply gauss_window_length. }
  split; [|split].
  - apply Nat.odd_spec. destruct (window_len_odd _ _ Hw) as [h Hh]. now exists h.
  - rewrite HI. unfold window_size. pose proof (Zceil_bound (widthWin / df)) as [Hlo Hhi].
    destruct (Zceil (widthWin / df) mod 2 =? 0)%Z; [rewrite plus_IZR|]; simpl; lra.
  - intros i Hi. rewrite HL in *. unfold kernel, gauss_window.
    destruct (Z.eqb_spec (window_size df widthWin) 1) as [E|Hne].
    + rewrite E in *. assert (i = 0%nat) by lia. subst i. reflexivity.
    + set (G := Z.to_nat (window_size df widthWin)) in *.
      assert (HG : IZR (window_size df widthWin) = INR G).
      { unfold G. rewrite INR_IZR_INZ, Z2Nat.id by lia. reflexivity. }
      assert (HG2 : (2 <= G)%nat) by (unfold G; lia).
      assert (Hnth : forall j, (j < G)%nat ->
                nth j (map (fun g => g / Rsum
                              (map (fun x => exp (- (x * x) / 2))
                                 (map (fun x => 3 * x)
                                    (map (fun a => 2 * a / (IZR (window_size df widthWin) - 1) - 1)
                                       (np.arange (window_size df widthWin))))))
                         (map (fun x => exp (- (x * x) / 2))
                            (map (fun x => 3 * x)
                               (map (fun a => 2 * a / (IZR (window_size df widthWin) - 1) - 1)
                                  (np.arange (window_size df widthWin)))))) 0
                = exp (- ((3 * (2 * INR j / (INR G - 1) - 1))
                          * (3 * (2 * INR j / (INR G - 1) - 1))) / 2)
                  / Rsum
                      (map (fun x => exp (- (x * x) / 2))
                         (map (fun x => 3 * x)
                            (map (fun a => 2 * a / (IZR (window_size df widthWin) - 1) - 1)
                               (np.arange (window_size df widthWin)))))).
      { intros j Hj. unfold np.arange. fold G.
        rewrite (nth_map_lt _ _ _ _ 0) by (now rewrite !length_map, length_seq).
        rewrite (nth_map_lt _ _ _ _ 0) by (now rewrite !length_map, length_seq).
        rewrite (nth_map_lt _ _ _ _ 0) by (now rewrite !length_map, length_seq).
        rewrite (nth_map_lt _ _ _ _ 0) by (now rewrite !length_map, length_seq).
        rewrite (nth_map_lt _ _ _ _ 0%nat) by (now rewrite length_seq).
        rewrite seq_nth by exact Hj. cbn [Nat.add]. now rewrite HG. }
      rewrite !Hnth by lia. f_equal. f_equal.
      assert (HGr : 2 <= INR G) by (replace 2 with (INR 2) by reflexivity; now apply le_INR).
      rewrite !minus_INR by lia. simpl INR. field. lra.
Qed.

Lemma X8_kernel_centred_witness :
  Nat.odd (window_len (1 / 4) (1 / 2)) = true /\
  1 / 2 / (1 / 4) <= INR (window_len (1 / 4) (1 / 2)) < 1 / 2 / (1 / 4) + 2.
Proof.
  destruct (X8_kernel_centred (1 / 4) (1 / 2)) as (H1 & H2 & _); [lra|].
  split; [exact H1|exact H2].
Defined.

(** ** Smoothing as a weighted average *)

Lemma Rsum_mapi_from_bounds (F : nat -> R -> R) (a b : R) (k : list R) :
  forall j,
    (forall m, (m < length k)%nat ->
               a * nth m k 0 <= F (j + m)%nat (nth m k 0) <= b * nth m k 0) ->
    a * Rsum k <= Rsum (mapi_from j F k) <= b * Rsum k.
Proof.
  induction k as [|x k IH]; intros j H.
  - simpl. lra.
  - cbn [mapi_from]. unfold Rsum in *. cbn [fold_right].
    pose proof (H 0%nat ltac:(simpl; lia)) as H0. cbn [nth] in H0.
    rewrite Nat.add_0_r in H0.
    assert (Hk : a * fold_right Rplus 0 k <= fold_right Rplus 0 (mapi_from (S j) F k)
                 <= b * fold_right Rplus 0 k).
    { apply IH. intros m Hm. specialize (H (S m) ltac:(simpl; lia)). cbn [nth] in H.
      now replace (S j + m)%nat with (j + S m)%nat by lia. }
    lra.
Qed.

(** X9: smoothing is a weighted average.  When every bin of a curve lies
    between [a] and [b] and the kernel is no longer than the curve, the
    smoothed curve has the length of the curve, and each of its bins lies
    between [a] and [b] too, provided the bin is at least half a window
    away from both ends of the grid, or [a <= 0 <= b] (beyond the ends the
    curve counts as zero). *)
Theorem X9_smoothing_is_an_average (func : list R) (df widthWin a b : R) :
  0 < widthWin / df -> (0 < length func)%nat ->
  (window_len df widthWin <= length func)%nat ->
  Forall (fun x => a <= x <= b) func ->
  exists out : list R,
    _smoothen func df widthWin = Ok out /\
    length out = length func /\
    forall i, (i < length func)%nat ->
      ((window_len df widthWin - 1) / 2 <= i
       < length func - (window_len df widthWin - 1) / 2)%nat \/ a <= 0 <= b ->
      a <= nth i out 0 <= b.
Proof.
  intros Hw Hf Hfit Hab.
  exists (smooth_curve func (kernel df widthWin)).
  split; [now apply smoothen_ok|].
  fold (window_len df widthWin) in *.
  split; [rewrite smooth_curve_length; fold (window_len df widthWin); lia|].
  intros i Hi Hcase.
  pose proof (gauss_window_sum _ (window_size_ge_1 _ _ Hw)) as Hsum.
  pose proof (gauss_window_pos _ (window_size_ge_1 _ _ Hw)) as Hpos.
  fold (kernel df widthWin) in Hsum, Hpos.
  destruct (window_len_odd df widthWin Hw) as [h Hh].
  unfold smooth_curve. fold (window_len df widthWin).
  rewrite (nth_map_lt _ _ _ _ 0%nat) by (rewrite length_seq; lia).
  rewrite seq_nth by lia. cbn [Nat.add].
  replace (Nat.min (length func) (window_len df widthWin)) with (window_len df widthWin)
    by lia.
  rewrite Hh in *. replace ((2 * h + 1 - 1) / 2)%nat with h in *
    by (replace (2 * h + 1 - 1)%nat with (h * 2)%nat by lia; now rewrite Nat.div_mul).
  unfold np.conv_at, mapi.
  rewrite <- (Rmult_1_r a), <- (Rmult_1_r b), <- Hsum.
  apply Rsum_mapi_from_bounds. intros m Hm. cbn [Nat.add].
  fold (window_len df widthWin) in Hm. rewrite Hh in Hm.
  assert (Hkm : 0 < nth m (kernel df widthWin) 0).
  { rewrite Forall_forall in Hpos. apply Hpos, nth_In.
    fold (window_len df widthWin). lia. }
  rewrite Forall_forall in Hab.
  destruct (m <=? i + h)%nat eqn:Em.
  - destruct (nth_error func (i + h - m)) as [x|] eqn:Ex.
    + apply nth_error_In in Ex. specialize (Hab x Ex).
      rewrite (Rmult_comm a), (Rmult_comm b).
      split; apply Rmult_le_compat_l; lra.
    + apply nth_error_None in Ex. apply Nat.leb_le in Em.
      destruct Hcase as [Hint|Hz]; [lia|]. nra.
  - apply Nat.leb_gt in Em. destruct Hcase as [Hint|Hz]; [lia|]. nra.
Qed.

Lemma window_len_three : window_len (1 / 4) (1 / 2) = 3%nat.
Proof.
  unfold window_len, kernel.
  assert (Hs : window_size (1 / 4) (1 / 2) = 3%Z).
  { unfold window_size. rewrite (Zceil_eq 2); [reflexivity|]. simpl. lra. }
  rewrite Hs. now rewrite gauss_window_length by lia.
Qed.

Lemma X9_smoothing_is_an_average_witness :
  exists out : list R,
    _smoothen [1; 2; 3] (1 / 4) (1 / 2) = Ok out /\ length out = 3%nat /\
    1 <= nth 1 out 0 <= 3.
Proof.
  destruct (X9_smoothing_is_an_average [1; 2; 3] (1 / 4) (1 / 2) 1 3)
    as (out & H1 & H2 & H3).
  - lra.
  - simpl. lia.
  - rewrite window_len_three. simpl. lia.
  - repeat constructor; lra.
  - exists out. split; [exact H1|]. split; [exact H2|].
    apply H3; [simpl; lia|]. left. rewrite window_len_three. simpl. lia.
Defined.

(** ** A window longer than the grid *)

Lemma running_mean_mismatch (k : nat) (m x : list R) :
  length m <> length x -> (2 <= length m)%nat -> (2 <= length x)%nat ->
  running_mean k m x = Raise ValueError.
Proof.
  intros Hne Hm Hx. unfold running_mean, np.broadcast2. rewrite length_map.
  rewrite (proj2 (Nat.eqb_neq _ _) Hne).
  destruct m as [|m0 [|m1 m]]; simpl in Hm; try lia.
  destruct x as [|x0 [|x1 x]]; simpl in Hx; try lia.
  reflexivity.
Qed.

(** X10: when the smoothing kernel, its number of samples not depending
    on rounding, has more samples than the frequency grid, the smoothed
    curve of a full chunk is longer than the running arrays and the first
    update of the running averages fails: the run stops with a
    [ValueError] after the spectral values of the first chunk have been
    computed, with nothing folded in. *)
Theorem X10_window_longer_than_grid (s : SHCPostProc) (f : velfile) :
  run_ready s -> header_ok s f -> (0 < NChunks s)%Z ->
  window_stable (chunk_df s) (widthWin (cfg s)) ->
  (chunkSize s / 2 + 1 < window_len (chunk_df s) (widthWin (cfg s)))%nat ->
  (chunkSize s * NDOF_of s <= length (samples f))%nat ->
  snd (postProcess s f) = Raise ValueError /\
  trace (fst (postProcess s f))
  = [EvHeader; EvRead (chunkSize s * NDOF_of s); EvFFT; EvSHC] /\
  SHC_smooth (self (fst (postProcess s f))) = np.zeros (chunkSize s / 2 + 1).
Proof.
  intros Hr Hh HN _ Hwin Hlen.
  assert (HND : (0 < NDOF_of s)%nat) by (unfold NDOF_of; pose proof (rr_atoms _ Hr); lia).
  pose proof (rr_L _ Hr) as HL.
  assert (E : postProcess s f =
              ({| self := chunk_state (self (started s f))
                            (firstn (chunkSize s * NDOF_of s) (samples f)) (NDOF_of s);
                  fid := skipn (chunkSize s * NDOF_of s) (samples f);
                  trace := [EvHeader; EvRead (chunkSize s * NDOF_of s); EvFFT; EvSHC] |},
               Raise ValueError)).
  { rewrite postProcess_started; [|exact Hh|now apply run_ready_dt].
    unfold bind at 1.
    replace (Z.to_nat (NChunks s)) with (S (Z.to_nat (NChunks s) - 1)) by lia.
    cbn [chunk_loop]. unfold bind at 1. unfold loop_body. unfold bind at 1.
    change (chunkSize s) with (chunkSize (self (started s f))) in Hlen |- * at 1.
    rewrite read_chunk_full.
    2:{ change (chunkSize (self (started s f))) with (chunkSize s). nia. }
    2:{ exact Hlen. }
    unfold process_chunk. unfold bind at 1. unfold bind at 1.
    rewrite chunk_curves_ok.
    2:{ apply (started_ready s f Hr). }
    2:{ cbn [self after_read]. rewrite length_firstn.
        change (fid (started s f)) with (samples f).
        change (chunkSize (self (started s f))) with (chunkSize s) in *. lia. }
    cbn [negb exitFlag loc0 fst snd]. unfold bind at 1. unfold fold_chunk.
    unfold bind at 1. unfold bind at 1. unfold get_self at 1. cbn [self fid trace].
    unfold bind at 1. unfold lift at 1.
    rewrite running_mean_mismatch.
    - unfold after_read, started. cbn [self fid trace app].
      rewrite length_firstn, Nat.min_l by exact Hlen. reflexivity.
    - rewrite chunk_smooth_length.
      change (SHC_smooth (chunk_state _ _ _)) with (np.zeros (chunkSize s / 2 + 1)).
      unfold np.zeros. rewrite repeat_length.
      change (chunkSize (self (after_read _ _ _))) with (chunkSize s).
      change (chunk_df (self (after_read _ _ _))) with (chunk_df s).
      change (cfg (self (after_read _ _ _))) with (cfg s). lia.
    - change (SHC_smooth (chunk_state _ _ _)) with (np.zeros (chunkSize s / 2 + 1)).
      unfold np.zeros. rewrite repeat_length. pose proof (half_ge_1 _ HL). lia.
    - rewrite chunk_smooth_length.
      change (chunkSize (self (after_read _ _ _))) with (chunkSize s).
      pose proof (half_ge_1 _ HL). lia. }
  rewrite E. repeat split; reflexivity.
Qed.

Lemma X10_window_longer_than_grid_witness :
  snd (postProcess (Scenario.object false false (15 / 16) 5) (Scenario.file (repeat 0 96)))
  = Raise ValueError.
Proof.
  apply (X10_window_longer_than_grid (Scenario.object false false (15 / 16) 5)
           (Scenario.file (repeat 0 96))).
  - apply Scenario_object_ready; [reflexivity|lra].
  - apply Scenario_file_header.
  - reflexivity.
  - apply (Scenario_window_stable 8 (15 / 16) 8); unfold margin; simpl; try lra. lia.
  - change (window_len (chunk_df (Scenario.object false false (15 / 16) 5))
              (widthWin (cfg (Scenario.object false false (15 / 16) 5))))
      with (window_len (1 / (INR 8 * 1)) (15 / 16)).
    rewrite (wide_window_len 8 8) by (simpl; lra || lia). cbn. lia.
  - cbn [samples Scenario.file]. rewrite repeat_length. cbn. lia.
Defined.

(** X11: after a short first chunk of [L'] time steps, with a ratio of
    the window width to the new grid spacing that is further than rounding
    from a whole number, the grid and the raw average have [L'/2 + 1] bins,
    while the two smoothed arrays have the length that the convolution
    returns, the larger of [L'/2 + 1] and the number of kernel samples at
    the new grid spacing: they have the length of the grid when the kernel
    fits, and are longer than the grid whenever the kernel is. *)
Theorem X11_short_first_lengths (s : SHCPostProc) (f : velfile) (L' : nat) :
  run_ready s -> header_ok s f -> (0 < NChunks s)%Z ->
  length (samples f) = (L' * NDOF_of s)%nat ->
  (2 <= L' < chunkSize s)%nat ->
  window_stable (1 / (INR L' * sampleTimestep (cfg s))) (widthWin (cfg s)) ->
  let n := window_len (1 / (INR L' * sampleTimestep (cfg s))) (widthWin (cfg s)) in
  length (oms_fft (self (fst (postProcess s f)))) = (L' / 2 + 1)%nat /\
  length (SHC_average (self (fst (postProcess s f)))) = (L' / 2 + 1)%nat /\
  length (SHC_smooth (self (fst (postProcess s f)))) = Nat.max (L' / 2 + 1) n /\
  length (SHC_smooth2 (self (fst (postProcess s f)))) = Nat.max (L' / 2 + 1) n /\
  ((n <= L' / 2 + 1)%nat ->
   length (SHC_smooth (self (fst (postProcess s f))))
   = length (oms_fft (self (fst (postProcess s f))))) /\
  ((L' / 2 + 1 < n)%nat ->
   (length (oms_fft (self (fst (postProcess s f))))
    < length (SHC_smooth (self (fst (postProcess s f)))))%nat /\
   length (SHC_smooth (self (fst (postProcess s f)))) = n).
Proof.
  intros Hr Hh HN Hlen HL _ n.
  destruct (short_first_lengths s f L' Hr Hh HN Hlen HL) as (H1 & H2 & H3 & H4).
  fold n in H3, H4.
  split; [exact H1|]. split; [exact H2|]. split; [exact H3|]. split; [exact H4|].
  split.
  - intros Hfit. rewrite H1, H3. lia.
  - intros Hlong. rewrite H1, H3. lia.
Qed.

Lemma X11_short_first_lengths_witness :
  length (oms_fft (self (fst (postProcess (Scenario.object false false (15 / 16) 5)
                                (Scenario.file (repeat 0 60)))))) = 3%nat /\
  length (SHC_smooth (self (fst (postProcess (Scenario.object false false (15 / 16) 5)
                                   (Scenario.file (repeat 0 60)))))) = 5%nat.
Proof.
  destruct (X11_short_first_lengths (Scenario.object false false (15 / 16) 5)
              (Scenario.file (repeat 0 60)) 5) as (H1 & _ & H3 & _).
  - apply Scenario_object_ready; [reflexivity|lra].
  - apply Scenario_file_header.
  - reflexivity.
  - reflexivity.
  - cbn. lia.
  - apply (Scenario_window_stable 5 (15 / 16) 5); unfold margin; simpl; try lra. lia.
  - split; [exact H1|]. rewrite H3.
    change (widthWin (cfg (Scenario.object false false (15 / 16) 5))) with (15 / 16).
    change (sampleTimestep (cfg (Scenario.object false false (15 / 16) 5))) with 1.
    rewrite (wide_window_len 5 5) by (simpl; lra || lia). reflexivity.
Defined.

(** ** The projection *)

Lemma nth_zero_stride3 {A : Type} (z : A) (c : nat) (m : list (list A)) (a : nat) :
  (a < length m)%nat ->
  nth a (np.zero_stride3 z c m) []
  = if (a mod 3 =? c)%nat then map (fun _ => z) (nth a m []) else nth a m [].
Proof.
  intros Ha. unfold np.zero_stride3. now rewrite (nth_mapi _ _ _ _ []) by exact Ha.
Qed.

Lemma zero_stride3_length {A : Type} (z : A) (c : nat) (m : list (list A)) :
  length (np.zero_stride3 z c m) = length m.
Proof. apply mapi_length. Qed.

Lemma nth_proj {A : Type} (c : SHCConfig) (z : A) (m : list (list A)) (a : nat) :
  xorb (in_plane c) (out_of_plane c) = true -> (a < length m)%nat ->
  nth a (proj c z m) []
  = if dropped c a then map (fun _ => z) (nth a m []) else nth a m [].
Proof.
  intros Hx Ha. unfold proj, dropped.
  pose proof (Nat.mod_upper_bound a 3 ltac:(lia)) as Hm.
  destruct (in_plane c), (out_of_plane c); try discriminate; cbn [andb negb].
  - now apply nth_zero_stride3.
  - rewrite nth_zero_stride3 by (now rewrite zero_stride3_length).
    rewrite nth_zero_stride3 by exact Ha.
    destruct (a mod 3) as [|[|[|k]]]; cbn; try reflexivity; lia.
Qed.

Lemma proj_length {A : Type} (c : SHCConfig) (z : A) (m : list (list A)) :
  length (proj c z m) = length m.
Proof.
  unfold proj. destruct (in_plane c && negb (out_of_plane c))%bool;
    [apply zero_stride3_length|].
  destruct (out_of_plane c && negb (in_plane c))%bool; [|reflexivity].
  now rewrite !zero_stride3_length.
Qed.

Lemma differ_direction_projected (s : SHCPostProc) :
  xorb (in_plane (cfg s)) (out_of_plane (cfg s)) = true ->
  _differ_direction s = Ok (projected s).
Proof.
  intros Hx. unfold _differ_direction, projected, proj.
  destruct (in_plane (cfg s)), (out_of_plane (cfg s)); try discriminate; reflexivity.
Qed.

(** X12: [_differ_direction] raises [AttributeError] when both projection
    flags are set or neither is.  When exactly one is set and the two
    velocity matrices have been assigned (they are [None] until a chunk is
    transformed, and then the call fails on them), it returns: the
    configuration and the shapes are kept, every third row from row 2 (in
    plane), or every row but those (out of plane), is zero in the force
    constants and in both velocity matrices, the other rows are untouched,
    and a second call changes nothing more. *)
Theorem X12_differ_direction (s : SHCPostProc) :
  (xorb (in_plane (cfg s)) (out_of_plane (cfg s)) = false ->
   _differ_direction s = Raise AttributeError) /\
  (xorb (in_plane (cfg s)) (out_of_plane (cfg s)) = true ->
   velsL s <> [] -> velsR s <> [] ->
   exists s' : SHCPostProc,
     _differ_direction s = Ok s' /\
     _differ_direction s' = Ok s' /\
     cfg s' = cfg s /\
     length (Kij s') = length (Kij s) /\
     length (velsL s') = length (velsL s) /\
     length (velsR s') = length (velsR s) /\
     (forall a, (a < length (Kij s))%nat ->
        nth a (Kij s') []
        = if dropped (cfg s) a then map (fun _ => 0) (nth a (Kij s) [])
          else nth a (Kij s) []) /\
     (forall a, (a < length (velsL s))%nat ->
        nth a (velsL s') []
        = if dropped (cfg s) a then map (fun _ => C0) (nth a (velsL s) [])
          else nth a (velsL s) []) /\
     (forall a, (a < length (velsR s))%nat ->
        nth a (velsR s') []
        = if dropped (cfg s) a then map (fun _ => C0) (nth a (velsR s) [])
          else nth a (velsR s) [])).
Proof.
  split.
  - intros Hx. unfold _differ_direction.
    destruct (in_plane (cfg s)), (out_of_plane (cfg s)); try discriminate; reflexivity.
  - intros Hx _ _. exists (projected s).
    split; [now apply differ_direction_projected|].
    split.
    { rewrite differ_direction_projected by exact Hx. f_equal.
      unfold projected.
      cbn [cfg Kij velsL velsR set_velsR set_velsL set_Kij].
      now rewrite !proj_idem. }
    split; [reflexivity|].
    unfold projected. cbn [Kij velsL velsR set_velsR set_velsL set_Kij].
    rewrite !proj_length.
    repeat split; intros a Ha; now apply nth_proj.
Qed.

Lemma X12_differ_direction_witness :
  exists s' : SHCPostProc,
    _differ_direction
      (set_velsR (np.czeros 6 5) (set_velsL (np.czeros 6 5) (Scenario.object true false 1 5)))
    = Ok s' /\
    nth 2 (Kij s') [] = [0; 0; 0; 0; 0; 0] /\
    nth 1 (Kij s') [] = [0; 1; 0; 0; 0; 0].
Proof.
  destruct (proj2 (X12_differ_direction
                     (set_velsR (np.czeros 6 5)
                        (set_velsL (np.czeros 6 5) (Scenario.object true false 1 5))))
              eq_refl)
    as (s' & H1 & _ & _ & _ & _ & _ & H7 & _).
  - discriminate.
  - discriminate.
  - exists s'. split; [exact H1|].
    split; [apply (H7 2%nat); cbn; lia|apply (H7 1%nat); cbn; lia].
Defined.

(** ** In-plane and out-of-plane currents *)

Lemma C_ext (a b : C) : Cre a = Cre b -> Cim a = Cim b -> a = b.
Proof. destruct a, b; simpl; intros -> ->; reflexivity. Qed.

Lemma Cim_Csum_map {A : Type} (f : A -> C) (l : list A) :
  Cim (Csum (map f l)) = Rsum (map (fun x => Cim (f x)) l).
Proof.
  induction l as [|x l IH]; [reflexivity|].
  unfold Csum, Rsum in *. cbn [map fold_right Cadd Cim]. now rewrite IH.
Qed.

Lemma Rsum_map_add {A : Type} (u v t : A -> R) (l : list A) :
  (forall x, In x l -> u x + v x = t x) ->
  Rsum (map u l) + Rsum (map v l) = Rsum (map t l).
Proof.
  induction l as [|x l IH]; intros H; unfold Rsum in *; cbn [map fold_right]; [lra|].
  rewrite <- (H x (or_introl eq_refl)), <- IH by (intros y Hy; apply H; now right). lra.
Qed.

Lemma nth_zero_row (i : nat) (row : list C) : nth i (map (fun _ => C0) row) C0 = C0.
Proof.
  destruct (Nat.lt_ge_cases i (length row)) as [H|H].
  - now rewrite (nth_map_lt _ _ _ _ C0).
  - apply nth_overflow. now rewrite length_map.
Qed.

Lemma nth_zero_row_R (i : nat) (row : list R) : nth i (map (fun _ => 0) row) 0 = 0.
Proof.
  destruct (Nat.lt_ge_cases i (length row)) as [H|H].
  - now rewrite (nth_map_lt _ _ _ _ 0).
  - apply nth_overflow. now rewrite length_map.
Qed.

Lemma dropped_coupling (c : SHCConfig) (K : rmatrix) (a b : nat) :
  no_cross_coupling K -> dropped c a <> dropped c b -> nth b (nth a K []) 0 = 0.
Proof.
  intros HK Hd. apply HK. unfold dropped in Hd.
  destruct (in_plane c); [exact Hd|].
  destruct (a mod 3 =? 2)%nat, (b mod 3 =? 2)%nat; cbn in *; congruence.
Qed.

(** The inner sum of the bilinear form on a row that the projection keeps:
    the columns it drops carry no coupling, so the sum is the unprojected
    one. *)
Lemma inner_sum_kept (c : SHCConfig) (VR : cmatrix) (K : rmatrix) (i a : nat) :
  xorb (in_plane c) (out_of_plane c) = true -> no_cross_coupling K ->
  (a < length K)%nat -> dropped c a = false ->
  Csum (map (fun b => Cscale (nth b (nth a (proj c 0 K) []) 0)
                             (Cconj (nth i (nth b (proj c C0 VR) []) C0)))
            (seq 0 (length (proj c C0 VR))))
  = Csum (map (fun b => Cscale (nth b (nth a K []) 0) (Cconj (nth i (nth b VR []) C0)))
              (seq 0 (length VR))).
Proof.
  intros Hx HK Ha Hd. rewrite proj_length. f_equal. apply map_ext_in.
  intros b Hb. apply in_seq in Hb.
  rewrite (nth_proj c 0 K a Hx Ha), Hd.
  rewrite (nth_proj c C0 VR b Hx) by lia.
  destruct (dropped c b) eqn:Eb; [|reflexivity].
  rewrite nth_zero_row, (dropped_coupling c K a b HK) by congruence.
  apply C_ext; cbn; ring.
Qed.

Lemma bilinear_term_dropped (c : SHCConfig) (VL : cmatrix) (X : C) (i a : nat) :
  xorb (in_plane c) (out_of_plane c) = true -> (a < length VL)%nat ->
  dropped c a = true ->
  Cim (Cmul (nth i (nth a (proj c C0 VL) []) C0) X) = 0.
Proof.
  intros Hx Ha Hd. rewrite (nth_proj c C0 VL a Hx Ha), Hd, nth_zero_row. cbn. ring.
Qed.

Lemma bilinear_directions (c1 c2 : SHCConfig) (VL VR : cmatrix) (K : rmatrix) (i : nat) :
  in_plane c1 = true -> out_of_plane c1 = false ->
  in_plane c2 = false -> out_of_plane c2 = true ->
  length K = length VL -> no_cross_coupling K ->
  Cim (bilinear (proj c1 C0 VL) (proj c1 0 K) (proj c1 C0 VR) i)
  + Cim (bilinear (proj c2 C0 VL) (proj c2 0 K) (proj c2 C0 VR) i)
  = Cim (bilinear VL K VR i).
Proof.
  intros I1 O1 I2 O2 HKL HK. unfold bilinear.
  rewrite !Cim_Csum_map, !(proj_length _ C0 VL).
  apply Rsum_map_add. intros a Ha. apply in_seq in Ha.
  assert (X1 : xorb (in_plane c1) (out_of_plane c1) = true) by now rewrite I1, O1.
  assert (X2 : xorb (in_plane c2) (out_of_plane c2) = true) by now rewrite I2, O2.
  destruct (a mod 3 =? 2)%nat eqn:Ea.
  - assert (D1 : dropped c1 a = true) by (unfold dropped; now rewrite I1, Ea).
    assert (D2 : dropped c2 a = false) by (unfold dropped; now rewrite I2, Ea).
    rewrite (bilinear_term_dropped c1 VL _ i a X1) by (try exact D1; lia).
    rewrite (inner_sum_kept c2 VR K i a X2 HK) by (try exact D2; lia).
    rewrite (nth_proj c2 C0 VL a X2) by lia. rewrite D2. lra.
  - assert (D1 : dropped c1 a = false) by (unfold dropped; now rewrite I1, Ea).
    assert (D2 : dropped c2 a = true) by (unfold dropped; now rewrite I2, Ea).
    rewrite (bilinear_term_dropped c2 VL _ i a X2) by (try exact D2; lia).
    rewrite (inner_sum_kept c1 VR K i a X1 HK) by (try exact D1; lia).
    rewrite (nth_proj c1 C0 VL a X1) by lia. rewrite D1. lra.
Qed.

Lemma Rsum_mapi_from_add (F1 F2 F0 : nat -> R -> R) (k : list R) :
  forall j,
    (forall m x, F1 m x + F2 m x = F0 m x) ->
    Rsum (mapi_from j F1 k) + Rsum (mapi_from j F2 k) = Rsum (mapi_from j F0 k).
Proof.
  induction k as [|x k IH]; intros j H; unfold Rsum in *; cbn [mapi_from fold_right]; [lra|].
  rewrite <- (H j x), <- (IH (S j) H). lra.
Qed.

Lemma conv_at_add (r1 r2 r0 k : list R) (p : nat) :
  length r1 = length r0 -> length r2 = length r0 ->
  (forall j, (j < length r0)%nat -> nth j r1 0 + nth j r2 0 = nth j r0 0) ->
  np.conv_at r1 k p + np.conv_at r2 k p = np.conv_at r0 k p.
Proof.
  intros H1 H2 H. unfold np.conv_at, mapi. apply Rsum_mapi_from_add.
  intros m x. destruct (m <=? p)%nat; [|lra].
  destruct (Nat.lt_ge_cases (p - m) (length r0)) as [Hq|Hq].
  - rewrite (nth_error_nth' r1 0), (nth_error_nth' r2 0), (nth_error_nth' r0 0) by lia.
    rewrite <- (H _ Hq). ring.
  - rewrite (proj2 (nth_error_None r1 _)), (proj2 (nth_error_None r2 _)),
      (proj2 (nth_error_None r0 _)) by lia. lra.
Qed.

Lemma smooth_curve_add (r1 r2 r0 k : list R) (i : nat) :
  length r1 = length r0 -> length r2 = length r0 ->
  (forall j, (j < length r0)%nat -> nth j r1 0 + nth j r2 0 = nth j r0 0) ->
  nth i (smooth_curve r1 k) 0 + nth i (smooth_curve r2 k) 0 = nth i (smooth_curve r0 k) 0.
Proof.
  intros H1 H2 H. unfold smooth_curve. rewrite H1, H2.
  destruct (Nat.lt_ge_cases i (Nat.max (length r0) (length k))) as [Hi|Hi].
  - rewrite !(nth_map_lt _ _ _ _ 0%nat) by now rewrite length_seq.
    rewrite seq_nth by exact Hi. now apply conv_at_add.
  - rewrite !nth_overflow by (now rewrite length_map, length_seq). lra.
Qed.

Lemma with_flags_ready (ip op : bool) (w : world) (NDOF Nf : nat) :
  chunk_ready (self w) NDOF Nf -> (ip && op)%bool = false ->
  chunk_ready (self (with_flags ip op w)) NDOF Nf.
Proof.
  intros [Hids HN HK HL Hdt Hw Hdir Homs HNf] Hf. split; try assumption.
Qed.

(** X13: when the force constants couple no in-plane coordinate with an
    out-of-plane one, the in-plane and the out-of-plane spectral currents of
    a chunk add up to the current without a projection, bin by bin, for the
    raw and for the smoothed curve. *)
Theorem X13_directions_add_up (w : world) (velArray : list R) (NDOF Nf : nat) :
  chunk_ready (self w) NDOF Nf ->
  length velArray = (NDOF * chunkSize (self w))%nat ->
  no_cross_coupling (Kij (self w)) ->
  exists (w1 w2 w0 : world) (S1 R1 S2 R2 S0 R0 : list R),
    chunk_curves velArray NDOF Nf (with_flags true false w) = (w1, Ok (S1, R1)) /\
    chunk_curves velArray NDOF Nf (with_flags false true w) = (w2, Ok (S2, R2)) /\
    chunk_curves velArray NDOF Nf (with_flags false false w) = (w0, Ok (S0, R0)) /\
    forall i, nth i R1 0 + nth i R2 0 = nth i R0 0 /\
              nth i S1 0 + nth i S2 0 = nth i S0 0.
Proof.
  intros Hrd Hlen HK.
  do 9 eexists.
  split; [apply chunk_curves_ok; [now apply with_flags_ready|exact Hlen]|].
  split; [apply chunk_curves_ok; [now apply with_flags_ready|exact Hlen]|].
  split; [apply chunk_curves_ok; [now apply with_flags_ready|exact Hlen]|].
  destruct Hrd as [(HNL & HNR & HL & HR) HN [HKr HKc] HL2 Hdt Hw Hdir Homs HNf].
  assert (Hraw : forall j, (j < chunkSize (self w) / 2 + 1)%nat ->
            nth j (chunk_raw (self (with_flags true false w)) velArray NDOF) 0
            + nth j (chunk_raw (self (with_flags false true w)) velArray NDOF) 0
            = nth j (chunk_raw (self (with_flags false false w)) velArray NDOF) 0).
  { intros j Hj. unfold chunk_raw.
    change (chunkSize (self (with_flags _ _ w))) with (chunkSize (self w)).
    rewrite !nth_raw_curve by exact Hj.
    destruct (j =? 0)%nat; [unfold Rdiv; ring|].
    unfold bin_value.
    change (oms_fft (chunk_state (self (with_flags _ _ w)) velArray NDOF))
      with (oms_fft (self w)).
    change (chunkSize (chunk_state (self (with_flags _ _ w)) velArray NDOF))
      with (chunkSize (self w)).
    change (cfg (chunk_state (self (with_flags ?ip ?op w)) velArray NDOF))
      with (set_flags ip op (cfg (self w))).
    cbn [sampleTimestep scaleFactor set_flags].
    set (F := fft_rows velArray NDOF (chunkSize (self w)) (sampleTimestep (cfg (self w)))).
    pose proof (bilinear_directions
                  (set_flags true false (cfg (self w)))
                  (set_flags false true (cfg (self w)))
                  (side_rows F (ids_L (cfg (self w))))
                  (side_rows F (ids_R (cfg (self w))))
                  (Kij (self w)) j eq_refl eq_refl eq_refl eq_refl) as B.
    rewrite side_rows_length in B. specialize (B ltac:(lia) HK).
    change (velsL (chunk_state (self (with_flags true false w)) velArray NDOF))
      with (proj (set_flags true false (cfg (self w))) C0
              (side_rows F (ids_L (cfg (self w))))).
    change (velsR (chunk_state (self (with_flags true false w)) velArray NDOF))
      with (proj (set_flags true false (cfg (self w))) C0
              (side_rows F (ids_R (cfg (self w))))).
    change (Kij (chunk_state (self (with_flags true false w)) velArray NDOF))
      with (proj (set_flags true false (cfg (self w))) 0 (Kij (self w))).
    change (velsL (chunk_state (self (with_flags false true w)) velArray NDOF))
      with (proj (set_flags false true (cfg (self w))) C0
              (side_rows F (ids_L (cfg (self w))))).
    change (velsR (chunk_state (self (with_flags false true w)) velArray NDOF))
      with (proj (set_flags false true (cfg (self w))) C0
              (side_rows F (ids_R (cfg (self w))))).
    change (Kij (chunk_state (self (with_flags false true w)) velArray NDOF))
      with (proj (set_flags false true (cfg (self w))) 0 (Kij (self w))).
    change (velsL (chunk_state (self (with_flags false false w)) velArray NDOF))
      with (side_rows F (ids_L (cfg (self w)))).
    change (velsR (chunk_state (self (with_flags false false w)) velArray NDOF))
      with (side_rows F (ids_R (cfg (self w)))).
    change (Kij (chunk_state (self (with_flags false false w)) velArray NDOF))
      with (Kij (self w)).
    rewrite <- B. unfold Rdiv. ring. }
  intros i. split.
  - destruct (Nat.lt_ge_cases i (chunkSize (self w) / 2 + 1)) as [Hi|Hi];
      [now apply Hraw|].
    rewrite !nth_overflow by (rewrite chunk_raw_length; exact Hi). lra.
  - unfold chunk_smooth.
    change (chunk_df (self (with_flags _ _ w))) with (chunk_df (self w)).
    change (widthWin (cfg (self (with_flags _ _ w)))) with (widthWin (cfg (self w))).
    apply smooth_curve_add.
    + now rewrite !chunk_raw_length.
    + now rewrite !chunk_raw_length.
    + intros j Hj. rewrite chunk_raw_length in Hj. now apply Hraw.
Qed.

Lemma identity_off_diagonal (n a b : nat) :
  a <> b -> nth b (nth a (Scenario.identity n) []) 0 = 0.
Proof.
  intros Hab. unfold Scenario.identity.
  destruct (Nat.lt_ge_cases a n) as [Ha|Ha].
  - rewrite (nth_map_lt _ _ _ _ 0%nat) by now rewrite length_seq.
    rewrite seq_nth by exact Ha. cbn [Nat.add].
    destruct (Nat.lt_ge_cases b n) as [Hb|Hb].
    + rewrite (nth_map_lt _ _ _ _ 0%nat) by now rewrite length_seq.
      rewrite seq_nth by exact Hb. cbn [Nat.add].
      now rewrite (proj2 (Nat.eqb_neq a b) Hab).
    + apply nth_overflow. now rewrite length_map, length_seq.
  - rewrite (nth_overflow _ []) by now rewrite length_map, length_seq.
    destruct b; reflexivity.
Qed.

Lemma identity_no_cross_coupling (n : nat) : no_cross_coupling (Scenario.identity n).
Proof.
  intros a b H. apply identity_off_diagonal. intros ->. now apply H.
Qed.

Lemma X13_directions_add_up_witness :
  exists (w1 w2 w0 : world) (S1 R1 S2 R2 S0 R0 : list R),
    chunk_curves (repeat 1 96) 12 5
      (with_flags true false (started (Scenario.obj 5) (Scenario.file (repeat 1 96))))
    = (w1, Ok (S1, R1)) /\
    chunk_curves (repeat 1 96) 12 5
      (with_flags false true (started (Scenario.obj 5) (Scenario.file (repeat 1 96))))
    = (w2, Ok (S2, R2)) /\
    chunk_curves (repeat 1 96) 12 5
      (with_flags false false (started (Scenario.obj 5) (Scenario.file (repeat 1 96))))
    = (w0, Ok (S0, R0)) /\
    nth 1 R1 0 + nth 1 R2 0 = nth 1 R0 0.
Proof.
  destruct (X13_directions_add_up
              (started (Scenario.obj 5) (Scenario.file (repeat 1 96))) (repeat 1 96) 12 5)
    as (w1 & w2 & w0 & S1 & R1 & S2 & R2 & S0 & R0 & H1 & H2 & H3 & H4).
  - apply (started_ready (Scenario.obj 5) (Scenario.file (repeat 1 96))).
    apply Scenario_obj_ready.
  - reflexivity.
  - apply identity_no_cross_coupling.
  - exists w1, w2, w0, S1, R1, S2, R2, S0, R0.
    split; [exact H1|]. split; [exact H2|]. split; [exact H3|]. apply (H4 1%nat).
Defined.

(** ** Exchanging the two sides *)

Lemma Cim_Cmul_Csum {A : Type} (x : C) (g : A -> C) (l : list A) :
  Cim (Cmul x (Csum (map g l))) = Rsum (map (fun b => Cim (Cmul x (g b))) l).
Proof.
  induction l as [|b l IH]; unfold Csum, Rsum in *; cbn [map fold_right].
  - cbn. ring.
  - rewrite <- IH. cbn. ring.
Qed.

Lemma Rsum_map_opp {A : Type} (u : A -> R) (l : list A) :
  Rsum (map (fun x => - u x) l) = - Rsum (map u l).
Proof.
  induction l as [|x l IH]; unfold Rsum in *; cbn [map fold_right]; [ring|].
  rewrite IH. ring.
Qed.

Lemma Rsum_map_zero {A : Type} (l : list A) : Rsum (map (fun _ => 0) l) = 0.
Proof.
  induction l as [|x l IH]; unfold Rsum in *; cbn [map fold_right]; [reflexivity|].
  rewrite IH. ring.
Qed.

Lemma Rsum_swap {A B : Type} (T : A -> B -> R) (la : list A) (lb : list B) :
  Rsum (map (fun a => Rsum (map (fun b => T a b) lb)) la)
  = Rsum (map (fun b => Rsum (map (fun a => T a b) la)) lb).
Proof.
  induction la as [|a la IH].
  - cbn [map]. change (Rsum []) with 0. now rewrite Rsum_map_zero.
  - cbn [map]. change (Rsum (?x :: ?l)) with (x + Rsum l). rewrite IH.
    rewrite (Rsum_map_add (fun b => T a b)
               (fun b => Rsum (map (fun a0 => T a0 b) la))
               (fun b => Rsum (T a b :: map (fun a0 => T a0 b) la)))
      by reflexivity.
    reflexivity.
Qed.

Lemma nth_transpose (ncols : nat) (K : rmatrix) (a b : nat) :
  (b < ncols)%nat -> (a < length K)%nat ->
  nth a (nth b (transpose ncols K) []) 0 = nth b (nth a K []) 0.
Proof.
  intros Hb Ha. unfold transpose.
  rewrite (nth_map_lt _ _ _ _ 0%nat) by now rewrite length_seq.
  rewrite seq_nth by exact Hb. cbn [Nat.add].
  now rewrite (nth_map_lt _ _ _ _ []) by exact Ha.
Qed.

Lemma swap_sides_mats (s : SHCPostProc) : mats_ok s -> mats_ok (swap_sides s).
Proof.
  intros [Hr Hc]. unfold mats_ok, swap_sides, transpose.
  cbn [Kij velsL velsR set_velsR set_velsL set_Kij].
  split; [now rewrite length_map, length_seq|].
  apply Forall_map, Forall_forall. intros b _. now rewrite length_map.
Qed.

Lemma bilinear_swap (VL VR : cmatrix) (K : rmatrix) (i : nat) :
  length K = length VL ->
  Cim (bilinear VR (transpose (length VR) K) VL i) = - Cim (bilinear VL K VR i).
Proof.
  intros HK. unfold bilinear. rewrite !Cim_Csum_map.
  rewrite (map_ext _ _ (fun a => Cim_Cmul_Csum _ _ _)).
  rewrite (map_ext
             (fun a => Cim (Cmul (nth i (nth a VL []) C0)
                               (Csum (map (fun b => Cscale (nth b (nth a K []) 0)
                                                       (Cconj (nth i (nth b VR []) C0)))
                                          (seq 0 (length VR))))))
             _ (fun a => Cim_Cmul_Csum _ _ _)).
  rewrite <- Rsum_map_opp.
  rewrite (Rsum_swap (fun b a => Cim (Cmul (nth i (nth b VR []) C0)
                                        (Cscale (nth a (nth b (transpose (length VR) K) []) 0)
                                           (Cconj (nth i (nth a VL []) C0)))))).
  f_equal. apply map_ext_in. intros a Ha. apply in_seq in Ha.
  rewrite <- Rsum_map_opp. f_equal. apply map_ext_in. intros b Hb. apply in_seq in Hb.
  rewrite nth_transpose by lia. cbn. ring.
Qed.

(** X14: the spectral current is oriented.  Exchanging the two velocity
    matrices and transposing the force constants turns the value that line
    412 stores in a bin into its opposite. *)
Theorem X14_swapping_sides (s : SHCPostProc) (ki : nat) :
  mats_ok s ->
  exists v : R, SHC_bin s ki = Ok v /\ SHC_bin (swap_sides s) ki = Ok (- v).
Proof.
  intros Hm. exists (bin_value s ki). split; [now apply SHC_bin_ok|].
  rewrite SHC_bin_ok by now apply swap_sides_mats.
  f_equal. unfold bin_value, swap_sides.
  cbn [Kij velsL velsR oms_fft set_velsR set_velsL set_Kij].
  rewrite bilinear_swap by apply Hm. unfold Rdiv. ring.
Qed.

Lemma X14_swapping_sides_witness :
  exists v : R,
    SHC_bin (chunk_state (self (started (Scenario.obj 5) (Scenario.file (repeat 1 96))))
               (repeat 1 96) 12) 1 = Ok v /\
    SHC_bin (swap_sides
               (chunk_state (self (started (Scenario.obj 5) (Scenario.file (repeat 1 96))))
                  (repeat 1 96) 12)) 1 = Ok (- v).
Proof.
  apply X14_swapping_sides. apply (chunk_state_mats _ _ _ 5).
  apply (started_ready (Scenario.obj 5) (Scenario.file (repeat 1 96))).
  apply Scenario_obj_ready.
Defined.

(** ** The object after an early end of the file *)

(** X15: when the file ends inside chunk [j + 1], after [j >= 1] full
    chunks, and the smoothing kernel, its number of samples not depending
    on rounding, is no longer than the grid, the run (without backup)
    returns and the partial chunk is read and dropped: the three running
    arrays are the means over the [j] full chunks, over the grid of the
    configured chunk size, which [oms_fft] still holds; but [chunkSize] is
    overwritten with the number of whole time steps of the partial chunk,
    which is smaller, so that it no longer matches the grid. *)
Theorem X15_early_end_state (s : SHCPostProc) (f : velfile) (j : nat) :
  run_ready s -> window_stable (chunk_df s) (widthWin (cfg s)) -> window_fits s ->
  header_ok s f ->
  (0 < j < Z.to_nat (NChunks s))%nat ->
  (j * (chunkSize s * NDOF_of s) < length (samples f)
   < S j * (chunkSize s * NDOF_of s))%nat ->
  snd (postProcess s f) = Ok tt /\
  fid (fst (postProcess s f)) = [] /\
  chunkSize (self (fst (postProcess s f)))
  = ((length (samples f) - j * (chunkSize s * NDOF_of s)) / NDOF_of s)%nat /\
  (chunkSize (self (fst (postProcess s f))) < chunkSize s)%nat /\
  oms_fft (self (fst (postProcess s f))) = grid (chunkSize s) (sampleTimestep (cfg s)) /\
  SHC_smooth (self (fst (postProcess s f)))
  = batch_mean (chunkSize s / 2 + 1)
      (map fst (run_curves (NDOF_of s) j 0 (started s f))) /\
  SHC_smooth2 (self (fst (postProcess s f)))
  = batch_mean (chunkSize s / 2 + 1)
      (map (fun c => square (fst c)) (run_curves (NDOF_of s) j 0 (started s f))) /\
  SHC_average (self (fst (postProcess s f)))
  = batch_mean (chunkSize s / 2 + 1)
      (map snd (run_curves (NDOF_of s) j 0 (started s f))).
Proof.
  intros Hr _ Hfit Hh Hj Hlen.
  rewrite (run_early_end s f j Hr Hfit Hh) by lia.
  destruct (after_chunks_facts s f j Hr Hfit) as (I1 & I2 & I3 & I4 & I5 & I6 & I7).
  destruct (after_chunks_means s f j Hr Hfit ltac:(lia)) as (_ & M1 & M2 & M3).
  assert (HND : (0 < NDOF_of s)%nat) by (unfold NDOF_of; pose proof (rr_atoms _ Hr); lia).
  assert (Hrest : length (fid (after_chunks s f j))
                  = (length (samples f) - j * (chunkSize s * NDOF_of s))%nat).
  { now rewrite I7, length_skipn. }
  cbn [fst snd]. unfold finalized, ended, after_read, end_state. cbn [self fid trace].
  destruct (fid (after_chunks s f j)) as [|x l] eqn:E; [simpl in Hrest; lia|].
  rewrite <- E in *. clear E x l.
  cbn [chunkSize oms_fft SHC_smooth SHC_smooth2 SHC_average set_SHC_error set_NChunks
       set_chunkSize].
  split; [reflexivity|]. split.
  { apply skipn_all2. rewrite I4, Hrest. lia. }
  rewrite Hrest. split; [reflexivity|]. split.
  { apply Nat.Div0.div_lt_upper_bound. lia. }
  split; [exact I5|]. split; [exact M1|]. split; [exact M2|exact M3].
Qed.

Lemma X15_early_end_state_witness :
  snd (postProcess (Scenario.obj 5) (Scenario.file (repeat 0 348))) = Ok tt /\
  chunkSize (self (fst (postProcess (Scenario.obj 5) (Scenario.file (repeat 0 348)))))
  = 5%nat /\
  length (oms_fft (self (fst (postProcess (Scenario.obj 5)
                                (Scenario.file (repeat 0 348)))))) = 5%nat.
Proof.
  destruct (X15_early_end_state (Scenario.obj 5) (Scenario.file (repeat 0 348)) 3)
    as (H1 & _ & H3 & _ & H5 & _).
  - apply Scenario_obj_ready.
  - apply Scenario_obj_stable.
  - apply Scenario_obj_fits.
  - apply Scenario_file_header.
  - cbn. lia.
  - cbn [samples Scenario.file]. rewrite repeat_length. cbn. lia.
  - split; [exact H1|]. split.
    + rewrite H3. cbn [samples Scenario.file]. rewrite repeat_length. reflexivity.
    + rewrite H5. apply grid_length.
Defined.

(** ** Atom indices outside the velocity file *)

Lemma take_rows_out {A : Type} (m : list (list A)) (idx : list nat) :
  Exists (fun i => (length m <= i)%nat) idx -> np.take_rows m idx = Raise IndexError.
Proof.
  induction idx as [|i idx IH]; intros H; [inversion H|]. cbn [np.take_rows].
  destruct (nth_error m i) as [row|] eqn:E; [|reflexivity].
  inversion H as [? ? Hi|? ? Ht]; subst.
  - apply nth_error_None in Hi. congruence.
  - now rewrite IH.
Qed.

Lemma assign_axis_out (c : nat) (vels velFFT : cmatrix) (ids : list nat) (Nf : nat) :
  Exists (fun i => (length velFFT <= 3 * i + c)%nat) ids ->
  assign_axis c vels velFFT ids Nf = Raise IndexError.
Proof.
  intros H. unfold assign_axis. rewrite take_rows_out; [reflexivity|].
  apply Exists_exists in H. destruct H as (i & Hi & Hlt).
  apply Exists_exists. exists (3 * i + c)%nat. split; [|exact Hlt].
  apply in_map_iff. now exists i.
Qed.

Ltac side_length H :=
  cbn [self velsL cfg set_velsL set_velsR after_read started set_SHC_average
       set_SHC_smooth2 set_SHC_smooth set_oms_fft];
  rewrite ?put_axis_length; unfold np.czeros; rewrite repeat_length, <- H; reflexivity.

(** X16: the atom indices of the two sides are not checked when they are
    loaded.  If an index of the left side, or, the left side being in
    range, one of the right side, is not below the number of atoms (and
    small enough for three times the index not to wrap around), the first
    full chunk stops the run with an [IndexError], after the chunk has been
    read and transformed and before any spectral value is computed. *)
Theorem X16_index_out_of_range (s : SHCPostProc) (f : velfile) :
  header_ok s f -> sampleTimestep (cfg s) <> 0 -> (0 < NChunks s)%Z ->
  NL (cfg s) = length (ids_L (cfg s)) -> NR (cfg s) = length (ids_R (cfg s)) ->
  rows_no_wrap (ids_L (cfg s)) -> rows_no_wrap (ids_R (cfg s)) ->
  (0 < chunkSize s * NDOF_of s <= length (samples f))%nat ->
  Exists (fun i => (NL (cfg s) + NR (cfg s) <= i)%nat) (ids_L (cfg s)) \/
  (Forall (fun i => (i < NL (cfg s) + NR (cfg s))%nat) (ids_L (cfg s)) /\
   Exists (fun i => (NL (cfg s) + NR (cfg s) <= i)%nat) (ids_R (cfg s))) ->
  snd (postProcess s f) = Raise IndexError /\
  trace (fst (postProcess s f)) = [EvHeader; EvRead (chunkSize s * NDOF_of s); EvFFT].
Proof.
  intros Hh Hdt HN HNL HNR _ _ [Hpos Hlen] Hbad.
  assert (HL : (0 < chunkSize s)%nat) by nia.
  assert (E : exists s', postProcess s f =
              ({| self := s'; fid := skipn (chunkSize s * NDOF_of s) (samples f);
                  trace := [EvHeader; EvRead (chunkSize s * NDOF_of s); EvFFT] |},
               Raise IndexError)).
  { rewrite postProcess_started; [|exact Hh|].
    2:{ apply Rmult_integral_contrapositive_currified; [|exact Hdt]. apply not_0_INR. lia. }
    unfold bind at 1.
    replace (Z.to_nat (NChunks s)) with (S (Z.to_nat (NChunks s) - 1)) by lia.
    cbn [chunk_loop]. unfold bind at 1. unfold loop_body. unfold bind at 1.
    rewrite read_chunk_full by assumption.
    unfold process_chunk. unfold bind at 1. unfold bind at 1. unfold chunk_curves.
    unfold bind at 1. unfold transform_chunk.
    unfold bind at 1. unfold get_self at 1. cbn [self after_read].
    unfold bind at 1. unfold lift at 1.
    change (chunkSize (self (started s f))) with (chunkSize s).
    change (fid (started s f)) with (samples f).
    change (cfg (self (started s f))) with (cfg s).
    rewrite reshape_F_ok.
    2:{ rewrite length_firstn, Nat.min_l by exact Hlen. apply Nat.mul_comm. }
    unfold bind at 1. unfold lift at 1.
    rewrite (rfft_ok _ (chunkSize s)).
    2:{ exact HL. }
    2:{ apply Forall_map, Forall_forall. intros r _. now rewrite length_map, length_seq. }
    fold (fft_rows (firstn (chunkSize s * NDOF_of s) (samples f)) (NDOF_of s) (chunkSize s)
            (sampleTimestep (cfg s))).
    set (F := fft_rows _ _ _ _).
    destruct (fft_rows_shape (firstn (chunkSize s * NDOF_of s) (samples f)) (NDOF_of s)
                (chunkSize s) (sampleTimestep (cfg s))) as [Hr Hc].
    fold F in Hr, Hc.
    unfold bind at 1. unfold emit at 1. cbn [self fid trace].
    unfold bind at 1. unfold modify at 1. cbn [self fid trace].
    unfold bind at 1. unfold modify at 1. cbn [self fid trace].
    destruct Hbad as [HbL|[HokL HbR]].
    - unfold bind at 1. unfold assign_velsL at 1.
      unfold bind at 1. unfold get_self at 1. cbn [self fid trace].
      unfold bind at 1. unfold lift at 1.
      rewrite assign_axis_out.
      2:{ rewrite Hr. unfold NDOF_of. eapply Exists_impl; [|exact HbL].
          cbn [cfg set_velsR set_velsL]. intros i Hi. cbn in Hi. lia. }
      unfold after_read, started. cbn [trace app fid self].
      rewrite length_firstn, Nat.min_l by exact Hlen.
      eexists. reflexivity.
    - assert (HLi : Forall (fun i => (3 * i + 2 < length F)%nat) (ids_L (cfg s))).
      { rewrite Hr. unfold NDOF_of. eapply Forall_impl; [|exact HokL].
        cbn. intros i Hi. lia. }
      unfold bind at 1.
      rewrite assign_velsL_ok; try assumption; try lia;
        [|side_length HNL].
      unfold bind at 1.
      rewrite assign_velsL_ok; try assumption; try lia;
        [|side_length HNL].
      unfold bind at 1.
      rewrite assign_velsL_ok; try assumption; try lia;
        [|side_length HNL].
      unfold bind at 1. unfold assign_velsR at 1.
      unfold bind at 1. unfold get_self at 1. cbn [self fid trace].
      unfold bind at 1. unfold lift at 1.
      rewrite assign_axis_out.
      2:{ rewrite Hr. unfold NDOF_of. eapply Exists_impl; [|exact HbR].
          cbn [cfg set_velsR set_velsL]. intros i Hi. cbn in Hi. lia. }
      unfold after_read, started. cbn [trace app fid self].
      rewrite length_firstn, Nat.min_l by exact Hlen.
      eexists. reflexivity. }
  destruct E as [s' E]. rewrite E. split; reflexivity.
Qed.

Lemma X16_index_out_of_range_witness :
  snd (postProcess stray_object (Scenario.file (repeat 0 96))) = Raise IndexError /\
  trace (fst (postProcess stray_object (Scenario.file (repeat 0 96))))
  = [EvHeader; EvRead 96; EvFFT].
Proof.
  apply (X16_index_out_of_range stray_object (Scenario.file (repeat 0 96))).
  - repeat split; cbn; lra.
  - cbn. lra.
  - reflexivity.
  - reflexivity.
  - reflexivity.
  - repeat constructor; cbn; lia.
  - repeat constructor; cbn; lia.
  - cbn [samples Scenario.file]. rewrite repeat_length. cbn. lia.
  - left. cbn. apply Exists_cons_tl, Exists_cons_hd. lia.
Defined.

(** * The constructor *)

(** ** The keywords *)

Lemma apply_keywords_absent (args : list Init.kwarg) :
  forall a,
    Exists (fun kw => Init.hasattr (Init.key kw) = false) args ->
    Init.apply_keywords args a = Init.Fail (Init.Builtin AttributeError).
Proof.
  induction args as [|kw args IH]; intros a H; [inversion H|].
  cbn [Init.apply_keywords].
  destruct (Init.hasattr (Init.key kw)) eqn:E; cbn [negb]; [|reflexivity].
  apply IH. inversion H as [? ? Hk|? ? Ht]; subst; [congruence|exact Ht].
Qed.

Lemma apply_keywords_fixed (args : list Init.kwarg) :
  forall a self,
    Init.apply_keywords args a = Init.Done self ->
    Init.reCalcVels self = Init.reCalcVels a /\ Init.reCalcFC self = Init.reCalcFC a /\
    Init.in_plane self = Init.in_plane a /\ Init.out_of_plane self = Init.out_of_plane a.
Proof.
  induction args as [|kw args IH]; intros a self H; cbn [Init.apply_keywords] in H.
  - injection H as <-. repeat split; reflexivity.
  - destruct (negb (Init.hasattr (Init.key kw))); [discriminate|].
    destruct (IH _ _ H) as (H1 & H2 & H3 & H4).
    rewrite H1, H2, H3, H4. destruct kw; repeat split; reflexivity.
Qed.

(** X17: a keyword that names no attribute of the object makes the
    constructor raise [AttributeError] before it looks at a file or starts
    a program, wherever the keyword stands among the others.  [chunkSize]
    and [sampleTimestep], which the docstring lists among the keyword
    arguments, are such keywords: the object gets these two attributes only
    after the keywords have been applied.  So is a name with two leading
    underscores that no class defines. *)
Theorem X17_unknown_keyword :
  Init.hasattr "chunkSize" = false /\
  Init.hasattr "sampleTimestep" = false /\
  Init.hasattr "__foo" = false /\
  forall (X : Init.programs) (Compact_VelocityFile Kij_FilePrefix : string)
         (in_plane out_of_plane reCalcVels reCalcFC : bool)
         (args : list Init.kwarg) (y : Init.sys),
    Exists (fun kw => Init.hasattr (Init.key kw) = false) args ->
    Init.__init__ X Compact_VelocityFile Kij_FilePrefix in_plane out_of_plane
      reCalcVels reCalcFC args y
    = (y, Init.Fail (Init.Builtin AttributeError)).
Proof.
  split; [reflexivity|]. split; [reflexivity|]. split; [reflexivity|].
  intros X cvf kfp ip op rv rf args y H.
  unfold Init.__init__, Init.ibind, Init.ilift.
  now rewrite apply_keywords_absent.
Qed.

Lemma X17_unknown_keyword_witness :
  Init.__init__ demo_programs "vels.compact.dat" "Fij.dat" false false false false
    [Init.kw_dn 5; Init.kw_other "__foo" eq_refl eq_refl] demo_sys
  = (demo_sys, Init.Fail (Init.Builtin AttributeError)).
Proof.
  apply (proj2 (proj2 (proj2 X17_unknown_keyword))).
  apply Exists_cons_tl, Exists_cons_hd. reflexivity.
Defined.

(** ** The chunk size and the sample time step *)

Lemma init_run (X : Init.programs) (cvf kfp : string) (ip op rv rf : bool)
      (args : list Init.kwarg) (y : Init.sys) (self : Init.attrs) :
  Init.apply_keywords args (Init.defaults cvf kfp ip op rv rf) = Init.Done self ->
  Init.dn self <> 0 -> Init.NChunks self <> 0%Z ->
  Init.__init__ X cvf kfp ip op rv rf args y =
  match Init.check_velocities X self y with
  | (y1, Init.Done _) =>
      match Init.check_forces X self y1 with
      | (y2, Init.Done forces) =>
          (y2, Init.Done
                 {| Init.base := self;
                    Init.chunkSize :=
                      Init.int (Init.steps self / Init.dn self / IZR (Init.NChunks self));
                    Init.sampleTimestep := Init.dt_md self * Init.dn self;
                    Init.fc := forces |})
      | (y2, Init.Fail e) => (y2, Init.Fail e)
      end
  | (y1, Init.Fail e) => (y1, Init.Fail e)
  end.
Proof.
  intros Hk Hdn HN. unfold Init.__init__, Init.ibind, Init.ilift, Init.truediv.
  rewrite Hk. destruct (Req_dec_T (Init.dn self) 0) as [E|_]; [contradiction|].
  destruct (Req_dec_T (IZR (Init.NChunks self)) 0) as [E|_].
  { apply eq_IZR in E. contradiction. }
  destruct (Init.check_velocities X self y) as [y1 [[]|e]]; [|reflexivity].
  destruct (Init.check_forces X self y1) as [y2 [forces|e]]; reflexivity.
Qed.

Lemma init_zero (X : Init.programs) (cvf kfp : string) (ip op rv rf : bool)
      (args : list Init.kwarg) (y : Init.sys) (self : Init.attrs) :
  Init.apply_keywords args (Init.defaults cvf kfp ip op rv rf) = Init.Done self ->
  Init.dn self = 0 \/ Init.NChunks self = 0%Z ->
  Init.__init__ X cvf kfp ip op rv rf args y
  = (y, Init.Fail (Init.Builtin ZeroDivisionError)).
Proof.
  intros Hk Hz. unfold Init.__init__, Init.ibind, Init.ilift, Init.truediv.
  rewrite Hk. destruct (Req_dec_T (Init.dn self) 0) as [E|Hdn]; [reflexivity|].
  destruct Hz as [Hz|Hz]; [contradiction|]. rewrite Hz.
  destruct (Req_dec_T 0 0) as [_|N]; [reflexivity|contradiction].
Qed.

Lemma init_Done (X : Init.programs) (cvf kfp : string) (ip op rv rf : bool)
      (args : list Init.kwarg) (y y' : Init.sys) (i : Init.instance) :
  Init.__init__ X cvf kfp ip op rv rf args y = (y', Init.Done i) ->
  Init.apply_keywords args (Init.defaults cvf kfp ip op rv rf) = Init.Done (Init.base i) /\
  Init.dn (Init.base i) <> 0 /\ Init.NChunks (Init.base i) <> 0%Z /\
  Init.chunkSize i
  = Init.int (Init.steps (Init.base i) / Init.dn (Init.base i)
              / IZR (Init.NChunks (Init.base i))) /\
  Init.sampleTimestep i = Init.dt_md (Init.base i) * Init.dn (Init.base i) /\
  exists y1, Init.check_velocities X (Init.base i) y = (y1, Init.Done tt) /\
             Init.check_forces X (Init.base i) y1 = (y', Init.Done (Init.fc i)).
Proof.
  intros H.
  destruct (Init.apply_keywords args (Init.defaults cvf kfp ip op rv rf)) as [self|e] eqn:Hk.
  2:{ unfold Init.__init__, Init.ibind, Init.ilift in H. rewrite Hk in H. discriminate. }
  destruct (Req_dec_T (Init.dn self) 0) as [E|Hdn].
  { rewrite (init_zero X cvf kfp ip op rv rf args y self Hk (or_introl E)) in H.
    discriminate. }
  destruct (Z.eq_dec (Init.NChunks self) 0) as [E|HN].
  { rewrite (init_zero X cvf kfp ip op rv rf args y self Hk (or_intror E)) in H.
    discriminate. }
  rewrite (init_run X cvf kfp ip op rv rf args y self Hk Hdn HN) in H.
  destruct (Init.check_velocities X self y) as [y1 [[]|e]] eqn:Hv; [|discriminate].
  destruct (Init.check_forces X self y1) as [y2 [forces|e]] eqn:Hf; [|discriminate].
  injection H as <- <-. cbn [Init.base Init.chunkSize Init.sampleTimestep Init.fc].
  repeat split; try assumption. exists y1. split; [exact Hv|exact Hf].
Qed.

Lemma int_nonneg (x : R) : 0 <= x -> (0 <= Init.int x)%Z /\ IZR (Init.int x) <= x < IZR (Init.int x) + 1.
Proof.
  intros Hx. unfold Init.int. destruct (Rle_dec 0 x) as [_|N]; [|contradiction].
  pose proof (Zfloor_bound x) as [H1 H2]. split; [|lra].
  apply le_IZR. pose proof (Zfloor_lub 0 x Hx). now apply IZR_le.
Qed.

(** X18: a zero [dn] or a zero [NChunks] makes the constructor raise
    [ZeroDivisionError] before it looks at a file.  Otherwise it derives
    the sample time step as [dt_md * dn] and, when the truncation does not
    depend on rounding, the chunk size as [int(steps / dn / NChunks)]: for
    positive [steps], [dn] and [NChunks] the largest integer [c >= 0] such
    that [NChunks] chunks of [c] samples, [dn] steps apart, fit into
    [steps] steps. *)
Theorem X18_derived_attributes (X : Init.programs) (Compact_VelocityFile Kij_FilePrefix : string)
        (in_plane out_of_plane reCalcVels reCalcFC : bool)
        (args : list Init.kwarg) (y : Init.sys) :
  (forall self,
     Init.apply_keywords args
       (Init.defaults Compact_VelocityFile Kij_FilePrefix in_plane out_of_plane
          reCalcVels reCalcFC) = Init.Done self ->
     Init.dn self = 0 \/ Init.NChunks self = 0%Z ->
     Init.__init__ X Compact_VelocityFile Kij_FilePrefix in_plane out_of_plane
       reCalcVels reCalcFC args y
     = (y, Init.Fail (Init.Builtin ZeroDivisionError))) /\
  (forall y' i,
     Init.__init__ X Compact_VelocityFile Kij_FilePrefix in_plane out_of_plane
       reCalcVels reCalcFC args y = (y', Init.Done i) ->
     Init.sampleTimestep i = Init.dt_md (Init.base i) * Init.dn (Init.base i) /\
     (chunk_size_stable (Init.steps (Init.base i)) (Init.dn (Init.base i))
        (Init.NChunks (Init.base i)) ->
      Init.chunkSize i
      = Init.int (Init.steps (Init.base i) / Init.dn (Init.base i)
                  / IZR (Init.NChunks (Init.base i))) /\
      (0 < Init.steps (Init.base i) -> 0 < Init.dn (Init.base i) ->
       (0 < Init.NChunks (Init.base i))%Z ->
       (0 <= Init.chunkSize i)%Z /\
       IZR (Init.NChunks (Init.base i)) * IZR (Init.chunkSize i) * Init.dn (Init.base i)
       <= Init.steps (Init.base i)
       < IZR (Init.NChunks (Init.base i)) * (IZR (Init.chunkSize i) + 1)
         * Init.dn (Init.base i)))).
Proof.
  split; [intros self; apply init_zero|].
  intros y' i H. destruct (init_Done _ _ _ _ _ _ _ _ _ _ _ H) as (_ & _ & _ & Hc & Hs & _).
  split; [exact Hs|]. intros _. split; [exact Hc|].
  intros Hst Hdn HN. rewrite Hc.
  assert (HNr : 0 < IZR (Init.NChunks (Init.base i))) by now apply IZR_lt.
  set (q := Init.steps (Init.base i) / Init.dn (Init.base i)
            / IZR (Init.NChunks (Init.base i))).
  assert (Hq : 0 <= q).
  { unfold q. apply Rlt_le. repeat apply Rdiv_lt_0_compat; assumption. }
  destruct (int_nonneg q Hq) as [H0 [Hlo Hhi]]. split; [exact H0|].
  assert (Hst' : Init.steps (Init.base i)
                 = q * (IZR (Init.NChunks (Init.base i)) * Init.dn (Init.base i))).
  { unfold q. field. split; lra. }
  assert (Hp : 0 < IZR (Init.NChunks (Init.base i)) * Init.dn (Init.base i))
    by now apply Rmult_lt_0_compat.
  split.
  - rewrite Hst'.
    replace (IZR (Init.NChunks (Init.base i)) * IZR (Init.int q) * Init.dn (Init.base i))
      with (IZR (Init.int q) * (IZR (Init.NChunks (Init.base i)) * Init.dn (Init.base i)))
      by ring.
    apply Rmult_le_compat_r; lra.
  - rewrite Hst'.
    replace (IZR (Init.NChunks (Init.base i)) * (IZR (Init.int q) + 1)
             * Init.dn (Init.base i))
      with ((IZR (Init.int q) + 1)
            * (IZR (Init.NChunks (Init.base i)) * Init.dn (Init.base i))) by ring.
    apply Rmult_lt_compat_r; lra.
Qed.

Lemma X18_derived_attributes_witness :
  Init.__init__ demo_programs "vels.compact.dat" "Fij.dat" false false false false
    [Init.kw_NChunks 0] demo_sys
  = (demo_sys, Init.Fail (Init.Builtin ZeroDivisionError)) /\
  forall y' i,
    Init.__init__ demo_programs "vels.compact.dat" "Fij.dat" false false false false
      [] demo_sys = (y', Init.Done i) ->
    Init.base i = Init.defaults "vels.compact.dat" "Fij.dat" false false false false ->
    Init.chunkSize i = 2500%Z.
Proof.
  split.
  - apply (proj1 (X18_derived_attributes demo_programs "vels.compact.dat" "Fij.dat"
                    false false false false [Init.kw_NChunks 0] demo_sys)
             (Init.setattr (Init.kw_NChunks 0)
                (Init.defaults "vels.compact.dat" "Fij.dat" false false false false))).
    + reflexivity.
    + right. reflexivity.
  - intros y' i H Hb.
    destruct (proj2 (X18_derived_attributes demo_programs "vels.compact.dat" "Fij.dat"
                       false false false false [] demo_sys) y' i H) as (_ & Hc).
    destruct Hc as (_ & Hc).
    + rewrite Hb. cbn [Init.defaults Init.steps Init.dn Init.NChunks].
      split; [reflexivity|]. left. exists 50000%Z, 2500%Z.
      split; [lra|]. split; [reflexivity|]. split; [reflexivity|].
      rewrite Rabs_pos_eq; lra.
    + rewrite Hb in Hc. cbn [Init.defaults Init.steps Init.dn Init.NChunks] in Hc.
      destruct Hc as (H0 & Hlo & Hhi); try lra; try lia.
      assert (2499 < Init.chunkSize i)%Z by (apply lt_IZR; lra).
      assert (Init.chunkSize i <= 2500)%Z by (apply le_IZR; lra).
      lia.
Defined.

(** ** More chunks than samples *)

Lemma int_small (x : R) : 0 <= x < 1 -> Init.int x = 0%Z.
Proof.
  intros [H0 H1]. unfold Init.int. destruct (Rle_dec 0 x) as [_|N]; [|contradiction].
  apply Zfloor_eq. simpl. lra.
Qed.

(** X19: an object that the constructor returned for more requested
    chunks than there are samples ([steps / dn] below [NChunks] by more
    than rounding, [NChunks] below [2^63]) has a chunk size of zero;
    [postProcess] then stops with
    a [ZeroDivisionError] right after the header, whatever the velocity
    file holds. *)
Theorem X19_more_chunks_than_samples (X : Init.programs)
        (Compact_VelocityFile Kij_FilePrefix : string)
        (in_plane out_of_plane reCalcVels reCalcFC : bool)
        (args : list Init.kwarg) (y y' : Init.sys) (i : Init.instance) (f : velfile) :
  Init.__init__ X Compact_VelocityFile Kij_FilePrefix in_plane out_of_plane
    reCalcVels reCalcFC args y = (y', Init.Done i) ->
  0 < Init.steps (Init.base i) -> 0 < Init.dn (Init.base i) ->
  Init.steps (Init.base i) / Init.dn (Init.base i) * (1 + margin)
  < IZR (Init.NChunks (Init.base i)) ->
  (Init.NChunks (Init.base i) < 2 ^ 63)%Z ->
  Init.chunkSize i = 0%Z /\
  (header_ok (object_of i) f ->
   postProcess (object_of i) f
   = ({| self := object_of i; fid := samples f; trace := [EvHeader] |},
      Raise ZeroDivisionError)).
Proof.
  intros H Hst Hdn Hlt' _.
  destruct (init_Done _ _ _ _ _ _ _ _ _ _ _ H) as (_ & _ & _ & Hc & _).
  assert (Hq : 0 < Init.steps (Init.base i) / Init.dn (Init.base i))
    by now apply Rdiv_lt_0_compat.
  assert (Hlt : Init.steps (Init.base i) / Init.dn (Init.base i)
                < IZR (Init.NChunks (Init.base i))).
  { unfold margin in Hlt'. nra. }
  assert (HN : 0 < IZR (Init.NChunks (Init.base i))) by lra.
  assert (Hz : Init.chunkSize i = 0%Z).
  { rewrite Hc. apply int_small. split.
    - apply Rlt_le. now apply Rdiv_lt_0_compat.
    - apply (Rmult_lt_reg_r (IZR (Init.NChunks (Init.base i)))); [exact HN|].
      unfold Rdiv at 1. rewrite Rmult_assoc, Rinv_l by lra. lra. }
  split; [exact Hz|].
  intros Hh. apply run_no_grid; [exact Hh|].
  unfold object_of. cbn [chunkSize]. rewrite Hz. simpl. ring.
Qed.

(** ** The stride of the velocity file *)


(** ** The scenario directory *)

Lemma INR_div3 (a b : nat) : INR a / 3 = INR b <-> a = (3 * b)%nat.
Proof.
  assert (H3 : INR 3 = 3) by (simpl; lra).
  split.
  - intros H. apply INR_eq. rewrite mult_INR, H3. lra.
  - intros ->. rewrite mult_INR, H3. lra.
Qed.

Lemma demo_loadFC (y : Init.sys) :
  Init.files y = demo_files ->
  Init._loadFC "Fij.dat" y
  = ({| Init.files := demo_files;
        Init.actions := Init.actions y ++ Init.actions demo_loaded |},
     Init.Done demo_forces).
Proof.
  intros Hf. destruct y as [fs acts]. cbn [Init.files] in Hf. subst fs.
  unfold Init._loadFC, Init.ibind, Init.np_load, Init.iret, Init.raise.
  cbn [Init.files Init.actions Init.isfile demo_files existsb String.eqb Ascii.eqb
       Bool.eqb append orb Init.matrix_at Init.indices_at Init.integers_at
       Init.size0 Init.size1 length demo_loaded].
  destruct (Req_dec_T (INR 6 / 3) (INR 2)) as [_|N];
    [|exfalso; apply N; apply INR_div3; reflexivity].
  cbn [Init.files Init.actions Init.isfile demo_files existsb String.eqb Ascii.eqb
       Bool.eqb append orb Init.matrix_at Init.indices_at Init.integers_at].
  rewrite <- !app_assoc. reflexivity.
Qed.

Lemma demo_init (ip op : bool) (args : list Init.kwarg) (self : Init.attrs) :
  Init.apply_keywords args (Init.defaults "vels.compact.dat" "Fij.dat" ip op false false)
  = Init.Done self ->
  Init.dn self <> 0 -> Init.NChunks self <> 0%Z ->
  Init.compactVelocityFile self = "vels.compact.dat"%string ->
  Init.KijFilePrefix self = "Fij.dat"%string ->
  Init.__init__ demo_programs "vels.compact.dat" "Fij.dat" ip op false false args demo_sys
  = (demo_loaded,
     Init.Done {| Init.base := self;
                  Init.chunkSize :=
                    Init.int (Init.steps self / Init.dn self / IZR (Init.NChunks self));
                  Init.sampleTimestep := Init.dt_md self * Init.dn self;
                  Init.fc := demo_forces |}).
Proof.
  intros Hk Hdn HN Hc Hp.
  rewrite (init_run _ _ _ _ _ _ _ _ _ self Hk Hdn HN).
  destruct (apply_keywords_fixed _ _ _ Hk) as (Hrv & Hrf & _).
  cbn [Init.defaults Init.reCalcVels Init.reCalcFC] in Hrv, Hrf.
  unfold Init.check_velocities, Init.check_forces, Init.ibind, Init.get_files, Init.iret.
  rewrite Hrv, Hrf, Hc, Hp.
  cbn [demo_sys Init.files Init.isfile demo_files existsb String.eqb Ascii.eqb Bool.eqb
       append orb negb].
  rewrite demo_loadFC by reflexivity. reflexivity.
Qed.

Lemma demo_header (args : list Init.kwarg) (l : list R) :
  Init.dt_md (demo_attrs args) * Init.dn (demo_attrs args)
  = 10 * Init.dt_md (demo_attrs args) ->
  header_ok (object_of (demo_instance args)) (demo_file l).
Proof.
  intros H. split; [reflexivity|]. split; [|reflexivity].
  unfold object_of, demo_instance, demo_file.
  cbn [cfg dt_md sampleTimestep hdr_stride Init.base Init.sampleTimestep]. lra.
Qed.

Lemma X19_more_chunks_than_samples_witness :
  postProcess (object_of (demo_instance [Init.kw_steps 100; Init.kw_NChunks 20]))
    (demo_file (repeat 0 96))
  = ({| self := object_of (demo_instance [Init.kw_steps 100; Init.kw_NChunks 20]);
        fid := repeat 0 96; trace := [EvHeader] |}, Raise ZeroDivisionError).
Proof.
  apply (X19_more_chunks_than_samples demo_programs "vels.compact.dat" "Fij.dat"
           false false false false [Init.kw_steps 100; Init.kw_NChunks 20]
           demo_sys demo_loaded).
  - apply (demo_init false false [Init.kw_steps 100; Init.kw_NChunks 20]
             (demo_attrs [Init.kw_steps 100; Init.kw_NChunks 20]));
      try reflexivity; cbn; try lra; lia.
  - cbn. lra.
  - cbn. lra.
  - unfold margin. cbn. lra.
  - reflexivity.
  - apply demo_header. cbn. lra.
Defined.


(** ** When [compactify_vels] is run *)

Lemma loadFC_actions (prefix : string) (y : Init.sys) :
  Init.files (fst (Init._loadFC prefix y)) = Init.files y /\
  exists l, Init.actions (fst (Init._loadFC prefix y)) = Init.actions y ++ l /\
            Forall (fun a => Init.is_compactify a = false) l.
Proof.
  unfold Init._loadFC, Init.ibind, Init.np_load, Init.iret, Init.raise.
  cbn [Init.files Init.actions].
  destruct (Init.isfile (Init.files y) (prefix ++ ".Kij.npy")); cbn [fst Init.files Init.actions].
  2:{ split; [reflexivity|]. eexists. split; [reflexivity|]. repeat constructor. }
  destruct (Init.isfile (Init.files y) (prefix ++ ".ids_L.npy")); cbn [fst Init.files Init.actions].
  2:{ split; [reflexivity|]. eexists. split; [symmetry; apply app_assoc|]. repeat constructor. }
  destruct (Init.isfile (Init.files y) (prefix ++ ".ids_R.npy")); cbn [fst Init.files Init.actions].
  2:{ split; [reflexivity|]. eexists. split; [rewrite <- !app_assoc; reflexivity|].
      repeat constructor. }
  destruct (Req_dec_T _ _); [destruct (Req_dec_T _ _)|]; cbn [fst Init.files Init.actions].
  - destruct (Init.isfile (Init.files y) (prefix ++ ".ids_Interface.npy"));
      cbn [fst Init.files Init.actions];
      (split; [reflexivity|]); eexists; (split; [rewrite <- !app_assoc; reflexivity|]);
      repeat constructor.
  - split; [reflexivity|]. eexists. split; [rewrite <- !app_assoc; reflexivity|].
    repeat constructor.
  - split; [reflexivity|]. eexists. split; [rewrite <- !app_assoc; reflexivity|].
    repeat constructor.
Qed.

Lemma check_forces_actions (X : Init.programs) (self : Init.attrs) (y : Init.sys) :
  exists l, Init.actions (fst (Init.check_forces X self y)) = Init.actions y ++ l /\
            Forall (fun a => Init.is_compactify a = false) l.
Proof.
  unfold Init.check_forces, Init.ibind, Init.get_files, Init.raise, Init._calcFC.
  destruct (Init.reCalcFC self || negb (Init.isfile (Init.files y) _))%bool.
  - destruct (Init.LAMMPSInFile self) as [inf|].
    + destruct (Init.fcCalc X _ _ _ _) as [fs r]. cbn [fst Init.actions].
      eexists. split; [reflexivity|]. repeat constructor.
    + exists []. split; [now rewrite app_nil_r|constructor].
  - apply loadFC_actions.
Qed.

(** X21: [compactify_vels] is started at most once by the constructor,
    and only with an existing dump file as its source and the compact
    velocity file as its target, when [reCalcVels] is set or the compact
    file is missing; an existing compact file is never rewritten
    otherwise. *)
Theorem X21_compactify_vels_runs (X : Init.programs)
        (Compact_VelocityFile Kij_FilePrefix : string)
        (in_plane out_of_plane reCalcVels reCalcFC : bool)
        (args : list Init.kwarg) (y : Init.sys) :
  exists l : list Init.action,
    Init.actions (fst (Init.__init__ X Compact_VelocityFile Kij_FilePrefix
                         in_plane out_of_plane reCalcVels reCalcFC args y))
    = Init.actions y ++ l /\
    (length (filter Init.is_compactify l) <= 1)%nat /\
    forall src dst, In (Init.RunCompactify src dst) l ->
      exists self,
        Init.apply_keywords args
          (Init.defaults Compact_VelocityFile Kij_FilePrefix in_plane out_of_plane
             reCalcVels reCalcFC) = Init.Done self /\
        Init.LAMMPSDumpFile self = Some src /\
        Init.isfile (Init.files y) src = true /\
        dst = Init.compactVelocityFile self /\
        (reCalcVels = true \/ Init.isfile (Init.files y) dst = false).
Proof.
  assert (Hnil : forall r : Init.result Init.instance,
             exists l : list Init.action,
               Init.actions (fst (y, r)) = Init.actions y ++ l /\
               (length (filter Init.is_compactify l) <= 1)%nat /\
               forall src dst, In (Init.RunCompactify src dst) l ->
                 exists self,
                   Init.apply_keywords args
                     (Init.defaults Compact_VelocityFile Kij_FilePrefix in_plane
                        out_of_plane reCalcVels reCalcFC) = Init.Done self /\
                   Init.LAMMPSDumpFile self = Some src /\
                   Init.isfile (Init.files y) src = true /\
                   dst = Init.compactVelocityFile self /\
                   (reCalcVels = true \/ Init.isfile (Init.files y) dst = false)).
  { intros r. exists []. cbn. split; [now rewrite app_nil_r|]. split; [lia|].
    intros src dst []. }
  destruct (Init.apply_keywords args
              (Init.defaults Compact_VelocityFile Kij_FilePrefix in_plane out_of_plane
                 reCalcVels reCalcFC)) as [self|e] eqn:Hk.
  2:{ unfold Init.__init__, Init.ibind, Init.ilift. rewrite Hk. apply Hnil. }
  destruct (Req_dec_T (Init.dn self) 0) as [E|Hdn].
  { rewrite (init_zero X _ _ _ _ _ _ args y self Hk (or_introl E)). apply Hnil. }
  destruct (Z.eq_dec (Init.NChunks self) 0) as [E|HN].
  { rewrite (init_zero X _ _ _ _ _ _ args y self Hk (or_intror E)). apply Hnil. }
  rewrite (init_run X _ _ _ _ _ _ args y self Hk Hdn HN).
  destruct (apply_keywords_fixed _ _ _ Hk) as (Hrv & _).
  cbn [Init.defaults Init.reCalcVels] in Hrv.
  assert (Hfilter : forall l, Forall (fun a => Init.is_compactify a = false) l ->
                              filter Init.is_compactify l = []).
  { intros l Hl. induction Hl as [|a l Ha _ IH]; cbn; [reflexivity|]. now rewrite Ha. }
  unfold Init.check_velocities, Init.ibind, Init.get_files, Init.raise, Init.iret.
  destruct (Init.reCalcVels self || negb (Init.isfile (Init.files y)
                                            (Init.compactVelocityFile self)))%bool eqn:Hneed.
  2:{ destruct (check_forces_actions X self y) as (l & Hl & Hno).
      destruct (Init.check_forces X self y) as [y2 [forces|e]]; cbn [fst] in *;
        (exists l; split; [exact Hl|]; split; [rewrite (Hfilter l Hno); cbn; lia|];
         intros src dst Hin; rewrite Forall_forall in Hno;
         specialize (Hno _ Hin); discriminate). }
  destruct (Init.LAMMPSDumpFile self) as [dump|] eqn:Hdump; [|apply Hnil].
  destruct (Init.isfile (Init.files y) dump) eqn:Hisf; cbn [negb]; [|apply Hnil].
  assert (Hwhy : reCalcVels = true \/
                 Init.isfile (Init.files y) (Init.compactVelocityFile self) = false).
  { rewrite Hrv in Hneed. apply orb_true_iff in Hneed.
    destruct Hneed as [H|H]; [now left|right]. now apply negb_true_iff in H. }
  unfold Init._compactVels.
  destruct (Init.compactify_vels X dump (Init.compactVelocityFile self) (Init.files y))
    as [fs|].
  - destruct (check_forces_actions X self
                {| Init.files := fs;
                   Init.actions := Init.actions y
                                   ++ [Init.RunCompactify dump
                                         (Init.compactVelocityFile self)] |})
      as (l & Hl & Hno).
    cbn [Init.actions] in Hl.
    destruct (Init.check_forces X self _) as [y2 [forces|e]]; cbn [fst] in *;
      (exists (Init.RunCompactify dump (Init.compactVelocityFile self) :: l);
       split; [rewrite Hl, <- app_assoc; reflexivity|];
       split; [cbn; rewrite (Hfilter l Hno); cbn; lia|];
       intros src dst [Hin|Hin];
       [injection Hin as <- <-; exists self; repeat split; assumption
       |rewrite Forall_forall in Hno; specialize (Hno _ Hin); discriminate]).
  - exists [Init.RunCompactify dump (Init.compactVelocityFile self)].
    cbn [fst Init.actions]. split; [reflexivity|]. split; [cbn; lia|].
    intros src dst [Hin|[]]. injection Hin as <- <-.
    exists self. repeat split; assumption.
Qed.

Lemma X21_compactify_vels_runs_witness :
  exists l : list Init.action,
    Init.actions (fst (Init.__init__ idle_programs "vels.compact.dat" "Fij.dat"
                         false false true false
                         [Init.kw_LAMMPSDumpFile (Some "vels.dat"%string)] demo_sys))
    = Init.actions demo_sys ++ l /\
    (length (filter Init.is_compactify l) <= 1)%nat /\
    In (Init.RunCompactify "vels.dat" "vels.compact.dat") l.
Proof.
  destruct (X21_compactify_vels_runs idle_programs "vels.compact.dat" "Fij.dat"
              false false true false [Init.kw_LAMMPSDumpFile (Some "vels.dat"%string)]
              demo_sys) as (l & Hl & Hc & _).
  exists l. split; [exact Hl|]. split; [exact Hc|].
  rewrite (init_run idle_programs "vels.compact.dat" "Fij.dat" false false true false
             [Init.kw_LAMMPSDumpFile (Some "vels.dat"%string)] demo_sys
             (Init.setattr (Init.kw_LAMMPSDumpFile (Some "vels.dat"%string))
                (Init.defaults "vels.compact.dat" "Fij.dat" false false true false)))
    in Hl; [|reflexivity|cbn; lra|cbn; lia].
  unfold Init.check_velocities, Init.check_forces, Init.ibind, Init.get_files, Init.iret,
    Init._compactVels in Hl.
  cbn [Init.setattr Init.defaults Init.reCalcVels Init.reCalcFC Init.compactVelocityFile
       Init.KijFilePrefix Init.LAMMPSDumpFile demo_sys idle_programs Init.compactify_vels
       Init.files Init.actions Init.isfile demo_files existsb String.eqb Ascii.eqb Bool.eqb
       append orb negb app] in Hl.
  rewrite demo_loadFC in Hl by reflexivity.
  cbn [fst Init.actions app] in Hl. subst l. now left.
Defined.

(** ** Loading the force constants *)

Lemma np_load_run {A : Type} (content : Init.filesystem -> string -> A) (path : string)
      (y : Init.sys) :
  Init.np_load content path y
  = ({| Init.files := Init.files y; Init.actions := Init.actions y ++ [Init.LoadNpy path] |},
     if Init.isfile (Init.files y) path then Init.Done (content (Init.files y) path)
     else Init.Fail Init.FileNotFoundError).
Proof. reflexivity. Qed.

(** X22: [_loadFC] returns exactly when the four array files exist and the
    force constants have three rows for each left index and three columns
    for each right index; it then takes the four arrays as they are, counts
    the two sides by the lengths of their index arrays, and changes no
    file.  A shape that does not match raises [ValueError] before the
    interface indices are loaded, and a missing index file raises
    [FileNotFoundError] although the constructor has only checked the file
    of the force constants. *)
Theorem X22_loadFC (KijFilePrefix : string) (y : Init.sys) :
  let fs := Init.files y in
  let K := Init.matrix_at fs (KijFilePrefix ++ ".Kij.npy") in
  let idsL := Init.indices_at fs (KijFilePrefix ++ ".ids_L.npy") in
  let idsR := Init.indices_at fs (KijFilePrefix ++ ".ids_R.npy") in
  let present :=
    (Init.isfile fs (KijFilePrefix ++ ".Kij.npy")
     && Init.isfile fs (KijFilePrefix ++ ".ids_L.npy")
     && Init.isfile fs (KijFilePrefix ++ ".ids_R.npy"))%bool in
  let fits := Init.size0 K = (3 * length idsL)%nat /\ Init.size1 K = (3 * length idsR)%nat in
  (present = true -> fits ->
   Init.isfile fs (KijFilePrefix ++ ".ids_Interface.npy") = true ->
   snd (Init._loadFC KijFilePrefix y)
   = Init.Done {| Init.Kij := K; Init.ids_L := idsL; Init.ids_R := idsR;
                  Init.NL := length idsL; Init.NR := length idsR;
                  Init.inds_interface :=
                    Init.integers_at fs (KijFilePrefix ++ ".ids_Interface.npy") |}) /\
  (forall y' forces,
     Init._loadFC KijFilePrefix y = (y', Init.Done forces) ->
     Init.files y' = fs /\ present = true /\
     Init.isfile fs (KijFilePrefix ++ ".ids_Interface.npy") = true /\
     Init.NL forces = length (Init.ids_L forces) /\
     Init.NR forces = length (Init.ids_R forces) /\
     Init.size0 (Init.Kij forces) = (3 * Init.NL forces)%nat /\
     Init.size1 (Init.Kij forces) = (3 * Init.NR forces)%nat) /\
  (present = true -> ~ fits ->
   snd (Init._loadFC KijFilePrefix y) = Init.Fail (Init.Builtin ValueError) /\
   Init.actions (fst (Init._loadFC KijFilePrefix y))
   = Init.actions y ++ [Init.LoadNpy (KijFilePrefix ++ ".Kij.npy");
                        Init.LoadNpy (KijFilePrefix ++ ".ids_L.npy");
                        Init.LoadNpy (KijFilePrefix ++ ".ids_R.npy")]) /\
  (present = false -> snd (Init._loadFC KijFilePrefix y) = Init.Fail Init.FileNotFoundError) /\
  (present = true -> fits ->
   Init.isfile fs (KijFilePrefix ++ ".ids_Interface.npy") = false ->
   snd (Init._loadFC KijFilePrefix y) = Init.Fail Init.FileNotFoundError).
Proof.
  cbv zeta.
  unfold Init._loadFC, Init.ibind, Init.iret, Init.raise. rewrite !np_load_run.
  cbn [Init.files Init.actions].
  destruct (Init.isfile (Init.files y) (KijFilePrefix ++ ".Kij.npy")) eqn:E1;
    cbn [andb].
  2:{ repeat split; try discriminate; try reflexivity. }
  destruct (Init.isfile (Init.files y) (KijFilePrefix ++ ".ids_L.npy")) eqn:E2;
    cbn [andb].
  2:{ repeat split; try discriminate; try reflexivity. }
  destruct (Init.isfile (Init.files y) (KijFilePrefix ++ ".ids_R.npy")) eqn:E3;
    cbn [andb].
  2:{ repeat split; try discriminate; try reflexivity. }
  destruct (Req_dec_T _ _) as [F1|F1]; [destruct (Req_dec_T _ _) as [F2|F2]|].
  - apply INR_div3 in F1, F2. rewrite np_load_run. cbn [Init.files Init.actions].
    destruct (Init.isfile (Init.files y) (KijFilePrefix ++ ".ids_Interface.npy")) eqn:E4.
    + split; [reflexivity|]. split.
      { intros y' forces H. injection H as <- <-. cbn. repeat split; assumption. }
      split; [intros _ Hn; exfalso; apply Hn; split; assumption|].
      split; [discriminate|]. discriminate.
    + split; [discriminate|]. split; [discriminate|].
      split; [intros _ Hn; exfalso; apply Hn; split; assumption|].
      split; [discriminate|]. reflexivity.
  - assert (Hn : ~ (Init.size0 (Init.matrix_at (Init.files y) (KijFilePrefix ++ ".Kij.npy"))
                    = (3 * length (Init.indices_at (Init.files y)
                                     (KijFilePrefix ++ ".ids_L.npy")))%nat /\
                    Init.size1 (Init.matrix_at (Init.files y) (KijFilePrefix ++ ".Kij.npy"))
                    = (3 * length (Init.indices_at (Init.files y)
                                     (KijFilePrefix ++ ".ids_R.npy")))%nat)).
    { intros [_ H]. apply F2, INR_div3, H. }
    split; [intros _ H; contradiction|]. split; [discriminate|].
    split.
    { intros _ _. split; [reflexivity|]. cbn [fst Init.actions].
      now rewrite <- !app_assoc. }
    split; [discriminate|]. intros _ H; contradiction.
  - assert (Hn : ~ (Init.size0 (Init.matrix_at (Init.files y) (KijFilePrefix ++ ".Kij.npy"))
                    = (3 * length (Init.indices_at (Init.files y)
                                     (KijFilePrefix ++ ".ids_L.npy")))%nat /\
                    Init.size1 (Init.matrix_at (Init.files y) (KijFilePrefix ++ ".Kij.npy"))
                    = (3 * length (Init.indices_at (Init.files y)
                                     (KijFilePrefix ++ ".ids_R.npy")))%nat)).
    { intros [H _]. apply F1, INR_div3, H. }
    split; [intros _ H; contradiction|]. split; [discriminate|].
    split.
    { intros _ _. split; [reflexivity|]. cbn [fst Init.actions].
      now rewrite <- !app_assoc. }
    split; [discriminate|]. intros _ H; contradiction.
Qed.

Lemma X22_loadFC_witness :
  snd (Init._loadFC "Fij.dat" demo_sys) = Init.Done demo_forces.
Proof.
  apply (proj1 (X22_loadFC "Fij.dat" demo_sys)).
  - reflexivity.
  - split; reflexivity.
  - reflexivity.
Defined.

(** ** The object that the constructor hands to [postProcess] *)

Lemma loadFC_Done (prefix : string) (y y' : Init.sys) (forces : Init.forces) :
  Init._loadFC prefix y = (y', Init.Done forces) ->
  Init.files y' = Init.files y /\
  Init.actions y'
  = Init.actions y ++ [Init.LoadNpy (prefix ++ ".Kij.npy");
                       Init.LoadNpy (prefix ++ ".ids_L.npy");
                       Init.LoadNpy (prefix ++ ".ids_R.npy");
                       Init.LoadNpy (prefix ++ ".ids_Interface.npy")] /\
  Init.Kij forces = Init.matrix_at (Init.files y) (prefix ++ ".Kij.npy") /\
  Init.NL forces = length (Init.ids_L forces) /\
  Init.NR forces = length (Init.ids_R forces) /\
  Init.size0 (Init.Kij forces) = (3 * Init.NL forces)%nat /\
  Init.size1 (Init.Kij forces) = (3 * Init.NR forces)%nat.
Proof.
  unfold Init._loadFC, Init.ibind, Init.iret, Init.raise. rewrite !np_load_run.
  cbn [Init.files Init.actions].
  destruct (Init.isfile (Init.files y) (prefix ++ ".Kij.npy")); [|discriminate].
  destruct (Init.isfile (Init.files y) (prefix ++ ".ids_L.npy")); [|discriminate].
  destruct (Init.isfile (Init.files y) (prefix ++ ".ids_R.npy")); [|discriminate].
  destruct (Req_dec_T _ _) as [F1|F1]; [|discriminate].
  destruct (Req_dec_T _ _) as [F2|F2]; [|discriminate].
  apply INR_div3 in F1, F2. rewrite np_load_run. cbn [Init.files Init.actions].
  destruct (Init.isfile (Init.files y) (prefix ++ ".ids_Interface.npy")); [|discriminate].
  intros H. injection H as <- <-. cbn. rewrite <- !app_assoc.
  repeat split; assumption.
Qed.

(** X23: when the compact velocity file and the file of the force
    constants exist and no recalculation is asked for, the constructor
    starts no program and changes no file, and the object it returns has
    [NL] and [NR] equal to the lengths of the two index arrays, the
    projection flags as given and, for a well-formed stored matrix, force
    constants of [3 NL] rows and [3 NR] columns.  Such an object meets the
    preconditions of a run exactly when, in addition, the side indices are
    below the number of atoms, there is at least one atom, the chunk size is
    at least two, the sample time step and the window width are positive and
    the two flags are not both set. *)
Theorem X23_constructed_object (X : Init.programs)
        (Compact_VelocityFile Kij_FilePrefix : string) (ip op : bool)
        (args : list Init.kwarg) (y y' : Init.sys) (i : Init.instance) :
  Init.__init__ X Compact_VelocityFile Kij_FilePrefix ip op false false args y
  = (y', Init.Done i) ->
  Init.isfile (Init.files y) (Init.compactVelocityFile (Init.base i)) = true ->
  Init.isfile (Init.files y) (Init.KijFilePrefix (Init.base i) ++ ".Kij.npy") = true ->
  shape (Init.rows (Init.matrix_at (Init.files y)
                      (Init.KijFilePrefix (Init.base i) ++ ".Kij.npy")))
        (Init.size0 (Init.matrix_at (Init.files y)
                       (Init.KijFilePrefix (Init.base i) ++ ".Kij.npy")))
        (Init.size1 (Init.matrix_at (Init.files y)
                       (Init.KijFilePrefix (Init.base i) ++ ".Kij.npy"))) ->
  Init.files y' = Init.files y /\
  (exists l, Init.actions y' = Init.actions y ++ l /\
             Forall (fun a => exists p, a = Init.LoadNpy p) l) /\
  NL (cfg (object_of i)) = length (ids_L (cfg (object_of i))) /\
  NR (cfg (object_of i)) = length (ids_R (cfg (object_of i))) /\
  shape (Kij (object_of i)) (3 * NL (cfg (object_of i))) (3 * NR (cfg (object_of i))) /\
  in_plane (cfg (object_of i)) = ip /\
  out_of_plane (cfg (object_of i)) = op /\
  (run_ready (object_of i) <->
   Forall (fun a => (a < NL (cfg (object_of i)) + NR (cfg (object_of i)))%nat)
          (ids_L (cfg (object_of i))) /\
   Forall (fun a => (a < NL (cfg (object_of i)) + NR (cfg (object_of i)))%nat)
          (ids_R (cfg (object_of i))) /\
   (0 < NL (cfg (object_of i)) + NR (cfg (object_of i)))%nat /\
   (2 <= Init.chunkSize i)%Z /\
   0 < Init.dt_md (Init.base i) * Init.dn (Init.base i) /\
   0 < Init.widthWin (Init.base i) /\
   (ip && op)%bool = false).
Proof.
  intros H Hc Hk HK.
  destruct (init_Done _ _ _ _ _ _ _ _ _ _ _ H) as (Ha & _ & _ & _ & Hs & y1 & Hv & Hf).
  destruct (apply_keywords_fixed _ _ _ Ha) as (Hrv & Hrf & Hip & Hop).
  cbn [Init.defaults Init.reCalcVels Init.reCalcFC Init.in_plane Init.out_of_plane]
    in Hrv, Hrf, Hip, Hop.
  unfold Init.check_velocities, Init.ibind, Init.get_files, Init.iret in Hv.
  rewrite Hrv, Hc in Hv. cbn [orb negb] in Hv. injection Hv as <-.
  unfold Init.check_forces, Init.ibind, Init.get_files in Hf.
  rewrite Hrf, Hk in Hf. cbn [orb negb] in Hf.
  destruct (loadFC_Done _ _ _ _ Hf) as (F1 & F2 & F3 & F4 & F5 & F6 & F7).
  split; [exact F1|]. split.
  { eexists. split; [exact F2|]. repeat constructor; eexists; reflexivity. }
  unfold object_of.
  cbn [cfg Kij NL NR ids_L ids_R in_plane out_of_plane chunkSize sampleTimestep widthWin].
  split; [exact F4|]. split; [exact F5|].
  assert (HKs : shape (Init.rows (Init.Kij (Init.fc i))) (3 * Init.NL (Init.fc i))
                      (3 * Init.NR (Init.fc i))).
  { rewrite <- F6, <- F7, F3. exact HK. }
  split; [exact HKs|]. split; [exact Hip|]. split; [exact Hop|].
  rewrite <- Hip, <- Hop, <- Hs.
  split.
  - intros [(_ & _ & I3 & I4) Hat _ HL Hdt Hw Hdir].
    cbn [cfg Kij NL NR ids_L ids_R in_plane out_of_plane chunkSize sampleTimestep widthWin]
      in *.
    repeat split; try assumption. lia.
  - intros (I3 & I4 & Hat & HL & Hdt & Hw & Hdir).
    split;
      cbn [cfg Kij NL NR ids_L ids_R in_plane out_of_plane chunkSize sampleTimestep widthWin];
      try assumption; try lia.
    repeat split; assumption.
Qed.

Lemma X23_constructed_object_witness :
  shape (Kij (object_of (demo_instance []))) 6 6 /\
  NL (cfg (object_of (demo_instance []))) = 2%nat /\
  run_ready (object_of (demo_instance [])).
Proof.
  destruct (X23_constructed_object demo_programs "vels.compact.dat" "Fij.dat" false false
              [] demo_sys demo_loaded (demo_instance []))
    as (_ & _ & H3 & _ & H5 & _ & _ & H8).
  - apply (demo_init false false [] (demo_attrs [])); try reflexivity; cbn; try lra; lia.
  - reflexivity.
  - reflexivity.
  - split; [reflexivity|]. repeat constructor.
  - split; [exact H5|]. split; [reflexivity|]. apply H8.
    split; [repeat constructor|]. split; [repeat constructor|].
    split; [cbn; lia|]. split.
    + assert (E : Init.chunkSize (demo_instance []) = 2500%Z).
      { unfold demo_instance, Init.int. cbn [Init.chunkSize].
        destruct (Rle_dec 0 _) as [_|N]; [|exfalso; apply N; cbn; lra].
        apply Zfloor_eq. cbn. lra. }
      rewrite E. lia.
    + cbn. split; [lra|]. split; [lra|reflexivity].
Defined.

(** * The accumulated conductance of the script *)

Lemma nth_tl {A : Type} (l : list A) (j : nat) (d : A) : nth j (tl l) d = nth (S j) l d.
Proof. destruct l; [destruct j; reflexivity|reflexivity]. Qed.

Lemma length_tl {A : Type} (l : list A) : length (tl l) = (length l - 1)%nat.
Proof. destruct l; simpl; lia. Qed.

Lemma map2_as_seq_min {A B D : Type} (f : A -> B -> D) (u : list A) (v : list B)
      (da : A) (db : B) :
  map2 f u v
  = map (fun j => f (nth j u da) (nth j v db)) (seq 0 (Nat.min (length u) (length v))).
Proof.
  revert v; induction u as [|a u IH]; intros [|b v]; cbn [map2 length Nat.min seq map];
    try reflexivity.
  f_equal. rewrite (IH v). rewrite <- seq_shift, map_map. reflexivity.
Qed.

Lemma trapz_ok (y x : list R) :
  length y = length x ->
  script.trapz y x = Ok (trapezoids y x (length x - 1)).
Proof.
  intros H. unfold script.trapz, script.diff, np.broadcast2.
  rewrite !map2_length, !length_tl, H, Nat.eqb_refl. cbn [rbind]. f_equal.
  unfold trapezoids.
  rewrite (map2_as_seq_min Rmult _ _ 0 0), map_map.
  rewrite !map2_length, !length_tl, H.
  replace (Nat.min (Nat.min (length x - 1) (length x)) (Nat.min (length x - 1) (length x)))
    with (length x - 1)%nat by lia.
  f_equal. apply map_ext_in. intros j Hj. apply in_seq in Hj.
  rewrite (nth_map2 _ _ _ _ _ 0 0) by (rewrite ?length_tl; lia).
  rewrite (nth_map2 _ _ _ _ _ 0 0) by (rewrite ?length_tl; lia).
  now rewrite !nth_tl.
Qed.

Lemma nth_firstn_lt {A : Type} (l : list A) (i j : nat) (d : A) :
  (j < i)%nat -> nth j (firstn i l) d = nth j l d.
Proof.
  revert i j; induction l as [|a l IH]; intros [|i] [|j] H; simpl; try reflexivity; try lia.
  apply IH. lia.
Qed.

Lemma trapz_firstn (y x : list R) (i : nat) :
  length y = length x -> (i <= length x)%nat ->
  script.trapz (firstn i y) (firstn i x) = Ok (trapezoids y x (i - 1)).
Proof.
  intros H Hi. rewrite trapz_ok by (rewrite !length_firstn; lia).
  rewrite length_firstn, Nat.min_l by exact Hi. f_equal.
  unfold trapezoids. f_equal. apply map_ext_in. intros j Hj. apply in_seq in Hj.
  now rewrite !nth_firstn_lt by lia.
Qed.

Lemma accumulate_ok (y x : list R) (k : nat) :
  length y = length x ->
  forall (i : nat) (acc : list R) (c : R),
    (i + k <= length x)%nat ->
    script.accumulate y x (seq i k) acc c
    = Ok (acc ++ map (fun j => trapezoids y x (j - 1)) (seq i k),
          match k with O => c | S k' => trapezoids y x (i + k' - 1) end).
Proof.
  intros H. induction k as [|k IH]; intros i acc c Hi.
  - cbn. now rewrite app_nil_r.
  - cbn [seq script.accumulate]. rewrite trapz_firstn by (try exact H; lia).
    cbn [rbind]. rewrite IH by lia. cbn [map]. rewrite <- app_assoc. cbn [app].
    f_equal. f_equal. destruct k as [|k'].
    + now rewrite Nat.add_0_r.
    + f_equal. lia.
Qed.

Lemma trapezoids_S (y x : list R) (k : nat) :
  trapezoids y x (S k)
  = trapezoids y x k + (nth (S k) x 0 - nth k x 0) * (nth (S k) y 0 + nth k y 0) / 2.
Proof.
  unfold trapezoids. rewrite seq_S, map_app. cbn [map Nat.add].
  induction (map _ (seq 0 k)) as [|a l IH]; unfold Rsum in *; cbn [app fold_right].
  - ring.
  - rewrite IH. ring.
Qed.

(** X24: for a smoothed spectrum and a grid of one length [n >= 2], the
    loop of the script stores at position [i] the trapezoid integral of the
    conductance over the frequencies before [i]: the first two entries are
    zero, each next entry adds the trapezoid that ends one point earlier,
    and the accumulated value that the script prints, the last entry, is
    the integral over all the points but the last.  The total conductance
    of line 550 exceeds it by the last trapezoid. *)
Theorem X24_accumulated_conductance (SHC_smooth oms_fft : list R) :
  let y := script.y_ITC SHC_smooth in
  let x := script.x_Frequency oms_fft in
  length SHC_smooth = length oms_fft -> (2 <= length oms_fft)%nat ->
  exists (accumulated_ITC : list R) (accumulated_count total : R),
    script.accumulated y x = Ok (accumulated_ITC, accumulated_count) /\
    script.trapz y x = Ok total /\
    length accumulated_ITC = length oms_fft /\
    nth 0 accumulated_ITC 0 = 0 /\
    nth 1 accumulated_ITC 0 = 0 /\
    (forall i, (1 <= i)%nat -> (S i < length oms_fft)%nat ->
       nth (S i) accumulated_ITC 0
       = nth i accumulated_ITC 0
         + (nth i x 0 - nth (i - 1) x 0) * (nth i y 0 + nth (i - 1) y 0) / 2) /\
    accumulated_count = nth (length oms_fft - 1) accumulated_ITC 0 /\
    total = accumulated_count
            + (nth (length oms_fft - 1) x 0 - nth (length oms_fft - 2) x 0)
              * (nth (length oms_fft - 1) y 0 + nth (length oms_fft - 2) y 0) / 2.
Proof.
  intros y x H0 Hn0.
  assert (Hx : length x = length oms_fft) by apply length_map.
  assert (H : length y = length x).
  { unfold y, script.y_ITC. rewrite length_map. now rewrite Hx. }
  rewrite <- Hx. assert (Hn : (2 <= length x)%nat) by now rewrite Hx.
  clearbody x y. clear H0 Hn0 Hx.
  exists (map (fun j => trapezoids y x (j - 1)) (seq 0 (length x))),
         (trapezoids y x (length x - 2)), (trapezoids y x (length x - 1)).
  assert (Hnth : forall i, (i < length x)%nat ->
            nth i (map (fun j => trapezoids y x (j - 1)) (seq 0 (length x))) 0
            = trapezoids y x (i - 1)).
  { intros i Hi. rewrite (nth_map_lt _ _ _ _ 0%nat) by now rewrite length_seq.
    now rewrite seq_nth by exact Hi. }
  split.
  { unfold script.accumulated. rewrite (accumulate_ok y x (length x) H) by lia.
    cbn [app Nat.add]. destruct (length x) as [|[|n]]; try lia.
    replace (S n - 1)%nat with (S (S n) - 2)%nat by lia. reflexivity. }
  split; [now apply trapz_ok|].
  split; [now rewrite length_map, length_seq|].
  split; [rewrite Hnth by lia; reflexivity|].
  split; [rewrite Hnth by lia; reflexivity|].
  split.
  { intros i Hi HS. rewrite !Hnth by lia.
    replace (S i - 1)%nat with (S (i - 1)) by lia. rewrite trapezoids_S.
    replace (S (i - 1)) with i by lia. reflexivity. }
  split.
  { rewrite Hnth by lia. f_equal. lia. }
  replace (length x - 1)%nat with (S (length x - 2)) by lia. apply trapezoids_S.
Qed.

Lemma X24_accumulated_conductance_witness :
  exists (accumulated_ITC : list R) (accumulated_count total : R),
    script.accumulated (script.y_ITC [1; 2; 4]) (script.x_Frequency [0; 1; 2])
    = Ok (accumulated_ITC, accumulated_count) /\
    script.trapz (script.y_ITC [1; 2; 4]) (script.x_Frequency [0; 1; 2]) = Ok total /\
    length accumulated_ITC = 3%nat /\
    accumulated_count = nth 2 accumulated_ITC 0.
Proof.
  destruct (X24_accumulated_conductance [1; 2; 4] [0; 1; 2])
    as (a & c & t & H1 & H2 & H3 & _ & _ & _ & H7 & _).
  - reflexivity.
  - simpl. lia.
  - exists a, c, t. repeat split; assumption.
Defined.
